(** * Aurora Limitless benchmark: a verification development

    A shallow embedding of the two-stage benchmark coordinator
    ([src/two-stage-benchmark.ts]) and of its high-throughput variant
    ([src/optimized-two-stage.ts]), of the two stages of a worker
    ([src/two-stage-worker.ts]), of the insert worker
    ([benchmark-worker.ts]), of the streaming benchmark
    ([simple-streaming-benchmark.ts]), of the payload generator
    ([src/data-generator.ts]), of the CSV writer and the staging files
    ([csv-utils.ts]) and of the connection factory ([src/database.ts]),
    followed by the properties established about them.

    Numbers.  A JavaScript [number] is an IEEE-754 binary64 value; the
    measured and derived quantities (clock readings, sizes in MB,
    latencies, throughputs, rates) are therefore primitive floats, whose
    operations are exactly the binary64 ones.  Identifiers, array lengths
    and row counts are integers far below 2^53 and are kept in [Z] or
    [nat]; [Z2F] is the point where such an integer enters a floating-point
    expression. *)

From Stdlib Require Import ZArith String Ascii List Bool Lia.
From Stdlib Require Import Floats.PrimFloat Floats.FloatOps Floats.SpecFloat.
From Stdlib Require Import Numbers.Cyclic.Int63.Uint63.
From Stdlib Require Import Numbers.DecimalString.
From Stdlib Require Numbers.DecimalPos Numbers.DecimalZ.
Import ListNotations.

Local Open Scope string_scope.
Local Open Scope list_scope.
Local Open Scope Z_scope.

(* ================================================================== *)
(** * Part I: the embedding                                             *)
(* ================================================================== *)

(** ** JavaScript values shared by all components *)

Module Js.

(** An integer used as a [number].  The conversion is the one of a 63-bit
    machine integer: it is the JavaScript value for [|z| < 2^63] (rounded to
    nearest above 2^53, as the source's arithmetic is).  The integers that
    reach it are counts and sizes far below that. *)
Definition Z2F (z : Z) : float :=
  if z <? 0 then PrimFloat.opp (PrimFloat.of_uint63 (Uint63.of_Z (- z)))
  else PrimFloat.of_uint63 (Uint63.of_Z z).

Definition N2F (n : nat) : float := Z2F (Z.of_nat n).

(** [Math.floor] on a finite number, as an integer ([None] for NaN and
    the infinities, which [Math.floor] returns unchanged). *)
Definition floor (x : float) : option Z :=
  match Prim2SF x with
  | S754_zero _ => Some 0
  | S754_finite s m e =>
      let whole :=
        match e with
        | Zneg k => Z.shiftr (Zpos m) (Zpos k)
        | _ => Z.shiftl (Zpos m) e
        end in
      let exact :=
        match e with
        | Zneg k => Z.shiftl whole (Zpos k) =? Zpos m
        | _ => true
        end in
      Some (if s then (if exact then - whole else - whole - 1) else whole)
  | S754_infinity _ | S754_nan => None
  end.

(** [s || d] for an optional string: the default replaces both
    [undefined] and the empty string. *)
Definition orDefault (s : option string) (d : string) : string :=
  match s with
  | Some (String a r) => String a r
  | Some EmptyString | None => d
  end.

(** Truthiness of a string, as used by [filter(p => p)]. *)
Definition truthy (s : string) : bool :=
  match s with
  | EmptyString => false
  | String _ _ => true
  end.

(** [xs.slice(i, j)] for [0 <= i <= j]. *)
Definition slice {A : Type} (i j : nat) (xs : list A) : list A :=
  firstn (j - i) (skipn i xs).

(** [xs.reduce((sum, r) => sum + f(r), 0)] over numbers. *)
Definition sumF {A : Type} (f : A -> float) (xs : list A) : float :=
  fold_left (fun sum r => PrimFloat.add sum (f r)) xs PrimFloat.zero.

(** The same reduction over integer counts. *)
Definition sumZ {A : Type} (f : A -> Z) (xs : list A) : Z :=
  fold_left (fun sum r => sum + f r) xs 0.

(** The values [0, 1, ..., n-1] taken by a counting [for] loop. *)
Definition range (n : Z) : list Z :=
  map Z.of_nat (seq 0 (Z.to_nat n)).

(** How a promise ends. *)
Inductive settled (A : Type) : Type :=
| Resolved (a : A)
| Rejected (reason : string).
Arguments Resolved {A} a.
Arguments Rejected {A} reason.

End Js.

(** ** The interfaces of [types.ts] *)

Module BenchmarkConfig.
Record t : Type := make {
  minWorkers : Z;
  maxWorkers : Z;
  workerStep : Z;
  connectionsPerWorker : Z;
  batchSize : Z;
  testDuration : Z;
  warmupDuration : Z;
  dataSizeMB : Z;
  useTwoStageApproach : bool
}.
End BenchmarkConfig.

Module FileGenerationResult.
Record t : Type := make {
  workerId : Z;
  connectionId : Z;
  filePath : string;
  recordsGenerated : Z;
  fileSizeMB : float;
  generationTimeMs : float;
  success : bool;
  error : option string
}.
End FileGenerationResult.

Module CopyExecutionResult.
Record t : Type := make {
  workerId : Z;
  connectionId : Z;
  filePath : string;
  recordsInserted : Z;
  dataSizeMB : float;
  executionTimeMs : float;
  success : bool;
  error : option string
}.
End CopyExecutionResult.

Module BenchmarkResult.
Record t : Type := make {
  timestamp : string;
  workers : Z;
  connectionsPerWorker : Z;
  totalConnections : Z;
  batchSize : Z;
  duration : float;
  totalRecords : Z;
  totalDataSizeMB : float;
  throughputMBps : float;
  throughputRecordsPerSecond : float;
  avgLatencyMs : float;
  p50LatencyMs : float;
  p95LatencyMs : float;
  p99LatencyMs : float;
  minLatencyMs : float;
  maxLatencyMs : float;
  successCount : Z;
  errorCount : Z;
  successRate : float;
  errors : list string
}.
End BenchmarkResult.

(** ** The Stage Coordinator ([two-stage-benchmark.ts])

    The coordinator runs on the main thread.  What it does to the outside
    is recorded in a chronological [trace]: every worker it spawns, every
    promise it has awaited, every clock reading, every file handed to
    cleanup.  What the outside answers is an [Environment]: the clock and
    the outcome of each worker.  [console.log] output is not modelled. *)

Module TwoStage.
Import Js.

(** The two entry points of [two-stage-worker.ts]; each call creates one
    worker thread. *)
Inductive Call : Type :=
| FileGeneration (workerId connectionId recordCount : Z)
| CopyExecution (workerId connectionId : Z) (filePath : string).

Inductive Event : Type :=
| Spawned (pid : nat) (c : Call)
| Settled (pid : nat)
| ClockRead (t : float)
| CleanupFile (path : string).

Record World : Type := mkWorld {
  nextPid : nat;        (* promises created so far *)
  ticks : nat;          (* clock readings taken so far *)
  trace : list Event
}.

Definition initialWorld : World := mkWorld 0 0 [].

(** What a run meets.  Every worker settles: its promise resolves with the
    message the worker posts, or rejects with its error or its exit code.  A
    worker that does neither leaves its promise pending for ever, and the
    run with it; such runs are not described.  The rejection of a promise
    that is never awaited (those of [copyPromises]) has no effect here;
    Node reports it as an unhandled rejection and may end the process
    before the run settles. *)
Record Environment : Type := mkEnvironment {
  (* the k-th reading of [Date.now()] *)
  clock : nat -> float;
  (* [Date.prototype.toISOString] *)
  toISOString : float -> string;
  (* how the generation worker for (workerId, connectionId, recordCount)
     ends *)
  fileGeneration : Z -> Z -> Z -> settled FileGenerationResult.t;
  (* how the copy worker behind promise [pid] ends; two calls on the same
     artifact are two workers and may end differently *)
  copyExecution : nat -> Z -> Z -> string -> settled CopyExecutionResult.t
}.

(** A promise: its identity and the outcome it will have when awaited. *)
Record Promise (A : Type) : Type := mkPromise {
  pid : nat;
  outcome : settled A
}.
Arguments mkPromise {A} pid outcome.
Arguments pid {A} p.
Arguments outcome {A} p.

(** How a computation of the coordinator ends.  [Unfinished] marks a loop
    that was cut by its fuel; [runTwoStageBenchmark_finishes] shows that
    it never occurs. *)
Inductive Completion (A : Type) : Type :=
| Returned (a : A)
| Thrown (message : string)
| Unfinished.
Arguments Returned {A} a.
Arguments Thrown {A} message.
Arguments Unfinished {A}.

Definition M (A : Type) : Type := World -> Completion A * World.

Definition ret {A : Type} (a : A) : M A := fun w => (Returned a, w).

Definition bind {A B : Type} (m : M A) (k : A -> M B) : M B :=
  fun w =>
    match m w with
    | (Returned a, w') => k a w'
    | (Thrown msg, w') => (Thrown msg, w')
    | (Unfinished, w') => (Unfinished, w')
    end.

Definition throw {A : Type} (message : string) : M A :=
  fun w => (Thrown message, w).

Definition unfinished {A : Type} : M A := fun w => (Unfinished, w).

Definition emit (e : Event) : M unit :=
  fun w => (Returned tt, mkWorld (nextPid w) (ticks w) (trace w ++ [e])).

Declare Scope coordinator_scope.
Delimit Scope coordinator_scope with coordinator.
Notation "x <- c ;; k" := (bind c (fun x => k))
  (at level 61, c at next level, right associativity) : coordinator_scope.
Notation "c ;;; k" := (bind c (fun _ => k))
  (at level 61, right associativity) : coordinator_scope.
Local Open Scope coordinator_scope.

Fixpoint mapM {A B : Type} (f : A -> M B) (xs : list A) : M (list B) :=
  match xs with
  | [] => ret []
  | x :: xs' => y <- f x ;; ys <- mapM f xs' ;; ret (y :: ys)
  end.

Section Coordinator.
Variable env : Environment.

(** [Date.now()] *)
Definition Date_now : M float :=
  fun w =>
    let t := clock env (ticks w) in
    (Returned t,
     mkWorld (nextPid w) (S (ticks w)) (trace w ++ [ClockRead t])).

(** [new Worker(__filename, { workerData })] wrapped in a promise. *)
Definition spawn (c : Call) : M nat :=
  fun w =>
    (Returned (nextPid w),
     mkWorld (S (nextPid w)) (ticks w) (trace w ++ [Spawned (nextPid w) c])).

Definition runFileGeneration (config : BenchmarkConfig.t)
    (workerId connectionId recordCount : Z)
  : M (Promise FileGenerationResult.t) :=
  p <- spawn (FileGeneration workerId connectionId recordCount) ;;
  ret (mkPromise p (fileGeneration env workerId connectionId recordCount)).

Definition runCopyExecution (config : BenchmarkConfig.t)
    (workerId connectionId : Z) (filePath : string)
  : M (Promise CopyExecutionResult.t) :=
  p <- spawn (CopyExecution workerId connectionId filePath) ;;
  ret (mkPromise p (copyExecution env p workerId connectionId filePath)).

(** [await Promise.all(ps)]: the coordinator resumes when every promise
    has resolved, or throws the reason of a rejected one.  (Among
    several rejections JavaScript reports the earliest in time; the
    model reports the earliest in the array.) *)
Fixpoint Promise_all {A : Type} (ps : list (Promise A)) : M (list A) :=
  match ps with
  | [] => ret []
  | p :: ps' =>
      match outcome p with
      | Resolved a =>
          emit (Settled (pid p)) ;;;
          rest <- Promise_all ps' ;;
          ret (a :: rest)
      | Rejected reason =>
          emit (Settled (pid p)) ;;; throw reason
      end
  end.

(** [cleanupFiles] of [csv-utils.ts]: every path is visited once; a
    failing unlink is caught and logged there. *)
Definition cleanupFiles (filePaths : list string) : M unit :=
  mapM (fun filePath => emit (CleanupFile filePath)) filePaths ;;; ret tt.

Definition maxConcurrentCopiesOf
    (successfulGenerations : list FileGenerationResult.t) : nat :=
  Nat.min 10 (length successfulGenerations).

(** The batch loop
    [for (let i = 0; i < successfulGenerations.length; i += maxConcurrentCopies)],
    with the array [copyResults] it pushes to. *)
Fixpoint copyBatches (fuel : nat) (config : BenchmarkConfig.t)
    (successfulGenerations : list FileGenerationResult.t)
    (maxConcurrentCopies : nat) (i : nat)
    (copyResults : list CopyExecutionResult.t)
  : M (list CopyExecutionResult.t) :=
  if (i <? length successfulGenerations)%nat then
    match fuel with
    | O => unfinished
    | S fuel' =>
        let batch :=
          slice i (i + maxConcurrentCopies) successfulGenerations in
        batchPromises <-
          mapM (fun genResult =>
                  runCopyExecution config
                    (FileGenerationResult.workerId genResult)
                    (FileGenerationResult.connectionId genResult)
                    (FileGenerationResult.filePath genResult))
               batch ;;
        batchStart <- Date_now ;;
        batchResults <- Promise_all batchPromises ;;
        batchEnd <- Date_now ;;
        copyBatches fuel' config successfulGenerations maxConcurrentCopies
          (i + maxConcurrentCopies) (copyResults ++ batchResults)
    end
  else ret copyResults.

(** The run.  [Math.floor(a / b)] on integers is the quotient [a / b] of
    [Z] as long as [b] is not zero and the operands stay below 2^53.  With a
    divisor of zero the JavaScript value is not a finite number; no
    generation unit is started then, and the run ends at the fatal error
    before the value is used. *)
Definition runTwoStageBenchmark (config : BenchmarkConfig.t)
  : M BenchmarkResult.t :=
  overallStartTime <- Date_now ;;
  let workers := BenchmarkConfig.minWorkers config in
  let totalConnections :=
    workers * BenchmarkConfig.connectionsPerWorker config in
  let recordsPerConnection :=
    (BenchmarkConfig.dataSizeMB config * 1024 * 1024)
    / (totalConnections * 75 * 1024) in
  (* Stage 1: generate CSV files *)
  generationStartTime <- Date_now ;;
  generationPromises <-
    mapM (fun workerId =>
            mapM (fun connectionId =>
                    runFileGeneration config workerId connectionId
                      recordsPerConnection)
                 (range (BenchmarkConfig.connectionsPerWorker config)))
         (range workers) ;;
  generationResults <- Promise_all (concat generationPromises) ;;
  generationEndTime <- Date_now ;;
  let successfulGenerations :=
    filter FileGenerationResult.success generationResults in
  let failedGenerations :=
    filter (fun r => negb (FileGenerationResult.success r))
           generationResults in
  if (length successfulGenerations =? 0)%nat then
    throw "No CSV files were generated successfully"
  else
  (* Stage 2: execute COPY commands *)
  copyStartTime <- Date_now ;;
  copyPromises <-
    mapM (fun genResult =>
            runCopyExecution config
              (FileGenerationResult.workerId genResult)
              (FileGenerationResult.connectionId genResult)
              (FileGenerationResult.filePath genResult))
         successfulGenerations ;;
  let maxConcurrentCopies := maxConcurrentCopiesOf successfulGenerations in
  copyResults <-
    copyBatches (length successfulGenerations) config
      successfulGenerations maxConcurrentCopies 0%nat [] ;;
  copyEndTime <- Date_now ;;
  let successfulCopies :=
    filter CopyExecutionResult.success copyResults in
  let failedCopies :=
    filter (fun r => negb (CopyExecutionResult.success r)) copyResults in
  (* overall results *)
  let totalRecords :=
    sumZ CopyExecutionResult.recordsInserted successfulCopies in
  let totalDataSizeMB :=
    sumF CopyExecutionResult.dataSizeMB successfulCopies in
  let totalSuccessCount := Z.of_nat (length successfulCopies) in
  let totalErrorCount := Z.of_nat (length failedCopies) in
  overallEndTime <- Date_now ;;
  let overallDuration :=
    PrimFloat.div (PrimFloat.sub overallEndTime overallStartTime)
                  (Z2F 1000) in
  let copyDuration :=
    PrimFloat.div (PrimFloat.sub copyEndTime copyStartTime) (Z2F 1000) in
  let throughputMBps := PrimFloat.div totalDataSizeMB copyDuration in
  let throughputRecordsPerSecond :=
    PrimFloat.div (Z2F totalRecords) copyDuration in
  let successRate :=
    PrimFloat.div (Z2F totalSuccessCount)
                  (Z2F (totalSuccessCount + totalErrorCount)) in
  let avgCopyLatencyMs :=
    if (0 <? length successfulCopies)%nat then
      PrimFloat.div
        (sumF CopyExecutionResult.executionTimeMs successfulCopies)
        (N2F (length successfulCopies))
    else PrimFloat.zero in
  let errors :=
    map (fun r => orDefault (FileGenerationResult.error r)
                            "Generation failed") failedGenerations
    ++ map (fun r => orDefault (CopyExecutionResult.error r)
                               "COPY failed") failedCopies in
  (* cleanup *)
  let allFilePaths :=
    filter truthy (map FileGenerationResult.filePath generationResults) in
  cleanupFiles allFilePaths ;;;
  resultTime <- Date_now ;;
  ret (BenchmarkResult.make
         (toISOString env resultTime)
         workers
         (BenchmarkConfig.connectionsPerWorker config)
         (Z.of_nat (length successfulGenerations))
         recordsPerConnection
         copyDuration
         totalRecords
         totalDataSizeMB
         throughputMBps
         throughputRecordsPerSecond
         avgCopyLatencyMs
         avgCopyLatencyMs
         avgCopyLatencyMs
         avgCopyLatencyMs
         avgCopyLatencyMs
         avgCopyLatencyMs
         totalSuccessCount
         totalErrorCount
         successRate
         (firstn 10 errors)).

End Coordinator.

(** *** Reading a trace *)

Definition isCopy (c : Call) : bool :=
  match c with
  | CopyExecution _ _ _ => true
  | FileGeneration _ _ _ => false
  end.

(** The artifact paths handed to the Bulk Loader, one entry per call of
    [runCopyExecution], in call order. *)
Fixpoint copyInvocations (tr : list Event) : list string :=
  match tr with
  | [] => []
  | Spawned _ (CopyExecution _ _ filePath) :: tr' =>
      filePath :: copyInvocations tr'
  | _ :: tr' => copyInvocations tr'
  end.

(** The copy promises that are pending after a trace: created and not yet
    seen settled by the coordinator. *)
Definition pendingStep (pending : list nat) (e : Event) : list nat :=
  match e with
  | Spawned p (CopyExecution _ _ _) => p :: pending
  | Settled p => filter (fun q => negb (q =? p)%nat) pending
  | _ => pending
  end.

Definition pendingCopies (tr : list Event) : list nat :=
  fold_left pendingStep tr [].

(** The largest number of copy promises pending at the same moment. *)
Definition peakStep (st : list nat * nat) (e : Event) : list nat * nat :=
  let pending := pendingStep (fst st) e in
  (pending, Nat.max (snd st) (length pending)).

Definition peakInFlight (tr : list Event) : nat :=
  snd (fold_left peakStep tr ([], 0%nat)).

(** *** Vocabulary for statements about a run *)

(** [Math.floor((dataSizeMB * 1024 * 1024) / (totalConnections * 75 *
    1024))] on integers.  The source computes in binary64: the two products
    are exact while they stay below 2^53, and the floor of the rounded
    quotient of two such integers is the floor of their exact quotient, so
    in that range the value is the quotient of [Z].  Statements about the
    value itself carry this range as a hypothesis. *)
Definition recordsPerConnectionOf (config : BenchmarkConfig.t) : Z :=
(BenchmarkConfig.dataSizeMB config * 1024 * 1024)
/ (BenchmarkConfig.minWorkers config
   * BenchmarkConfig.connectionsPerWorker config * 75 * 1024).

(** The (workerId, connectionId) pairs in the order the nested loops visit
  them. *)
Definition generationUnits (config : BenchmarkConfig.t) : list (Z * Z) :=
flat_map (fun workerId =>
            map (fun connectionId => (workerId, connectionId))
                (range (BenchmarkConfig.connectionsPerWorker config)))
         (range (BenchmarkConfig.minWorkers config)).

Definition generationCall (n : Z) (unit : Z * Z) : Call :=
FileGeneration (fst unit) (snd unit) n.

Definition copyCall (g : FileGenerationResult.t) : Call :=
CopyExecution (FileGenerationResult.workerId g)
              (FileGenerationResult.connectionId g)
              (FileGenerationResult.filePath g).

Definition failed (g : FileGenerationResult.t) : bool :=
negb (FileGenerationResult.success g).

Definition failedCopy (r : CopyExecutionResult.t) : bool :=
negb (CopyExecutionResult.success r).

(** The calls spawned in a trace, in order. *)
Fixpoint spawnedCalls (tr : list Event) : list Call :=
match tr with
| [] => []
| Spawned _ c :: tr' => c :: spawnedCalls tr'
| _ :: tr' => spawnedCalls tr'
end.

Definition copyPath (c : Call) : list string :=
match c with
| CopyExecution _ _ filePath => [filePath]
| FileGeneration _ _ _ => []
end.

(** The events of spawning [calls] as the promises numbered from [p] on. *)
Fixpoint spawns (p : nat) (calls : list Call) : list Event :=
match calls with
| [] => []
| c :: calls' => Spawned p c :: spawns (S p) calls'
end.

Definition settles {A : Type} (ps : list (Promise A)) : list Event :=
map (fun p => Settled (pid p)) ps.

Fixpoint generationPromisesFrom (env : Environment) (n : Z) (p : nat)
  (units : list (Z * Z)) : list (Promise FileGenerationResult.t) :=
match units with
| [] => []
| u :: units' =>
    mkPromise p (fileGeneration env (fst u) (snd u) n)
    :: generationPromisesFrom env n (S p) units'
end.

Fixpoint copyPromisesFrom (env : Environment) (p : nat)
  (gs : list FileGenerationResult.t)
: list (Promise CopyExecutionResult.t) :=
match gs with
| [] => []
| g :: gs' =>
    mkPromise p
      (copyExecution env p (FileGenerationResult.workerId g)
                     (FileGenerationResult.connectionId g)
                     (FileGenerationResult.filePath g))
    :: copyPromisesFrom env (S p) gs'
end.

(** What stage 1 hands back, unit by unit, when the generation worker of
  (workerId, connectionId) answers [gen workerId connectionId n]. *)
Definition generationResultsOf (config : BenchmarkConfig.t)
  (gen : Z -> Z -> Z -> FileGenerationResult.t)
: list FileGenerationResult.t :=
map (fun u => gen (fst u) (snd u) (recordsPerConnectionOf config))
    (generationUnits config).

(** What the copy workers numbered from [p] on answer for the artifacts
  [gs], when the worker behind promise [q] answers [copy q ...]. *)
Fixpoint copyResultsFrom
  (copy : nat -> Z -> Z -> string -> CopyExecutionResult.t) (p : nat)
  (gs : list FileGenerationResult.t) : list CopyExecutionResult.t :=
match gs with
| [] => []
| g :: gs' =>
    copy p (FileGenerationResult.workerId g)
         (FileGenerationResult.connectionId g)
         (FileGenerationResult.filePath g)
    :: copyResultsFrom copy (S p) gs'
end.

Definition generationMessage (r : FileGenerationResult.t) : string :=
orDefault (FileGenerationResult.error r) "Generation failed".

Definition copyMessage (r : CopyExecutionResult.t) : string :=
orDefault (CopyExecutionResult.error r) "COPY failed".

(** The result object as a function of what the two stages produced and of
  the clock readings around stage 2. *)
Definition summary (config : BenchmarkConfig.t) (timestamp : string)
  (copyStartTime copyEndTime : float)
  (generationResults : list FileGenerationResult.t)
  (copyResults : list CopyExecutionResult.t) : BenchmarkResult.t :=
let successfulGenerations :=
  filter FileGenerationResult.success generationResults in
let failedGenerations := filter failed generationResults in
let successfulCopies := filter CopyExecutionResult.success copyResults in
let failedCopies := filter failedCopy copyResults in
let totalRecords :=
  sumZ CopyExecutionResult.recordsInserted successfulCopies in
let totalDataSizeMB :=
  sumF CopyExecutionResult.dataSizeMB successfulCopies in
let totalSuccessCount := Z.of_nat (length successfulCopies) in
let totalErrorCount := Z.of_nat (length failedCopies) in
let copyDuration :=
  PrimFloat.div (PrimFloat.sub copyEndTime copyStartTime) (Z2F 1000) in
let avgCopyLatencyMs :=
  if (0 <? length successfulCopies)%nat then
    PrimFloat.div
      (sumF CopyExecutionResult.executionTimeMs successfulCopies)
      (N2F (length successfulCopies))
  else PrimFloat.zero in
BenchmarkResult.make
  timestamp
  (BenchmarkConfig.minWorkers config)
  (BenchmarkConfig.connectionsPerWorker config)
  (Z.of_nat (length successfulGenerations))
  (recordsPerConnectionOf config)
  copyDuration
  totalRecords
  totalDataSizeMB
  (PrimFloat.div totalDataSizeMB copyDuration)
  (PrimFloat.div (Z2F totalRecords) copyDuration)
  avgCopyLatencyMs avgCopyLatencyMs avgCopyLatencyMs avgCopyLatencyMs
  avgCopyLatencyMs avgCopyLatencyMs
  totalSuccessCount
  totalErrorCount
  (PrimFloat.div (Z2F totalSuccessCount)
                 (Z2F (totalSuccessCount + totalErrorCount)))
  (firstn 10
     (map generationMessage failedGenerations
      ++ map copyMessage failedCopies)).

(** A computation that is not cut by its fuel. *)
Definition finishes {A : Type} (m : M A) : Prop :=
forall w, fst (m w) <> Unfinished.

End TwoStage.

(** ** The insert worker's statistics ([benchmark-worker.ts])

    The worker collects one [LatencyMeasurement] per batch insert during
    its two timed loops and then summarises them.  This module starts where
    the loops end, with the collected measurements; the loops themselves
    are in [InsertWorker] below. *)

Module BenchmarkWorker.
Import Js.

Record LatencyMeasurement : Type := mkMeasurement {
  startTime : float;
  endTime : float;
  latency : float;
  success : bool;
  error : option string
}.

Record WorkerResult : Type := mkWorkerResult {
  workerId : Z;
  connectionId : Z;
  recordsInserted : Z;
  dataSizeMB : float;
  duration : float;
  avgLatencyMs : float;
  (* an array read past the end is [undefined]: [None] *)
  p50LatencyMs : option float;
  p95LatencyMs : option float;
  p99LatencyMs : option float;
  minLatencyMs : option float;
  maxLatencyMs : option float;
  successCount : Z;
  errorCount : Z;
  errors : list string
}.

(** [xs.sort((a, b) => a - b)]: a stable sort under the comparator. *)
Fixpoint insertSorted (x : float) (sorted : list float) : list float :=
  match sorted with
  | [] => [x]
  | y :: rest =>
      if PrimFloat.ltb (PrimFloat.sub y x) PrimFloat.zero
      then y :: insertSorted x rest
      else x :: y :: rest
  end.

Definition sortAscending (xs : list float) : list float :=
  fold_right insertSorted [] xs.

(** [xs[k]] for a computed index. *)
Definition at_index (xs : list float) (k : option Z) : option float :=
  match k with
  | Some z => if z <? 0 then None else nth_error xs (Z.to_nat z)
  | None => None
  end.

(** [latencies[Math.floor(latencies.length * p)]] *)
Definition percentile (latencies : list float) (p : float) : option float :=
  at_index latencies (floor (PrimFloat.mul (N2F (length latencies)) p)).

Definition p50 : float := 0.5%float.
Definition p95 : float := 0x1.e666666666666p-1%float.   (* 0.95 *)
Definition p99 : float := 0x1.fae147ae147aep-1%float.   (* 0.99 *)

(** The block under [// Calculate statistics]. *)
Definition calculateStatistics (workerId connectionId : Z)
    (recordsInserted : Z) (totalDataSizeMB : float)
    (startTime endTime : float)
    (measurements : list LatencyMeasurement) (errors : list string)
  : WorkerResult :=
  let duration :=
    PrimFloat.div (PrimFloat.sub endTime startTime) (Z2F 1000) in
  let latencies := sortAscending (map latency measurements) in
  let successCount := Z.of_nat (length (filter success measurements)) in
  let errorCount :=
    Z.of_nat (length (filter (fun m => negb (success m)) measurements)) in
  mkWorkerResult workerId connectionId recordsInserted totalDataSizeMB
    duration
    (PrimFloat.div (sumF (fun lat => lat) latencies)
                   (N2F (length latencies)))
    (percentile latencies p50)
    (percentile latencies p95)
    (percentile latencies p99)
    (nth_error latencies 0)
    (at_index latencies (Some (Z.of_nat (length latencies) - 1)))
    successCount errorCount
    (firstn 10 errors).

End BenchmarkWorker.

(** ** The single-stage aggregation ([index.ts], [runBenchmark])

    After [Promise.all(workerPromises)] the main thread reduces the
    workers' results; this is that reduction. *)

Module SingleStage.
Import Js.

Definition aggregate (timestamp : string) (config : BenchmarkConfig.t)
    (workerResults : list BenchmarkWorker.WorkerResult)
  : BenchmarkResult.t :=
  let workers := BenchmarkConfig.minWorkers config in
  let totalConnections :=
    workers * BenchmarkConfig.connectionsPerWorker config in
  let totalRecords := sumZ BenchmarkWorker.recordsInserted workerResults in
  let totalDataSizeMB := sumF BenchmarkWorker.dataSizeMB workerResults in
  let totalSuccessCount := sumZ BenchmarkWorker.successCount workerResults in
  let totalErrorCount := sumZ BenchmarkWorker.errorCount workerResults in
  let duration := Z2F (BenchmarkConfig.testDuration config) in
  let throughputMBps := PrimFloat.div totalDataSizeMB duration in
  let throughputRecordsPerSecond :=
    PrimFloat.div (Z2F totalRecords) duration in
  let successRate :=
    PrimFloat.div (Z2F totalSuccessCount)
                  (Z2F (totalSuccessCount + totalErrorCount)) in
  let avgLatencyMs :=
    PrimFloat.div (sumF BenchmarkWorker.avgLatencyMs workerResults)
                  (N2F (length workerResults)) in
  BenchmarkResult.make timestamp workers
    (BenchmarkConfig.connectionsPerWorker config)
    totalConnections
    (BenchmarkConfig.batchSize config)
    duration totalRecords totalDataSizeMB throughputMBps
    throughputRecordsPerSecond
    avgLatencyMs avgLatencyMs avgLatencyMs avgLatencyMs avgLatencyMs
    avgLatencyMs
    totalSuccessCount totalErrorCount successRate [].

End SingleStage.

(** ** JSON text, as [JSON.stringify(value, null, 2)] writes it *)

Module Json.

(** A number is carried as the literal [JSON.stringify] prints for it. *)
#[local] Unset Elimination Schemes.
Inductive value : Type :=
| JNull
| JBool (b : bool)
| JNumber (literal : string)
| JString (s : string)
| JArray (items : list value)
| JObject (members : list (string * value)).
#[local] Set Elimination Schemes.

Definition LF : ascii := "010"%char.
Definition CR : ascii := "013"%char.
Definition DQUOTE : ascii := "034"%char.
Definition BACKSLASH : ascii := "092"%char.

(** A string as bytes: [Buffer.byteLength(s, "utf8")]. *)
Definition byteLength (s : string) : Z := Z.of_nat (String.length s).

Definition hexDigit (n : nat) : ascii :=
  ascii_of_nat (if (n <? 10)%nat then 48 + n else 87 + n).

(** QuoteJSONString, character by character. *)
Definition escapeChar (c : ascii) : string :=
  let n := nat_of_ascii c in
  if (n =? 34)%nat then String BACKSLASH (String DQUOTE EmptyString)
  else if (n =? 92)%nat then String BACKSLASH (String BACKSLASH EmptyString)
  else if (n =? 8)%nat then String BACKSLASH "b"
  else if (n =? 12)%nat then String BACKSLASH "f"
  else if (n =? 10)%nat then String BACKSLASH "n"
  else if (n =? 13)%nat then String BACKSLASH "r"
  else if (n =? 9)%nat then String BACKSLASH "t"
  else if (n <? 32)%nat then
    String BACKSLASH
      ("u00" ++ String (hexDigit (n / 16)) (String (hexDigit (n mod 16))
                                                EmptyString))%string
  else String c EmptyString.

Fixpoint escapeChars (s : string) : string :=
  match s with
  | EmptyString => EmptyString
  | String c rest => (escapeChar c ++ escapeChars rest)%string
  end.

Definition quote (s : string) : string :=
  String DQUOTE (escapeChars s ++ String DQUOTE EmptyString)%string.

Fixpoint indent (depth : nat) : string :=
  match depth with
  | O => EmptyString
  | S d => ("  " ++ indent d)%string
  end.

Definition separator : string := String "," (String LF EmptyString).
Definition newline : string := String LF EmptyString.

(** SerializeJSONProperty with a gap of two spaces, at nesting [depth]. *)
Fixpoint render (depth : nat) (v : value) : string :=
  match v with
  | JNull => "null"
  | JBool true => "true"
  | JBool false => "false"
  | JNumber literal => literal
  | JString s => quote s
  | JArray [] => "[]"
  | JArray items =>
      ("[" ++ newline
       ++ String.concat separator
            (map (fun item => indent (S depth) ++ render (S depth) item)
                 items)
       ++ newline ++ indent depth ++ "]")%string
  | JObject [] => "{}"
  | JObject members =>
      ("{" ++ newline
       ++ String.concat separator
            (map (fun member =>
                    match member with
                    | (key, item) =>
                        indent (S depth) ++ quote key ++ ": "
                        ++ render (S depth) item
                    end)
                 members)
       ++ newline ++ indent depth ++ "}")%string
  end.

Definition stringify (v : value) : string := render 0 v.

(** [Object.assign(target, source)] on string-keyed members whose keys are
    not array indices: an existing key keeps its place and takes the new
    value, a new key goes to the end. *)
Fixpoint setMember (key : string) (item : value)
    (members : list (string * value)) : list (string * value) :=
  match members with
  | [] => [(key, item)]
  | (k, v) :: rest =>
      if String.eqb k key then (k, item) :: rest
      else (k, v) :: setMember key item rest
  end.

Definition Object_assign (target source : list (string * value))
  : list (string * value) :=
  fold_left (fun acc member => setMember (fst member) (snd member) acc)
            source target.

(** An integer printed by a template literal or by [JSON.stringify]. *)
Definition ofZ (z : Z) : string := NilZero.string_of_int (Z.to_int z).

Definition JInt (z : Z) : value := JNumber (ofZ z).

(** *** Size accounting for a top-level object *)

(** One member line of a top-level object. *)
Definition memberLine (member : string * value) : string :=
  match member with
  | (key, item) => (indent 1 ++ quote key ++ ": " ++ render 1 item)%string
  end.

(** The bytes the members cost: for each its line, and two more for the
    separator after it or, for the last, the line breaks around the
    lines. *)
Definition membersCost (members : list (string * value)) : Z :=
  fold_right (fun m acc => Z.of_nat (String.length (memberLine m)) + 2 + acc)
             0 members.

End Json.

(** ** The record ([types.ts], [CapturedText])

    Only the fields the generator fills and the CSV writer reads; the
    optional [id], [selector], [url] and [createdAt] are never set.  The
    numeric fields hold the integers [Math.floor] produces. *)

Module CapturedText.
Record t : Type := make {
  taskId : string;
  stepIndex : Z;
  name : string;
  text : string;
  targetNotFound : bool;
  detectedChange : bool;
  comparedToTextId : option string;
  comparedToRecording : bool;
  listId : option string;
  listItemIndex : option Z;
  listPageNumber : option Z;
  listPageItemIndex : option Z;
  attachmentS3Key : option string;
  attachmentMimeType : option string;
  type : string
}.
End CapturedText.

(** ** The Record Generator ([data-generator.ts])

    The generator is a function of its random draws.  A draw is recorded at
    the level the code uses it: [Math.floor(Math.random() * n)] as the
    integer it yields, [uuidv4()] and [new Date().toISOString()] as the
    string they return, a raw [Math.random() * x] as the literal
    [JSON.stringify] prints for it. *)

Module DataGenerator.
Import Json.

Definition TEXT_TYPES : list string :=
  ["alt"; "backgroundImageUrl"; "href"; "imgSrc"; "innerHTML"; "innerText";
   "outerHTML"; "title"].

Definition strings (xs : list string) : value := JArray (map JString xs).

Definition product (name price rating : string) (reviews : Z)
    (features colors : list string) (inStock : bool) : value :=
  JObject [("name", JString name); ("price", JNumber price);
           ("rating", JNumber rating); ("reviews", JInt reviews);
           ("features", strings features); ("colors", strings colors);
           ("inStock", JBool inStock)].

Definition SAMPLE_PRODUCTS : value :=
  JArray
    [product "Wireless Bluetooth Headphones" "89.99" "4.5" 1247
       ["Noise Cancelling"; "40hr Battery"; "Quick Charge"; "Touch Controls"]
       ["Black"; "White"; "Blue"; "Red"] true;
     product "Smart Fitness Watch" "199.99" "4.3" 892
       ["Heart Rate Monitor"; "GPS"; "Water Resistant"; "Sleep Tracking"]
       ["Silver"; "Black"; "Rose Gold"] true;
     product "Portable Power Bank" "49.99" "4.7" 2156
       ["20000mAh"; "Fast Charging"; "Multiple Ports"; "LED Display"]
       ["Black"; "White"] false;
     product "Wireless Gaming Mouse" "79.99" "4.6" 567
       ["RGB Lighting"; "Programmable Buttons"; "High DPI";
        "Ergonomic Design"]
       ["Black"; "White"] true;
     product "Bluetooth Speaker" "129.99" "4.4" 743
       ["360Â° Sound"; "Waterproof"; "20hr Battery"; "Party Mode"]
       ["Black"; "Blue"; "Red"] true].

Definition customer (id name email tier : string) : value :=
  JObject [("id", JString id); ("name", JString name);
           ("email", JString email); ("tier", JString tier)].

Definition SAMPLE_CUSTOMERS : value :=
  JArray
    [customer "CUST001" "John Smith" "john.smith@email.com" "Premium";
     customer "CUST002" "Sarah Johnson" "sarah.j@email.com" "Gold";
     customer "CUST003" "Mike Davis" "mike.davis@email.com" "Silver";
     customer "CUST004" "Lisa Wilson" "lisa.w@email.com" "Premium";
     customer "CUST005" "David Brown" "david.brown@email.com" "Gold"].

Definition order (orderId status total : string) (items : Z) : value :=
  JObject [("orderId", JString orderId); ("status", JString status);
           ("total", JNumber total); ("items", JInt items)].

Definition SAMPLE_ORDERS : value :=
  JArray
    [order "ORD001" "Shipped" "299.97" 3;
     order "ORD002" "Delivered" "149.98" 2;
     order "ORD003" "Processing" "89.99" 1;
     order "ORD004" "Shipped" "459.96" 4;
     order "ORD005" "Cancelled" "79.99" 1].

(** The draws behind [baseData]. *)
Record BaseDraws : Type := mkBaseDraws {
  base_timestamp : string;
  base_sessionId : string;
  base_productNo : Z;
  base_pageLoadTime : string;
  base_timeOnPage : string;
  base_scrollDepth : string;
  base_clicks : Z;
  base_formInteractions : Z
}.

Definition baseData (d : BaseDraws) : list (string * value) :=
  [("timestamp", JString (base_timestamp d));
   ("sessionId", JString (base_sessionId d));
   ("pageUrl",
    JString ("https://example.com/products/"
             ++ ofZ (base_productNo d))%string);
   ("userAgent",
    JString
      "Mozilla/5.0 (Macintosh; Intel Mac OS X 10_15_7) AppleWebKit/537.36");
   ("viewport", JObject [("width", JInt 1920); ("height", JInt 1080)]);
   ("products", SAMPLE_PRODUCTS);
   ("customers", SAMPLE_CUSTOMERS);
   ("orders", SAMPLE_ORDERS);
   ("analytics",
    JObject [("pageLoadTime", JNumber (base_pageLoadTime d));
             ("timeOnPage", JNumber (base_timeOnPage d));
             ("scrollDepth", JNumber (base_scrollDepth d));
             ("clicks", JInt (base_clicks d));
             ("formInteractions", JInt (base_formInteractions d))]);
   ("metadata",
    JObject [("language", JString "en-US");
             ("timezone", JString "America/New_York");
             ("screenResolution", JString "1920x1080");
             ("colorDepth", JInt 24);
             ("pixelRatio", JInt 2)])].

(** The draws behind one element of [arrayData]. *)
Record ItemDraws : Type := mkItemDraws {
  item_itemId : string;
  item_score : string;
  item_categoryNo : Z;
  item_color : string;     (* [Math.floor(...).toString(16)] *)
  item_size : Z;
  item_weight : string;
  item_active : bool
}.

(** The draws behind one [additionalData] object, that is, behind one
    turn of the filling loop. *)
Record FillerDraws : Type := mkFillerDraws {
  filler_fieldNo : Z;
  filler_id : string;
  filler_value : string;
  filler_descriptionNo : Z;
  filler_tags : list Z;
  filler_finalNo : Z;
  filler_timestamp : string;
  filler_checksumUuid : string;
  filler_arrayData : list ItemDraws
}.

(** [s.replace(/-/g, EMPTY)] *)
Fixpoint removeDashes (s : string) : string :=
  match s with
  | EmptyString => EmptyString
  | String c rest =>
      if Ascii.eqb c "-"%char then removeDashes rest
      else String c (removeDashes rest)
  end.

Definition arrayItem (d : ItemDraws) : value :=
  JObject
    [("itemId", JString (item_itemId d));
     ("score", JNumber (item_score d));
     ("category", JString ("category_" ++ ofZ (item_categoryNo d))%string);
     ("attributes",
      JObject [("color", JString ("#" ++ item_color d)%string);
               ("size", JInt (item_size d));
               ("weight", JNumber (item_weight d));
               ("active", JBool (item_active d))])].

Definition additionalData (d : FillerDraws) : list (string * value) :=
  [(("extraField_" ++ ofZ (filler_fieldNo d))%string,
    JObject
      [("id", JString (filler_id d));
       ("value", JNumber (filler_value d));
       ("description",
        JString
          ("This is a detailed description for field "
           ++ ofZ (filler_descriptionNo d)
           ++ " with additional context and information that helps to increase the overall size of the JSON data structure.")%string);
       ("tags",
        JArray (map (fun n => JString ("tag_" ++ ofZ n)%string)
                    (filler_tags d)));
       ("nested",
        JObject
          [("level1",
            JObject
              [("level2",
                JObject
                  [("level3",
                    JObject
                      [("finalValue",
                        JString ("Deep nested value "
                                 ++ ofZ (filler_finalNo d))%string);
                       ("timestamp", JString (filler_timestamp d));
                       ("metadata",
                        JObject
                          [("source", JString "generated");
                           ("version", JString "1.0.0");
                           ("checksum",
                            JString (removeDashes
                                       (filler_checksumUuid d)))])])])])]);
       ("arrayData", JArray (map arrayItem (filler_arrayData d)))])].

(** The key of [additionalData]. *)
Definition fillerKey (d : FillerDraws) : string :=
  ("extraField_" ++ ofZ (filler_fieldNo d))%string.

(** The target chosen by [Math.floor(Math.random() * 51) + 50], from the
    integer [targetDraw] that the floor yields. *)
Definition targetSizeBytesOf (targetDraw : Z) : Z :=
  let targetSizeKB := targetDraw + 50 in
  targetSizeKB * 1024.

(** The filling loop.  [currentData] is what [JSON.parse(jsonText)]
    returns: the object whose text [jsonText] is.  Every turn uses up one
    [FillerDraws]; [None] means the supply ended before the loop did. *)
Fixpoint fill (targetSizeBytes : Z) (currentData : list (string * value))
    (jsonText : string) (currentSize : Z) (fillers : list FillerDraws)
  : option string :=
  if currentSize <? targetSizeBytes then
    match fillers with
    | [] => None
    | d :: rest =>
        let additionalJson := stringify (JObject (additionalData d)) in
        let additionalSize := byteLength additionalJson in
        if currentSize + additionalSize >? targetSizeBytes then
          Some jsonText
        else
          let merged := Object_assign currentData (additionalData d) in
          let jsonText' := stringify (JObject merged) in
          fill targetSizeBytes merged jsonText' (byteLength jsonText') rest
    end
  else Some jsonText.

Definition generateLargeJsonText (targetDraw : Z) (base : BaseDraws)
    (fillers : list FillerDraws) : option string :=
  let targetSizeBytes := targetSizeBytesOf targetDraw in
  let jsonText := stringify (JObject (baseData base)) in
  let currentSize := byteLength jsonText in
  fill targetSizeBytes (baseData base) jsonText currentSize fillers.

(** The draws behind the remaining fields of a record. *)
Record RecordDraws : Type := mkRecordDraws {
  draw_target : Z;
  draw_base : BaseDraws;
  draw_fillers : list FillerDraws;
  draw_type : nat;
  draw_taskId : string;
  draw_stepIndex : Z;
  draw_nameNo : Z;
  draw_targetNotFound : bool;
  draw_detectedChange : bool;
  draw_comparedToTextId : option string;
  draw_comparedToRecording : bool;
  draw_listId : option string;
  draw_listItemIndex : option Z;
  draw_listPageNumber : option Z;
  draw_listPageItemIndex : option Z;
  draw_attachmentUuid : option string;
  draw_attachmentMimeType : bool
}.

Definition generateCapturedText (d : RecordDraws) : option CapturedText.t :=
  match generateLargeJsonText (draw_target d) (draw_base d)
                              (draw_fillers d) with
  | None => None
  | Some text =>
      Some (CapturedText.make
              (draw_taskId d)
              (draw_stepIndex d)
              ("field_" ++ ofZ (draw_nameNo d))%string
              text
              (draw_targetNotFound d)
              (draw_detectedChange d)
              (draw_comparedToTextId d)
              (draw_comparedToRecording d)
              (draw_listId d)
              (draw_listItemIndex d)
              (option_map (fun n => n + 1) (draw_listPageNumber d))
              (draw_listPageItemIndex d)
              (option_map
                 (fun u => ("attachments/" ++ u ++ ".txt")%string)
                 (draw_attachmentUuid d))
              (if draw_attachmentMimeType d then Some "text/plain" else None)
              (nth (draw_type d) TEXT_TYPES EmptyString))
  end.

End DataGenerator.

(** ** The Staging Writer's row format ([csv-utils.ts]) *)

Module CsvUtils.

Definition COMMA : ascii := ","%char.
Definition DQUOTE : ascii := "034"%char.
Definition LF : ascii := "010"%char.
Definition CR : ascii := "013"%char.

(** The values [escapeCsvValue] is called with. *)
Inductive JsValue : Type :=
| VNull
| VUndefined
| VString (s : string)
| VNumber (z : Z)
| VBoolean (b : bool).

Definition ofOptString (o : option string) : JsValue :=
  match o with
  | Some s => VString s
  | None => VNull
  end.

Definition ofOptNumber (o : option Z) : JsValue :=
  match o with
  | Some z => VNumber z
  | None => VNull
  end.

(** [String(value)] for a value that is neither [null] nor [undefined].
    An integer is printed digit by digit, which is what JavaScript does
    below 10^21; the integers of a record are step and page indices. *)
Definition toString (v : JsValue) : string :=
  match v with
  | VNull => "null"
  | VUndefined => "undefined"
  | VString s => s
  | VNumber z => Json.ofZ z
  | VBoolean true => "true"
  | VBoolean false => "false"
  end.

(** [str.includes(c)] for a one-character needle. *)
Fixpoint includes (c : ascii) (str : string) : bool :=
  match str with
  | EmptyString => false
  | String a rest => Ascii.eqb a c || includes c rest
  end.

(** [str.replace(/DQUOTE/g, DQUOTE DQUOTE)] *)
Fixpoint doubleQuotes (str : string) : string :=
  match str with
  | EmptyString => EmptyString
  | String a rest =>
      if Ascii.eqb a DQUOTE
      then String DQUOTE (String DQUOTE (doubleQuotes rest))
      else String a (doubleQuotes rest)
  end.

Definition escapeCsvValue (value : JsValue) : string :=
  match value with
  | VNull | VUndefined => EmptyString
  | _ =>
      let str := toString value in
      if includes COMMA str || includes DQUOTE str || includes LF str
      then String DQUOTE (doubleQuotes str ++ String DQUOTE EmptyString)%string
      else str
  end.

(** The fifteen values of a record, in the order of [CSV_HEADERS]. *)
Definition fieldValues (record : CapturedText.t) : list JsValue :=
  [VString (CapturedText.taskId record);
   VNumber (CapturedText.stepIndex record);
   VString (CapturedText.name record);
   VString (CapturedText.text record);
   VBoolean (CapturedText.targetNotFound record);
   VBoolean (CapturedText.detectedChange record);
   ofOptString (CapturedText.comparedToTextId record);
   VBoolean (CapturedText.comparedToRecording record);
   ofOptString (CapturedText.listId record);
   ofOptNumber (CapturedText.listItemIndex record);
   ofOptNumber (CapturedText.listPageNumber record);
   ofOptNumber (CapturedText.listPageItemIndex record);
   ofOptString (CapturedText.attachmentS3Key record);
   ofOptString (CapturedText.attachmentMimeType record);
   VString (CapturedText.type record)].

Definition CSV_HEADERS : string :=
  String.concat ","
    ["taskId"; "stepIndex"; "name"; "text"; "targetNotFound";
     "detectedChange"; "comparedToTextId"; "comparedToRecording"; "listId";
     "listItemIndex"; "listPageNumber"; "listPageItemIndex";
     "attachmentS3Key"; "attachmentMimeType"; "type"].

Definition convertToCsvRow (record : CapturedText.t) : string :=
  String.concat "," (map escapeCsvValue (fieldValues record)).

(** The text each field stands for in the row: [String(value)], and the
    empty text for [null]. *)
Definition serializedField (value : JsValue) : string :=
  match value with
  | VNull | VUndefined => EmptyString
  | _ => toString value
  end.

Definition serializedFields (record : CapturedText.t) : list string :=
  map serializedField (fieldValues record).

End CsvUtils.

(** ** A reader for one record of RFC 4180

    This is the reference the writer is compared with; it follows the
    grammar of RFC 4180, section 2:
      record      = field *(COMMA field)
      field       = escaped / non-escaped
      escaped     = DQUOTE *(TEXTDATA / COMMA / CR / LF / 2DQUOTE) DQUOTE
      non-escaped = *TEXTDATA
    TEXTDATA is read as every byte that is not COMMA, DQUOTE, CR or LF, so
    that payloads outside ASCII are accepted.  A text that is not a record
    of the grammar is refused ([None]). *)

Module Rfc4180.
Import CsvUtils.

Inductive state : Type :=
| FieldStart      (* nothing of the field read yet *)
| NonEscaped      (* inside a field that did not open with DQUOTE *)
| Escaped         (* inside the quotes *)
| QuoteInEscaped. (* a DQUOTE inside the quotes: closing, or half of a pair *)

Definition isStructural (c : ascii) : bool :=
  Ascii.eqb c COMMA || Ascii.eqb c DQUOTE || Ascii.eqb c CR || Ascii.eqb c LF.

(** [field] holds the bytes of the current field in reverse, [fields] the
    finished fields in reverse. *)
Fixpoint scan (st : state) (field : list ascii) (fields : list string)
    (input : string) : option (list string) :=
  let finish := string_of_list_ascii (rev field) :: fields in
  match input with
  | EmptyString =>
      match st with
      | Escaped => None
      | _ => Some (rev finish)
      end
  | String c rest =>
      match st with
      | FieldStart =>
          if Ascii.eqb c DQUOTE then scan Escaped [] fields rest
          else if Ascii.eqb c COMMA then scan FieldStart [] finish rest
          else if isStructural c then None
          else scan NonEscaped [c] fields rest
      | NonEscaped =>
          if Ascii.eqb c COMMA then scan FieldStart [] finish rest
          else if isStructural c then None
          else scan NonEscaped (c :: field) fields rest
      | Escaped =>
          if Ascii.eqb c DQUOTE then scan QuoteInEscaped field fields rest
          else scan Escaped (c :: field) fields rest
      | QuoteInEscaped =>
          if Ascii.eqb c DQUOTE then scan Escaped (c :: field) fields rest
          else if Ascii.eqb c COMMA then scan FieldStart [] finish rest
          else None
      end
  end.

Definition parseRecord (row : string) : option (list string) :=
  scan FieldStart [] [] row.

(** What the reader does once a field [s] is complete and [rest] follows:
    the row ends, or a comma opens the next field. *)
Definition afterField (fields : list string) (s : string) (rest : string)
  : option (list string) :=
  match rest with
  | EmptyString => Some (rev (s :: fields))
  | String _ more => scan FieldStart [] (s :: fields) more
  end.

Definition endsField (rest : string) : Prop :=
  rest = EmptyString \/ exists more, rest = String COMMA more.

End Rfc4180.

(** ** Concrete runs

    Inputs on which the components are evaluated below.  A generation
    worker answers with the path [generateCsvFile] builds for it; a failing
    one reports the message of the file-system error it caught. *)

Module Scenarios.
Import Js TwoStage.

Definition artifactPath (workerId connectionId : Z) : string :=
  ("temp_csv_files/worker_" ++ Json.ofZ workerId ++ "_conn_"
   ++ Json.ofZ connectionId ++ "_1700000000000.csv")%string.

Definition generated (workerId connectionId n : Z) : FileGenerationResult.t :=
  FileGenerationResult.make workerId connectionId
    (artifactPath workerId connectionId) n 7.5%float 1200%float true None.

Definition EACCES : string :=
  "EACCES: permission denied, mkdir 'temp_csv_files'".

Definition notGenerated (workerId connectionId n : Z)
  : FileGenerationResult.t :=
  FileGenerationResult.make workerId connectionId
    (artifactPath workerId connectionId) 0 0%float 3%float false
    (Some EACCES).

Definition loaded (rows : Z) (executionTimeMs : float)
    (workerId connectionId : Z) (filePath : string) : CopyExecutionResult.t :=
  CopyExecutionResult.make workerId connectionId filePath rows 7.5%float
    executionTimeMs true None.

(** A clock that advances by half a second between two readings. *)
Definition steadyClock (k : nat) : float :=
  Z2F (1700000000000 + 500 * Z.of_nat k).

Definition isoOf (t : float) : string := "2023-11-14T22:13:20.000Z".

Definition environment
    (gen : Z -> Z -> Z -> FileGenerationResult.t)
    (copy : nat -> Z -> Z -> string -> CopyExecutionResult.t) : Environment :=
  mkEnvironment steadyClock isoOf
    (fun workerId connectionId n => Resolved (gen workerId connectionId n))
    (fun p workerId connectionId filePath =>
       Resolved (copy p workerId connectionId filePath)).

Definition configOf (workers connections dataSizeMB : Z) : BenchmarkConfig.t :=
  BenchmarkConfig.make workers 4 1 connections 100 30 5 dataSizeMB true.

(** One worker with one connection; the artifact holds 100 rows. *)
Definition oneArtifactConfig : BenchmarkConfig.t := configOf 1 1 100.

Definition oneArtifactCopy : nat -> Z -> Z -> string -> CopyExecutionResult.t :=
  fun _ => loaded 100 480%float.

Definition oneArtifact : Environment := environment generated oneArtifactCopy.

(** One worker with two connections; the two loads take 100 ms and
    300 ms. *)
Definition twoArtifactsConfig : BenchmarkConfig.t := configOf 1 2 100.

Definition twoArtifactsCopy : nat -> Z -> Z -> string -> CopyExecutionResult.t :=
  fun _ workerId connectionId =>
    loaded 682 (if connectionId =? 0 then 100%float else 300%float)
           workerId connectionId.

Definition twoArtifacts : Environment :=
  environment generated twoArtifactsCopy.

(** Two workers with five connections each; the first three connections of
    worker 0 cannot create the staging directory; every load succeeds. *)
Definition threeOfTenConfig : BenchmarkConfig.t := configOf 2 5 100.

Definition threeOfTenGen (workerId connectionId n : Z)
  : FileGenerationResult.t :=
  if (workerId =? 0) && (connectionId <? 3)
  then notGenerated workerId connectionId n
  else generated workerId connectionId n.

Definition threeOfTenCopy : nat -> Z -> Z -> string -> CopyExecutionResult.t :=
  fun _ => loaded 136 250%float.

Definition threeOfTen : Environment :=
  environment threeOfTenGen threeOfTenCopy.

(** No generation worker can write. *)
Definition noArtifact : Environment :=
  environment notGenerated threeOfTenCopy.

(** An insert worker that measured two batch inserts, of 300 ms and of
    100 ms, and its statistics. *)
Definition twoInserts : list BenchmarkWorker.LatencyMeasurement :=
  [BenchmarkWorker.mkMeasurement 0%float 300%float 300%float true None;
   BenchmarkWorker.mkMeasurement 300%float 400%float 100%float true None].

Definition twoInsertsWorker : BenchmarkWorker.WorkerResult :=
  BenchmarkWorker.calculateStatistics 0 0 200 15%float 0%float 60000%float
    twoInserts [].

(** The draws of one generated record: a target of 50 KB and a supply of
    sixty fillers with five array items each. *)
Definition sampleUuid : string := "123e4567-e89b-42d3-a456-426614174000".

Definition sampleInstant : string := "2023-11-14T22:13:20.000Z".

Definition sampleBase : DataGenerator.BaseDraws :=
  DataGenerator.mkBaseDraws sampleInstant sampleUuid 42 "1234.5" "99.25"
    "50.5" 7 3.

Definition sampleItem : DataGenerator.ItemDraws :=
  DataGenerator.mkItemDraws sampleUuid "12.5" 7 "ff00aa" 10 "2.5" true.

Definition sampleFiller (fieldNo : Z) : DataGenerator.FillerDraws :=
  DataGenerator.mkFillerDraws fieldNo sampleUuid "500.5" 12 [1; 2; 3] 99
    sampleInstant sampleUuid
    [sampleItem; sampleItem; sampleItem; sampleItem; sampleItem].

Definition sampleFillers : list DataGenerator.FillerDraws :=
  map sampleFiller (range 60).

Definition sampleRecordDraws : DataGenerator.RecordDraws :=
  DataGenerator.mkRecordDraws 0 sampleBase sampleFillers 0 sampleUuid 3 7
    false false None true None (Some 5) None None None false.

(** Two records as the writer receives them.  The text of both holds
    commas, quotes and line feeds; the name of the second holds a bare
    carriage return. *)
Definition sampleText : string :=
  Json.stringify
    (Json.JObject
       [("title", Json.JString "Headphones, wireless");
        ("sizes", Json.JArray [Json.JInt 1; Json.JInt 2])]).

Definition plainRecord : CapturedText.t :=
  CapturedText.make sampleUuid 3 "field_7" sampleText false false None true
    None (Some 5) None None None None "innerText".

Definition carriageReturnRecord : CapturedText.t :=
  CapturedText.make sampleUuid 3
    ("first line" ++ String CsvUtils.CR "second line")%string
    sampleText false false None true None (Some 5) None None None None
    "innerText".

End Scenarios.

(** ** Further readings of a coordinator trace *)

Module TwoStageTrace.
Import Js TwoStage.

(** The paths handed to [cleanupFiles], in order. *)
Fixpoint cleanedFiles (tr : list Event) : list string :=
  match tr with
  | [] => []
  | CleanupFile path :: tr' => path :: cleanedFiles tr'
  | _ :: tr' => cleanedFiles tr'
  end.

(** The promises seen settled, in order. *)
Fixpoint settledPids (tr : list Event) : list nat :=
  match tr with
  | [] => []
  | Settled p :: tr' => p :: settledPids tr'
  | _ :: tr' => settledPids tr'
  end.

(** The workers spawned in a trace, each with the promise it is behind, in
    order. *)
Fixpoint spawnedWorkers (tr : list Event) : list (nat * Call) :=
  match tr with
  | [] => []
  | Spawned p c :: tr' => (p, c) :: spawnedWorkers tr'
  | _ :: tr' => spawnedWorkers tr'
  end.

(** [calls] behind the promises numbered from [p] on. *)
Definition numbered (p : nat) (calls : list Call) : list (nat * Call) :=
  combine (seq p (length calls)) calls.

Definition rejected {A : Type} (p : Promise A) : bool :=
  match outcome p with
  | Rejected _ => true
  | Resolved _ => false
  end.

(** A stretch of trace in which no worker is spawned and no file is handed
    to cleanup. *)
Definition onlyAwaits (tr : list Event) : Prop :=
  spawnedCalls tr = [] /\ cleanedFiles tr = [].

(** A computation that hands no file to cleanup. *)
Definition leavesFiles {A : Type} (m : M A) : Prop :=
  forall w, exists tr,
    trace (snd (m w)) = trace w ++ tr /\ cleanedFiles tr = [].

End TwoStageTrace.

(** ** The high-throughput variant ([optimized-two-stage.ts]) *)

Module HighThroughput.
Import Js TwoStage.
Local Open Scope coordinator_scope.

(** [HighThroughputConfig extends BenchmarkConfig]: the fields of the base
    interface, and five optional ones. *)
Record HighThroughputConfig : Type := mkConfig {
  base : BenchmarkConfig.t;
  maxConcurrentCopies : option Z;
  enableRealtimeStats : option bool;
  statsPrintInterval : option Z;
  targetThroughputMBps : option float;
  adaptiveBatchSizing : option bool
}.

Record OptimizationStats : Type := mkStats {
  configuredConcurrency : Z;
  connectionPoolSize : Z
}.

(** [n || d] on an optional integer: [undefined] and [0] give the
    default. *)
Definition orNumber (n : option Z) (d : Z) : Z :=
  match n with
  | None | Some 0 => d
  | Some z => z
  end.

(** [b ?? d] *)
Definition orNullish (b : option bool) (d : bool) : bool :=
  match b with
  | Some x => x
  | None => d
  end.

(** The object [optimizedConfig]. *)
Definition optimize (config : HighThroughputConfig) : HighThroughputConfig :=
  mkConfig
    (base config)
    (Some (orNumber (maxConcurrentCopies config)
             (Z.min 20
                (BenchmarkConfig.minWorkers (base config)
                 * BenchmarkConfig.connectionsPerWorker (base config)))))
    (Some (orNullish (enableRealtimeStats config) true))
    (Some (orNumber (statsPrintInterval config) 3000))
    (targetThroughputMBps config)
    (adaptiveBatchSizing config).

(** [runTwoStageBenchmark] receives [optimizedConfig] and reads the fields
    of [BenchmarkConfig] in it. *)
Definition runHighThroughputBenchmark (env : Environment)
    (config : HighThroughputConfig)
  : M (BenchmarkResult.t * OptimizationStats) :=
  let optimizedConfig := optimize config in
  result <- runTwoStageBenchmark env (base optimizedConfig) ;;
  let optimizationStats :=
    mkStats
      (orNumber (maxConcurrentCopies optimizedConfig) 0)
      (Z.max 20
         (BenchmarkConfig.minWorkers (base optimizedConfig)
          * BenchmarkConfig.connectionsPerWorker (base optimizedConfig)
          * 2)) in
  ret (result, optimizationStats).

End HighThroughput.

(** ** The connection factory ([database.ts])

    [BenchmarkConfig] also carries the coordinates of the database; they
    are read here and nowhere else, and are kept in a record of their own.
    The function returns a Knex instance; the embedding returns the options
    it is built from. *)

Module Database.

Record Coordinates : Type := mkCoordinates {
  host : string;
  port : Z;
  database : string;
  username : string;
  password : string;
  ssl : option bool
}.

Record PoolOptions : Type := mkPool {
  min : Z;
  max : Z;
  acquireTimeoutMillis : Z;
  createTimeoutMillis : Z;
  createRetryIntervalMillis : Z;
  propagateCreateError : bool;
  idleTimeoutMillis : Z;
  reapIntervalMillis : Z
}.

Record KnexOptions : Type := mkOptions {
  client : string;
  connectionString : string;
  (* [ssl: { rejectUnauthorized: false }] or [undefined] *)
  sslRejectUnauthorized : option bool;
  debug : bool;
  pool : PoolOptions
}.

Definition createAuroraLimitlessConnection (db : Coordinates)
    (config : BenchmarkConfig.t) : KnexOptions :=
  let connectionString :=
    ("postgresql://" ++ username db
     ++ (if Js.truthy (password db) then ":" ++ password db
         else EmptyString)
     ++ "@" ++ host db ++ ":" ++ Json.ofZ (port db) ++ "/" ++ database db
    )%string in
  mkOptions "pg" connectionString
    (match ssl db with Some true => Some false | _ => None end)
    false
    (mkPool
       (Z.min 5 (BenchmarkConfig.connectionsPerWorker config))
       (Z.max 20 (BenchmarkConfig.connectionsPerWorker config * 2))
       10000 3000 200 false 30000 1000).

End Database.

(** ** A reader for a file of records

    A staged file is a sequence of records, each closed by a line feed, as
    [generateCsvFile] writes them; a line feed inside quotes belongs to the
    field.  The file is cut into records first, and each record is then
    read by the reader of RFC 4180 above.  The last record may lack its
    line feed (RFC 4180, section 2, rule 2). *)

Module CsvFile.
Import CsvUtils.

(** [line] holds the bytes of the current record in reverse; [quoted]
    tells whether an odd number of quotes has been read in it. *)
Fixpoint splitRecords (quoted : bool) (line : list ascii) (input : string)
  : list string :=
  match input with
  | EmptyString =>
      match line with
      | [] => []
      | _ :: _ => [string_of_list_ascii (rev line)]
      end
  | String c rest =>
      if Ascii.eqb c DQUOTE then splitRecords (negb quoted) (c :: line) rest
      else if Ascii.eqb c LF && negb quoted
      then string_of_list_ascii (rev line) :: splitRecords false [] rest
      else splitRecords quoted (c :: line) rest
  end.

Fixpoint traverse {A B : Type} (f : A -> option B) (xs : list A)
  : option (list B) :=
  match xs with
  | [] => Some []
  | x :: rest =>
      match f x, traverse f rest with
      | Some y, Some ys => Some (y :: ys)
      | _, _ => None
      end
  end.

Definition parseFile (content : string) : option (list (list string)) :=
  traverse Rfc4180.parseRecord (splitRecords false [] content).

(** The quoting state after [text], read from the state [quoted]; [None]
    when a line feed outside quotes ends the record inside [text]. *)
Fixpoint quoteState (quoted : bool) (text : string) : option bool :=
  match text with
  | EmptyString => Some quoted
  | String c rest =>
      if Ascii.eqb c DQUOTE then quoteState (negb quoted) rest
      else if Ascii.eqb c LF && negb quoted then None
      else quoteState quoted rest
  end.

End CsvFile.

(** ** The staging files ([csv-utils.ts], file functions)

    The file system is a map from absolute paths to entries; a relative
    path is taken from the working directory of the process.  Paths are
    those [path.join] returns: no trailing slash, no doubled slash, no [.]
    or [..] segment.  What the operating system may refuse is given by
    [Faults]. *)

Module StagedFiles.
Import Js CsvUtils.

Inductive Entry : Type :=
| File (content : string)
| Directory (size : Z).

Record Disk : Type := mkDisk {
  cwd : string;
  entries : string -> option Entry
}.

(** A call that returns or throws an [Error] with a message. *)
Inductive Result (A : Type) : Type :=
| Ok (a : A)
| Throws (message : string).
Arguments Ok {A} a.
Arguments Throws {A} message.

(** The fate of a write stream after [end()]. *)
Inductive StreamFate : Type :=
| Finishes
| FailsToOpen (message : string)
| FailsAfter (written : nat) (message : string).

Record Faults : Type := mkFaults {
  mkdirError : string -> option string;
  directorySize : Z;
  streamFate : string -> StreamFate;
  unlinkError : string -> option string
}.

Definition isAbsolute (p : string) : bool :=
  match p with
  | String c _ => Ascii.eqb c "/"
  | EmptyString => false
  end.

(** [path.resolve(p)] *)
Definition resolve (disk : Disk) (p : string) : string :=
  if isAbsolute p then p else (cwd disk ++ "/" ++ p)%string.

Definition lookup (disk : Disk) (p : string) : option Entry :=
  entries disk (resolve disk p).

Definition store (disk : Disk) (p : string) (e : option Entry) : Disk :=
  mkDisk (cwd disk)
    (fun q => if String.eqb q (resolve disk p) then e else entries disk q).

(** The part of a path before its last slash. *)
Fixpoint beforeLastSlash (p : string) : option string :=
  match p with
  | EmptyString => None
  | String c rest =>
      match beforeLastSlash rest with
      | Some d => Some (String c d)
      | None => if Ascii.eqb c "/" then Some EmptyString else None
      end
  end.

(** [path.dirname(p)] *)
Definition dirname (p : string) : string :=
  match beforeLastSlash p with
  | None => "."
  | Some EmptyString => "/"
  | Some (String c d) => String c d
  end.

Definition existsSync (disk : Disk) (p : string) : bool :=
  match lookup disk p with
  | Some _ => true
  | None => false
  end.

(** [fs.mkdirSync(dir, { recursive: true })]: the directory and those of
    its ancestors that are missing. *)
Definition mkdirSync (faults : Faults) (disk : Disk) (dir : string)
  : Result Disk :=
  match mkdirError faults (resolve disk dir) with
  | Some message => Throws message
  | None =>
      let target := resolve disk dir in
      Ok (mkDisk (cwd disk)
            (fun q =>
               match entries disk q with
               | Some e => Some e
               | None =>
                   if String.eqb q target
                      || (isAbsolute q && String.prefix (q ++ "/") target)
                   then Some (Directory (directorySize faults))
                   else None
               end))
  end.

(** A write stream: the file it will create and the chunks written to it
    so far, oldest first. *)
Record WriteStream : Type := mkStream {
  streamPath : string;
  chunks : list string
}.

Definition write (stream : WriteStream) (chunk : string) : WriteStream :=
  mkStream (streamPath stream) (chunks stream ++ [chunk]).

Definition written (stream : WriteStream) : string :=
  String.concat EmptyString (chunks stream).

Definition createCsvFile (faults : Faults) (disk : Disk) (filePath : string)
  : Result (Disk * WriteStream) :=
  let dir := dirname filePath in
  let made :=
    if negb (existsSync disk dir) then mkdirSync faults disk dir
    else Ok disk in
  match made with
  | Throws message => Throws message
  | Ok disk' =>
      let stream := mkStream filePath [] in
      Ok (disk', write stream (CSV_HEADERS ++ String LF EmptyString))
  end.

(** [stream.end()] and the event that follows it: [finish], or [error]
    with its message.  A stream that fails after it was opened leaves the
    bytes that reached the disk. *)
Definition finish (faults : Faults) (disk : Disk) (stream : WriteStream)
  : Disk * option string :=
  match streamFate faults (resolve disk (streamPath stream)) with
  | Finishes =>
      (store disk (streamPath stream) (Some (File (written stream))), None)
  | FailsToOpen message => (disk, Some message)
  | FailsAfter n message =>
      (store disk (streamPath stream)
         (Some (File (substring 0 n (written stream)))),
       Some message)
  end.

Definition statSync (disk : Disk) (p : string) : Result Z :=
  match lookup disk p with
  | Some (File content) => Ok (Z.of_nat (String.length content))
  | Some (Directory size) => Ok size
  | None =>
      Throws ("ENOENT: no such file or directory, stat '" ++ p ++ "'")
  end.

Definition calculateFileSizeMB (disk : Disk) (filePath : string)
  : Result float :=
  match statSync disk filePath with
  | Ok size => Ok (Z2F size / Z2F (1024 * 1024))%float
  | Throws message => Throws message
  end.

Definition unlinkSync (faults : Faults) (disk : Disk) (p : string)
  : Result Disk :=
  match lookup disk p with
  | None =>
      Throws ("ENOENT: no such file or directory, unlink '" ++ p ++ "'")
  | Some (Directory _) =>
      Throws ("EISDIR: illegal operation on a directory, unlink '"
              ++ p ++ "'")
  | Some (File _) =>
      match unlinkError faults (resolve disk p) with
      | Some message => Throws message
      | None => Ok (store disk p None)
      end
  end.

(** [console.warn] is not modelled: a caught error leaves the disk as it
    is and the loop goes on. *)
Fixpoint cleanupFiles (faults : Faults) (disk : Disk)
    (filePaths : list string) : Disk :=
  match filePaths with
  | [] => disk
  | filePath :: rest =>
      let disk' :=
        if existsSync disk filePath then
          match unlinkSync faults disk filePath with
          | Ok d => d
          | Throws _ => disk
          end
        else disk in
      cleanupFiles faults disk' rest
  end.

End StagedFiles.

(** ** The two stages of a worker ([two-stage-worker.ts])

    [Date.now()] is read twice by each function: on entry, and when the
    result is built.  The two readings are parameters.  The records
    [generateCapturedText] draws are given as the sequence [records]. *)

Module TwoStageWorker.
Import Js CsvUtils StagedFiles.

(** [path.join("./temp_csv_files", fileName)] *)
Definition artifactPath (workerId connectionId startTime : Z) : string :=
  ("temp_csv_files/" ++ "worker_" ++ Json.ofZ workerId ++ "_conn_"
   ++ Json.ofZ connectionId ++ "_" ++ Json.ofZ startTime ++ ".csv")%string.

(** The loop of [generateCsvFile]: [count] iterations are left, [i] is the
    loop variable. *)
Fixpoint writeRecords (records : nat -> CapturedText.t) (count i : nat)
    (csvStream : WriteStream) (recordsGenerated : Z) : WriteStream * Z :=
  match count with
  | O => (csvStream, recordsGenerated)
  | S count' =>
      let record := records i in
      let csvRow := convertToCsvRow record in
      writeRecords records count' (S i)
        (write csvStream (csvRow ++ String LF EmptyString))
        (recordsGenerated + 1)
  end.

Definition generateCsvFile (faults : Faults) (disk : Disk)
    (startTime endTime : Z) (records : nat -> CapturedText.t)
    (workerId connectionId recordCount : Z)
  : FileGenerationResult.t * Disk :=
  let filePath := artifactPath workerId connectionId startTime in
  let caught (message : string) :=
    FileGenerationResult.make workerId connectionId filePath 0 0%float
      (Z2F (endTime - startTime)) false (Some message) in
  match createCsvFile faults disk filePath with
  | Throws message => (caught message, disk)
  | Ok (disk1, csvStream) =>
      let (csvStream', recordsGenerated) :=
        writeRecords records (Z.to_nat recordCount) 0 csvStream 0 in
      match finish faults disk1 csvStream' with
      | (disk2, Some message) => (caught message, disk2)
      | (disk2, None) =>
          match calculateFileSizeMB disk2 filePath with
          | Throws message => (caught message, disk2)
          | Ok fileSizeMB =>
              (FileGenerationResult.make workerId connectionId filePath
                 recordsGenerated fileSizeMB (Z2F (endTime - startTime))
                 true None,
               disk2)
          end
      end
  end.

(** The rows of the first [n] records, as the loop writes them, and the
    content of a complete file. *)
Definition rowsOf (records : nat -> CapturedText.t) (i n : nat)
  : list string :=
  map (fun j => (convertToCsvRow (records j) ++ String LF EmptyString)%string)
      (seq i n).

Definition stagedContent (records : nat -> CapturedText.t) (n : nat)
  : string :=
  String.concat EmptyString
    ((CSV_HEADERS ++ String LF EmptyString)%string :: rowsOf records 0 n).

(** What the database answers. *)
Inductive CopyOutcome : Type :=
| Copied (rowCount : option Z)
| CopyFailed (message : string).

Record Server : Type := mkServer {
  acquireConnection : option string;       (* the error, if it fails *)
  copyFrom : string -> CopyOutcome;        (* COPY ... FROM STDIN *)
  destroy : option string                  (* the error, if it fails *)
}.

(** What the function does to the connection pool, in order. *)
Inductive PoolEvent : Type :=
| Created (options : Database.KnexOptions)
| Acquired
| Released
| Destroyed.

(** The bytes a read stream of [absoluteFilePath] delivers, or its
    error. *)
Definition readStream (disk : Disk) (absoluteFilePath : string)
  : Result string :=
  match lookup disk absoluteFilePath with
  | Some (File content) => Ok content
  | Some (Directory _) =>
      Throws "EISDIR: illegal operation on a directory, read"
  | None =>
      Throws ("ENOENT: no such file or directory, open '"
              ++ absoluteFilePath ++ "'")
  end.

(** The function returns a result, or rejects when [db.destroy()] in the
    outer [finally] fails. *)
Definition executeCopyCommand (server : Server) (disk : Disk)
    (startTime endTime : Z) (db : Database.Coordinates)
    (config : BenchmarkConfig.t) (workerId connectionId : Z)
    (filePath : string)
  : Result CopyExecutionResult.t * list PoolEvent :=
  let options := Database.createAuroraLimitlessConnection db config in
  let caught (message : string) :=
    CopyExecutionResult.make workerId connectionId filePath 0 0%float
      (Z2F (endTime - startTime)) false (Some message) in
  let absoluteFilePath := resolve disk filePath in
  let (answer, events) :=
    match calculateFileSizeMB disk absoluteFilePath with
    | Throws message => (caught message, [Created options])
    | Ok fileSizeMB =>
        match acquireConnection server with
        | Some message => (caught message, [Created options])
        | None =>
            let streamed :=
              match readStream disk absoluteFilePath with
              | Ok content => copyFrom server content
              | Throws message => CopyFailed message
              end in
            match streamed with
            | CopyFailed message =>
                (caught message, [Created options; Acquired; Released])
            | Copied rowCount =>
                let recordsInserted :=
                  match rowCount with
                  | Some n => n
                  | None => 0
                  end in
                (CopyExecutionResult.make workerId connectionId filePath
                   recordsInserted fileSizeMB (Z2F (endTime - startTime))
                   true None,
                 [Created options; Acquired; Released])
            end
        end
    end in
  match destroy server with
  | Some message => (Throws message, events ++ [Destroyed])
  | None => (Ok answer, events ++ [Destroyed])
  end.

(** The worker thread in stage [copy]: the result it posts to the
    coordinator. *)
Definition copyStage (server : Server) (disk : Disk)
    (startTime endTime : Z) (db : Database.Coordinates)
    (config : BenchmarkConfig.t) (workerId connectionId : Z)
    (filePath : string) : CopyExecutionResult.t :=
  match fst (executeCopyCommand server disk startTime endTime db config
               workerId connectionId filePath) with
  | Ok result => result
  | Throws message =>
      CopyExecutionResult.make workerId connectionId filePath 0 0%float
        0%float false (Some message)
  end.

End TwoStageWorker.

(** ** Further concrete runs *)

Module FurtherScenarios.
Import Js TwoStage.

(** The message [runFileGeneration] and [runCopyExecution] reject with
    when their worker exits with code 1. *)
Definition exitCode1 : string := "Worker stopped with exit code 1".

(** The generation worker of connection 1 exits with code 1. *)
Definition generationWorkerExits : Environment :=
  mkEnvironment Scenarios.steadyClock Scenarios.isoOf
    (fun workerId connectionId n =>
       if connectionId =? 1 then Rejected exitCode1
       else Resolved (Scenarios.generated workerId connectionId n))
    (fun p workerId connectionId filePath =>
       Resolved (Scenarios.twoArtifactsCopy p workerId connectionId filePath)).

(** The Bulk Loader worker of connection 1 exits with code 1. *)
Definition loaderWorkerExits : Environment :=
  mkEnvironment Scenarios.steadyClock Scenarios.isoOf
    (fun workerId connectionId n =>
       Resolved (Scenarios.generated workerId connectionId n))
    (fun p workerId connectionId filePath =>
       if connectionId =? 1 then Rejected exitCode1
       else Resolved
              (Scenarios.twoArtifactsCopy p workerId connectionId filePath)).

(** Three workers with four connections each: twelve artifacts, loaded in
    batches of ten and two. *)
Definition twelveArtifactsConfig : BenchmarkConfig.t :=
  Scenarios.configOf 3 4 100.

Definition twelveArtifacts : Environment :=
  Scenarios.environment Scenarios.generated Scenarios.threeOfTenCopy.

(** The Bulk Loader fails on the artifact of connection 1. *)
Definition notLoaded (workerId connectionId : Z) (filePath : string)
  : CopyExecutionResult.t :=
  CopyExecutionResult.make workerId connectionId filePath 0 0%float
    35%float false (Some "connection terminated unexpectedly").

Definition oneLoadFailsCopy
  : nat -> Z -> Z -> string -> CopyExecutionResult.t :=
  fun p workerId connectionId filePath =>
    if connectionId =? 1 then notLoaded workerId connectionId filePath
    else Scenarios.twoArtifactsCopy p workerId connectionId filePath.

Definition oneLoadFails : Environment :=
  Scenarios.environment Scenarios.generated oneLoadFailsCopy.

End FurtherScenarios.

Module HighThroughputScenarios.

(** The run of [Scenarios.twoArtifacts], asked to run one copy at a
    time. *)
Definition oneAtATime : HighThroughput.HighThroughputConfig :=
  HighThroughput.mkConfig Scenarios.twoArtifactsConfig (Some 1) None None
    None None.

End HighThroughputScenarios.

(** ** Concrete disks, faults and servers *)

Module WorkerScenarios.
Import StagedFiles TwoStageWorker.

Definition emptyDisk : Disk := mkDisk "/srv/benchmark" (fun _ => None).

Definition noFaults : Faults :=
  mkFaults (fun _ => None) 4096 (fun _ => Finishes) (fun _ => None).

(** The device is full after 100 bytes of a file. *)
Definition ENOSPC : string := "ENOSPC: no space left on device, write".

Definition deviceFull : Faults :=
  mkFaults (fun _ => None) 4096 (fun _ => FailsAfter 100 ENOSPC)
    (fun _ => None).

(** Files can be written and not removed. *)
Definition EPERM : string := "EPERM: operation not permitted, unlink".

Definition undeletable : Faults :=
  mkFaults (fun _ => None) 4096 (fun _ => Finishes) (fun _ => Some EPERM).

(** The records of a file: [Scenarios.plainRecord] at every index. *)
Definition plainRecords (i : nat) : CapturedText.t := Scenarios.plainRecord.

(** Worker 0, connection 1, two records, started at 1700000000000. *)
Definition staged (faults : Faults) : FileGenerationResult.t * Disk :=
  generateCsvFile faults emptyDisk 1700000000000 1700000000250
    plainRecords 0 1 2.

Definition coordinates : Database.Coordinates :=
  Database.mkCoordinates "localhost" 5432 "benchmark" "postgres"
    EmptyString None.

(** A server that reads the file and counts the records after the
    header; a file it cannot read is refused. *)
Definition counting : Server :=
  mkServer None
    (fun content =>
       match CsvFile.parseFile content with
       | Some (_ :: rows) => Copied (Some (Z.of_nat (length rows)))
       | _ => CopyFailed "invalid CSV"
       end)
    None.

(** A server whose stream ends without a row count. *)
Definition silent : Server :=
  mkServer None (fun _ => Copied None) None.

(** A server that drops the connection during the copy. *)
Definition dropping : Server :=
  mkServer None
    (fun _ => CopyFailed "Connection terminated unexpectedly") None.

(** A server that accepts no connection. *)
Definition refusing : Server :=
  mkServer (Some "connect ECONNREFUSED 127.0.0.1:5432")
    (fun _ => Copied (Some 0)) None.

End WorkerScenarios.

(** ** Draws that print without a carriage return

    [uuidv4()] returns hexadecimal digits and dashes, and the literal of a
    number holds digits, a sign, a point and an exponent.  What the
    properties below need of them is less: no carriage return. *)

Module PrintableDraws.
Import Json DataGenerator.

Definition noCR (s : string) : bool :=
  negb (CsvUtils.includes CsvUtils.CR s).

Definition noCRopt (o : option string) : bool :=
  match o with
  | Some s => noCR s
  | None => true
  end.

Definition itemPrintable (d : ItemDraws) : bool :=
  noCR (item_score d) && noCR (item_weight d).

Definition fillerPrintable (d : FillerDraws) : bool :=
  noCR (filler_value d) && forallb itemPrintable (filler_arrayData d).

Definition basePrintable (d : BaseDraws) : bool :=
  noCR (base_pageLoadTime d) && noCR (base_timeOnPage d)
  && noCR (base_scrollDepth d).

Definition printable (d : RecordDraws) : bool :=
  basePrintable (draw_base d)
  && forallb fillerPrintable (draw_fillers d)
  && noCR (draw_taskId d)
  && noCRopt (draw_comparedToTextId d)
  && noCRopt (draw_listId d)
  && noCRopt (draw_attachmentUuid d).

(** The number literals of a document, which [JSON.stringify] prints as
    they are. *)
Fixpoint literalsPrintable (v : value) : bool :=
  match v with
  | JNumber literal => noCR literal
  | JArray items => forallb literalsPrintable items
  | JObject members =>
      forallb (fun member => literalsPrintable (snd member)) members
  | JNull | JBool _ | JString _ => true
  end.

Definition membersPrintable (members : list (string * value)) : bool :=
  forallb (fun member => literalsPrintable (snd member)) members.

End PrintableDraws.

(** ** The insert worker's loops ([benchmark-worker.ts], [runBenchmark])

    The worker thread reads the clock and inserts batches until the
    warm-up time has passed, and again until the test time has passed.  The
    environment gives the clock readings in order, the outcome of each
    insert and the size [calculateDataSizeMB] finds for each batch.  A loop
    ends when the clock says so; [fuel] bounds the number of turns the
    embedding follows, and [None] is a run cut short by it. *)

Module InsertWorker.
Import Js BenchmarkWorker.

Record Environment : Type := mkEnvironment {
  clock : nat -> float;               (* the k-th reading of [Date.now()] *)
  insert : nat -> option string;      (* the error of the k-th insert *)
  batchDataSizeMB : nat -> float      (* the size of the k-th batch *)
}.

Record State : Type := mkState {
  ticks : nat;                        (* clock readings so far *)
  inserts : nat;                      (* inserts so far *)
  measurements : list LatencyMeasurement;
  errors : list string;
  recordsInserted : Z;
  totalDataSizeMB : float
}.

(** The body of either loop.  [batch.length] is [batchSize], the number of
    turns of the loop in [generateBatch]. *)
Definition insertBatch (env : Environment) (config : BenchmarkConfig.t)
    (s : State) : State :=
  let batchLength := Z.of_nat (Z.to_nat (BenchmarkConfig.batchSize config)) in
  let batchStart := clock env (ticks s) in
  let batchEnd := clock env (S (ticks s)) in
  let latency := PrimFloat.sub batchEnd batchStart in
  match insert env (inserts s) with
  | None =>
      mkState (S (S (ticks s))) (S (inserts s))
        (measurements s
         ++ [mkMeasurement batchStart batchEnd latency true None])
        (errors s)
        (recordsInserted s + batchLength)
        (PrimFloat.add (totalDataSizeMB s)
                       (batchDataSizeMB env (inserts s)))
  | Some message =>
      mkState (S (S (ticks s))) (S (inserts s))
        (measurements s
         ++ [mkMeasurement batchStart batchEnd latency false (Some message)])
        (errors s ++ [message])
        (recordsInserted s)
        (totalDataSizeMB s)
  end.

(** [while (Date.now() - phaseStart < seconds * 1000) { ... }] *)
Fixpoint phase (fuel : nat) (env : Environment) (config : BenchmarkConfig.t)
    (phaseStart : float) (seconds : Z) (s : State) : option State :=
  match fuel with
  | O => None
  | S fuel' =>
      let now := clock env (ticks s) in
      let s' :=
        mkState (S (ticks s)) (inserts s) (measurements s) (errors s)
          (recordsInserted s) (totalDataSizeMB s) in
      if PrimFloat.ltb (PrimFloat.sub now phaseStart) (Z2F (seconds * 1000))
      then phase fuel' env config phaseStart seconds
             (insertBatch env config s')
      else Some s'
  end.

(** The state after the warm-up loop: [startTime] and [warmupStart] are
    readings 0 and 1. *)
Definition warmup (fuel : nat) (env : Environment)
    (config : BenchmarkConfig.t) : option State :=
  phase fuel env config (clock env 1)
    (BenchmarkConfig.warmupDuration config)
    (mkState 2 0 [] [] 0 PrimFloat.zero).

(** The state after both loops. *)
Definition loops (fuel : nat) (env : Environment)
    (config : BenchmarkConfig.t) : option State :=
  match warmup fuel env config with
  | None => None
  | Some s =>
      let benchmarkStart := clock env (ticks s) in
      phase fuel env config benchmarkStart
        (BenchmarkConfig.testDuration config)
        (mkState (S (ticks s)) (inserts s) (measurements s) (errors s)
           (recordsInserted s) (totalDataSizeMB s))
  end.

Definition runBenchmark (fuel : nat) (env : Environment)
    (config : BenchmarkConfig.t) (workerId connectionId : Z)
  : option WorkerResult :=
  match loops fuel env config with
  | None => None
  | Some s =>
      let startTime := clock env 0 in
      let endTime := clock env (ticks s) in
      Some (calculateStatistics workerId connectionId (recordsInserted s)
              (totalDataSizeMB s) startTime endTime (measurements s)
              (errors s))
  end.

(** What the loops keep true of the state. *)
Definition consistent (config : BenchmarkConfig.t) (s : State) : Prop :=
  length (measurements s) = inserts s
  /\ recordsInserted s
     = Z.of_nat (Z.to_nat (BenchmarkConfig.batchSize config))
       * Z.of_nat (length (filter success (measurements s)))
  /\ length (errors s)
     = length (filter (fun m => negb (success m)) (measurements s)).

End InsertWorker.

Module InsertWorkerScenarios.
Import InsertWorker.

(** A clock that advances by 400 ms from one reading to the next, a
    database that refuses every third insert, a warm-up of one second and a
    test of two seconds with batches of 100 records. *)
Definition every400ms (k : nat) : float :=
  Js.Z2F (1700000000000 + 400 * Z.of_nat k).

Definition thirdFails (k : nat) : option string :=
  if (k mod 3 =? 2)%nat then Some "deadlock detected" else None.

Definition environment : Environment :=
  mkEnvironment every400ms thirdFails (fun _ => 7.5%float).

Definition config : BenchmarkConfig.t :=
  BenchmarkConfig.make 1 4 1 1 100 2 1 100 false.

End InsertWorkerScenarios.

(** ** The streaming benchmark ([simple-streaming-benchmark.ts])

    Every connection has a worker of its own; the workers run interleaved
    on one thread.  The environment gives the readings of
    [performance.now()] of the coordinator and of each worker, and the
    outcome of each query.  [console] output is not modelled. *)

Module Streaming.
Import Js.

Record WorkerResult : Type := mkWorkerResult {
  workerId : Z;
  successfulInserts : Z;
  failedInserts : Z;
  latencies : list float;
  errors : list string;
  duration : float
}.

Record Environment : Type := mkEnvironment {
  now : nat -> float;                 (* the coordinator's k-th reading *)
  workerNow : Z -> nat -> float;      (* a worker's k-th reading *)
  connect : Z -> option string;       (* the error thrown by
                                         [createAuroraLimitlessConnection]
                                         for the i-th connection *)
  selectOne : Z -> option string;     (* the error of [SELECT 1] *)
  insert : Z -> Z -> option string;   (* the error of a worker's insert of
                                         the batch that starts at [i] *)
  destroy : Z -> option string;       (* the error of [db.destroy()] *)
  spreadLimit : Z;                    (* the most arguments the engine
                                         accepts in one call *)
  toISOString : string                (* [new Date().toISOString()] *)
}.

Record State : Type := mkState {
  ticks : nat;
  inserted : Z;                       (* [successfulInserts] *)
  failed : Z;                         (* [failedInserts] *)
  measured : list float;              (* [latencies] *)
  messages : list string              (* [errors] *)
}.

Definition batchError (workerId i currentBatchSize : Z) (errorMsg : string)
  : string :=
  ("Worker " ++ Json.ofZ workerId ++ " Batch " ++ Json.ofZ i ++ "-"
   ++ Json.ofZ (i + currentBatchSize) ++ ": " ++ errorMsg)%string.

(** [for (let i = 0; i < totalRecords; i += batchSize) { ... }], from the
    value [i] of the loop variable.  [None]: the fuel ended first. *)
Fixpoint insertBatches (fuel : nat) (env : Environment)
    (workerId totalRecords batchSize i : Z) (s : State) : option State :=
  if i <? totalRecords then
    match fuel with
    | O => None
    | S fuel' =>
        let currentBatchSize := Z.min batchSize (totalRecords - i) in
        let batchStartTime := workerNow env workerId (ticks s) in
        let s' :=
          match insert env workerId i with
          | None =>
              let batchEndTime := workerNow env workerId (S (ticks s)) in
              mkState (S (S (ticks s)))
                (inserted s + currentBatchSize) (failed s)
                (measured s
                 ++ [PrimFloat.sub batchEndTime batchStartTime])
                (messages s)
          | Some errorMsg =>
              mkState (S (ticks s))
                (inserted s) (failed s + currentBatchSize)
                (measured s)
                (messages s
                 ++ [batchError workerId i currentBatchSize errorMsg])
          end in
        insertBatches fuel' env workerId totalRecords batchSize
          (i + batchSize) s'
    end
  else Some s.

Definition runStreamingWorker (fuel : nat) (env : Environment)
    (workerId totalRecords batchSize : Z) : option WorkerResult :=
  let workerStartTime := workerNow env workerId 0 in
  match insertBatches fuel env workerId totalRecords batchSize 0
          (mkState 1 0 0 [] []) with
  | None => None
  | Some s =>
      let workerEndTime := workerNow env workerId (ticks s) in
      let workerDuration :=
        PrimFloat.div (PrimFloat.sub workerEndTime workerStartTime)
                      (Z2F 1000) in
      Some (mkWorkerResult workerId (inserted s) (failed s) (measured s)
              (firstn 5 (messages s)) workerDuration)
  end.

(** [Promise.all] over the workers, which never reject. *)
Fixpoint allWorkers (fuel : nat) (env : Environment)
    (indices : list Z) (recordsPerConnection batchSize : Z)
  : option (list WorkerResult) :=
  match indices with
  | [] => Some []
  | index :: rest =>
      match runStreamingWorker fuel env index recordsPerConnection batchSize,
            allWorkers fuel env rest recordsPerConnection batchSize with
      | Some r, Some rs => Some (r :: rs)
      | _, _ => None
      end
  end.

(** [Math.min(...xs)] and [Math.max(...xs)] on numbers that are not NaN. *)
Definition minOf (xs : list float) : float :=
  fold_left (fun m x => if PrimFloat.ltb x m then x else m) xs
            PrimFloat.infinity.

Definition maxOf (xs : list float) : float :=
  fold_left (fun m x => if PrimFloat.ltb m x then x else m) xs
            PrimFloat.neg_infinity.

(** The first error among the connections, in the order of the array.  For
    a [Promise.all] it stands for the rejection that arrives first. *)
Definition firstError (outcome : Z -> option string) (connections : list Z)
  : option string :=
  match flat_map (fun index =>
                    match outcome index with
                    | Some message => [message]
                    | None => []
                    end) connections with
  | message :: _ => Some message
  | [] => None
  end.

(** [Math.min(...xs)] passes every element as an argument of one call; the
    engine refuses a call with more arguments than it has room for. *)
Definition spreadError : string := "Maximum call stack size exceeded".

(** The block under [try]. *)
Definition tryBlock (fuel : nat) (env : Environment)
    (config : BenchmarkConfig.t) (startTime : float) (connections : list Z)
  : option (StagedFiles.Result BenchmarkResult.t) :=
  let batchSize := 50 in
  let workers := BenchmarkConfig.minWorkers config in
  let totalConnections :=
    workers * BenchmarkConfig.connectionsPerWorker config in
  let totalRecords :=
    (BenchmarkConfig.dataSizeMB config * 1024 * 1024) / (75 * 1024) in
  let recordsPerConnection := totalRecords / totalConnections in
  match firstError (selectOne env) connections with
  | Some message => Some (StagedFiles.Throws message)
  | None =>
      match allWorkers fuel env connections recordsPerConnection batchSize
      with
      | None => None
      | Some workerResults =>
          let successfulInserts := sumZ successfulInserts workerResults in
          let failedInserts := sumZ failedInserts workerResults in
          let allErrors := firstn 10 (flat_map errors workerResults) in
          let allLatencies := flat_map latencies workerResults in
          let endTime := now env 1 in
          let duration :=
            PrimFloat.div (PrimFloat.sub endTime startTime) (Z2F 1000) in
          let avgRecordSizeKB := 75 in
          let totalDataSizeMB :=
            PrimFloat.div (Z2F (successfulInserts * avgRecordSizeKB))
                          (Z2F 1024) in
          let avgLatencyMs :=
            match allLatencies with
            | [] => PrimFloat.zero
            | _ :: _ =>
                PrimFloat.div (sumF (fun l => l) allLatencies)
                              (N2F (length allLatencies))
            end in
          let refused :=
            match allLatencies with
            | [] => false
            | _ :: _ => spreadLimit env <? Z.of_nat (length allLatencies)
            end in
          if refused then Some (StagedFiles.Throws spreadError)
          else
          Some (StagedFiles.Ok
            (BenchmarkResult.make (toISOString env) workers
               (BenchmarkConfig.connectionsPerWorker config)
               totalConnections batchSize duration successfulInserts
               totalDataSizeMB
               (PrimFloat.div totalDataSizeMB duration)
               (PrimFloat.div (Z2F successfulInserts) duration)
               avgLatencyMs
               avgLatencyMs
               (PrimFloat.mul avgLatencyMs 1.5%float)
               (PrimFloat.mul avgLatencyMs 2%float)
               (match allLatencies with
                | [] => PrimFloat.zero
                | _ :: _ => minOf allLatencies
                end)
               (match allLatencies with
                | [] => PrimFloat.zero
                | _ :: _ => maxOf allLatencies
                end)
               successfulInserts failedInserts
               (PrimFloat.div (Z2F successfulInserts)
                              (Z2F (successfulInserts + failedInserts)))
               allErrors))
      end
  end.

(** The connections are numbered from 0.  They are created before the
    [try]: an error of the factory ends the run at once, and no connection
    is destroyed.  After the block under [try], however it ends, every
    connection is destroyed; an error there replaces the outcome of the
    block.  [Math.floor] of the two divisions is the quotient of [Z] for
    byte and connection counts below 2^53; with no connection the second
    quotient is not used. *)
Definition runSimpleStreamingBenchmark (fuel : nat) (env : Environment)
    (config : BenchmarkConfig.t)
  : option (StagedFiles.Result BenchmarkResult.t) :=
  let startTime := now env 0 in
  let workers := BenchmarkConfig.minWorkers config in
  let totalConnections :=
    workers * BenchmarkConfig.connectionsPerWorker config in
  let connections := range totalConnections in
  match firstError (connect env) connections with
  | Some message => Some (StagedFiles.Throws message)
  | None =>
      match tryBlock fuel env config startTime connections with
      | None => None
      | Some outcome =>
          match firstError (destroy env) connections with
          | Some message => Some (StagedFiles.Throws message)
          | None => Some outcome
          end
      end
  end.

End Streaming.

Module StreamingScenarios.
Import Streaming.

(** Clocks that advance by 20 ms per reading; the batch of worker 1 that
    starts at record 50 fails.  Every connection is created, tested and
    destroyed without error, and a call takes up to 65536 arguments. *)
Definition every20ms (k : nat) : float := Js.Z2F (20 * Z.of_nat k).

Definition environment : Environment :=
  mkEnvironment every20ms (fun _ => every20ms) (fun _ => None)
    (fun _ => None)
    (fun workerId i =>
       if (workerId =? 1) && (i =? 50) then Some "deadlock detected"
       else None)
    (fun _ => None) 65536
    "2023-11-14T22:13:20.000Z".

(** One worker with two connections and 17 MB of data: 232 records, 116
    per connection. *)
Definition config : BenchmarkConfig.t :=
  BenchmarkConfig.make 1 4 1 2 100 30 5 17 false.

End StreamingScenarios.
(* ================================================================== *)
(** * Part II: properties                                               *)
(* ================================================================== *)

(** ** The coordinator, phase by phase *)

Module TwoStageFacts.
Import Js TwoStage.

(** *** The monad *)

Lemma bind_eq {A B : Type} (m : M A) (k : A -> M B) (w w' : World) (a : A) :
  m w = (Returned a, w') -> bind m k w = k a w'.
Proof. intros H. unfold bind. now rewrite H. Qed.

(** One step along a chain of binds: the computation at its head is
    replaced by its outcome [H]. *)
Tactic Notation "advance" uconstr(H) :=
  rewrite (bind_eq _ _ _ _ _ H); cbv beta.

Lemma world_eta (w : World) :
  mkWorld (nextPid w) (ticks w) (trace w) = w.
Proof. now destruct w. Qed.

(** *** Projections of a trace *)

Lemma spawnedCalls_app (tr1 tr2 : list Event) :
  spawnedCalls (tr1 ++ tr2) = spawnedCalls tr1 ++ spawnedCalls tr2.
Proof.
  induction tr1 as [|e tr1 IH]; [reflexivity|].
  destruct e; cbn; now rewrite IH.
Qed.

Lemma spawnedCalls_spawns (p : nat) (calls : list Call) :
  spawnedCalls (spawns p calls) = calls.
Proof.
  revert p. induction calls as [|c calls IH]; intros p; cbn;
    [reflexivity | now rewrite IH].
Qed.

Lemma spawnedCalls_settles {A : Type} (ps : list (Promise A)) :
  spawnedCalls (settles ps) = [].
Proof. induction ps; cbn; auto. Qed.

Lemma spawnedCalls_cleanup (paths : list string) :
  spawnedCalls (map CleanupFile paths) = [].
Proof. induction paths; cbn; auto. Qed.

Lemma spawns_app (p : nat) (c1 c2 : list Call) :
  spawns p (c1 ++ c2) = spawns p c1 ++ spawns (p + length c1) c2.
Proof.
  revert p. induction c1 as [|c c1 IH]; intros p; cbn.
  - now rewrite Nat.add_0_r.
  - rewrite IH. now rewrite Nat.add_succ_r.
Qed.

Lemma copyInvocations_spawned (tr : list Event) :
  copyInvocations tr = flat_map copyPath (spawnedCalls tr).
Proof.
  induction tr as [|e tr IH]; [reflexivity|].
  destruct e as [p c| | |]; cbn; auto.
  destruct c; cbn; now rewrite IH.
Qed.

Lemma copyPath_generation (n : Z) (units : list (Z * Z)) :
  flat_map copyPath (map (generationCall n) units) = [].
Proof. induction units; cbn; auto. Qed.

Lemma copyPath_copy (gs : list FileGenerationResult.t) :
  flat_map copyPath (map copyCall gs)
  = map FileGenerationResult.filePath gs.
Proof. induction gs; cbn; [|rewrite IHgs]; auto. Qed.

(** *** Spawning *)

Section Phases.
Variable env : Environment.
Variable config : BenchmarkConfig.t.

Lemma mapM_runCopyExecution (gs : list FileGenerationResult.t) (w : World) :
  mapM (fun genResult =>
          runCopyExecution env config
            (FileGenerationResult.workerId genResult)
            (FileGenerationResult.connectionId genResult)
            (FileGenerationResult.filePath genResult)) gs w
  = (Returned (copyPromisesFrom env (nextPid w) gs),
     mkWorld (nextPid w + length gs) (ticks w)
             (trace w ++ spawns (nextPid w) (map copyCall gs))).
Proof.
  revert w. induction gs as [|g gs IH]; intros w; cbn [mapM].
  - cbn. now rewrite Nat.add_0_r, app_nil_r, world_eta.
  - unfold bind at 1. unfold runCopyExecution at 1.
    unfold bind at 1, spawn, ret. unfold bind at 1.
    rewrite IH. cbn.
    rewrite <- app_assoc. cbn. now rewrite Nat.add_succ_r.
Qed.

Lemma mapM_runFileGeneration (workerId n : Z) (cs : list Z) (w : World) :
  mapM (fun connectionId =>
          runFileGeneration env config workerId connectionId n) cs w
  = (Returned
       (generationPromisesFrom env n (nextPid w)
          (map (fun c => (workerId, c)) cs)),
     mkWorld (nextPid w + length cs) (ticks w)
             (trace w
              ++ spawns (nextPid w)
                   (map (generationCall n)
                        (map (fun c => (workerId, c)) cs)))).
Proof.
  revert w. induction cs as [|c cs IH]; intros w; cbn [mapM].
  - cbn. now rewrite Nat.add_0_r, app_nil_r, world_eta.
  - unfold bind at 1. unfold runFileGeneration at 1.
    unfold bind at 1, spawn, ret. unfold bind at 1.
    rewrite IH. cbn.
    rewrite <- app_assoc. cbn. now rewrite Nat.add_succ_r.
Qed.

Lemma generationPromisesFrom_app (n : Z) (p : nat) (u1 u2 : list (Z * Z)) :
  generationPromisesFrom env n p (u1 ++ u2)
  = generationPromisesFrom env n p u1
    ++ generationPromisesFrom env n (p + length u1) u2.
Proof.
  revert p. induction u1 as [|u u1 IH]; intros p; cbn.
  - now rewrite Nat.add_0_r.
  - rewrite IH. now rewrite Nat.add_succ_r.
Qed.

Lemma mapM_generation (n : Z) (cs ws : list Z) (w : World) :
  let units :=
    flat_map (fun workerId => map (fun c => (workerId, c)) cs) ws in
  exists pss,
    mapM (fun workerId =>
            mapM (fun connectionId =>
                    runFileGeneration env config workerId connectionId n)
                 cs) ws w
    = (Returned pss,
       mkWorld (nextPid w + length units) (ticks w)
               (trace w
                ++ spawns (nextPid w) (map (generationCall n) units)))
    /\ concat pss = generationPromisesFrom env n (nextPid w) units.
Proof.
  revert w. induction ws as [|wk ws IH]; intros w; cbn [mapM flat_map].
  - exists []. cbn. now rewrite Nat.add_0_r, app_nil_r, world_eta.
  - unfold bind at 1. rewrite mapM_runFileGeneration.
    destruct (IH (mkWorld (nextPid w + length cs) (ticks w)
                    (trace w
                     ++ spawns (nextPid w)
                          (map (generationCall n)
                               (map (fun c => (wk, c)) cs)))))
      as (pss & Hrun & Hcat).
    unfold bind at 1. rewrite Hrun. cbn [nextPid ticks trace]. unfold ret.
    eexists. split.
    + f_equal. rewrite length_app, length_map, Nat.add_assoc.
      f_equal. rewrite <- app_assoc. f_equal.
      rewrite map_app, spawns_app. now rewrite !length_map.
    + cbn [concat]. rewrite Hcat. cbn [nextPid].
      rewrite generationPromisesFrom_app. now rewrite length_map.
Qed.

(** *** Awaiting *)

Lemma Promise_all_resolved {A : Type} (ps : list (Promise A))
    (rs : list A) (w : World) :
  map outcome ps = map Resolved rs ->
  Promise_all ps w
  = (Returned rs,
     mkWorld (nextPid w) (ticks w) (trace w ++ settles ps)).
Proof.
  revert rs w. induction ps as [|p ps IH]; intros rs w Hout.
  - destruct rs; [|discriminate]. cbn.
    now rewrite app_nil_r, world_eta.
  - destruct rs as [|r rs]; [discriminate|].
    cbn in Hout. injection Hout as Hp Hps.
    cbn [Promise_all]. rewrite Hp.
    unfold bind at 1, emit. unfold bind at 1.
    rewrite (IH rs _ Hps). cbn. unfold ret.
    now rewrite <- app_assoc.
Qed.

Lemma Date_now_eq (w : World) :
  Date_now env w
  = (Returned (clock env (ticks w)),
     mkWorld (nextPid w) (S (ticks w))
             (trace w ++ [ClockRead (clock env (ticks w))])).
Proof. reflexivity. Qed.

Lemma cleanupFiles_eq (paths : list string) (w : World) :
  cleanupFiles paths w
  = (Returned tt,
     mkWorld (nextPid w) (ticks w) (trace w ++ map CleanupFile paths)).
Proof.
  unfold cleanupFiles, bind.
  assert (H : forall w,
             exists us,
               mapM (fun filePath => emit (CleanupFile filePath)) paths w
               = (Returned us,
                  mkWorld (nextPid w) (ticks w)
                          (trace w ++ map CleanupFile paths))).
  { clear w. induction paths as [|f paths IH]; intros w; cbn [mapM].
    - exists []. cbn. now rewrite app_nil_r, world_eta.
    - unfold bind at 1. unfold emit at 1.
      destruct (IH (mkWorld (nextPid w) (ticks w)
                      (trace w ++ [CleanupFile f]))) as (us & Hus).
      unfold bind at 1. rewrite Hus. eexists. unfold ret. cbn.
      now rewrite <- app_assoc. }
  destruct (H w) as (us & ->). reflexivity.
Qed.

(** *** The batch loop, when every copy worker answers *)

Section ResolvedCopies.
Variable copy : nat -> Z -> Z -> string -> CopyExecutionResult.t.
Hypothesis copy_resolves :
  forall p workerId connectionId filePath,
    copyExecution env p workerId connectionId filePath
    = Resolved (copy p workerId connectionId filePath).

Lemma copyPromisesFrom_outcome (p : nat)
    (gs : list FileGenerationResult.t) :
  map outcome (copyPromisesFrom env p gs)
  = map Resolved (copyResultsFrom copy p gs).
Proof.
  revert p. induction gs as [|g gs IH]; intros p; cbn;
    [reflexivity | now rewrite copy_resolves, IH].
Qed.

Lemma copyResultsFrom_app (p : nat)
    (g1 g2 : list FileGenerationResult.t) :
  copyResultsFrom copy p (g1 ++ g2)
  = copyResultsFrom copy p g1
    ++ copyResultsFrom copy (p + length g1) g2.
Proof.
  revert p. induction g1 as [|g g1 IH]; intros p; cbn.
  - now rewrite Nat.add_0_r.
  - rewrite IH. now rewrite Nat.add_succ_r.
Qed.

Lemma copyResultsFrom_length (p : nat)
    (gs : list FileGenerationResult.t) :
  length (copyResultsFrom copy p gs) = length gs.
Proof. revert p. induction gs; intros p; cbn; auto. Qed.

Lemma copyBatches_resolved
    (successfulGenerations : list FileGenerationResult.t)
    (maxConcurrentCopies fuel : nat) :
  (1 <= maxConcurrentCopies)%nat ->
  forall (i : nat) (copyResults : list CopyExecutionResult.t)
         (w : World),
    (length successfulGenerations - i <= fuel)%nat ->
    exists dt tr,
      copyBatches env fuel config successfulGenerations
                  maxConcurrentCopies i copyResults w
      = (Returned
           (copyResults
            ++ copyResultsFrom copy (nextPid w)
                 (skipn i successfulGenerations)),
         mkWorld
           (nextPid w + length (skipn i successfulGenerations))
           (ticks w + dt) (trace w ++ tr))
      /\ spawnedCalls tr
         = map copyCall (skipn i successfulGenerations)
      /\ ((i < length successfulGenerations)%nat ->
          exists rest,
            tr = spawns (nextPid w)
                   (map copyCall
                      (firstn maxConcurrentCopies
                         (skipn i successfulGenerations)))
                 ++ rest).
Proof.
  intros Hm. induction fuel as [|fuel IH]; intros i acc w Hfuel.
  - cbn [copyBatches].
    destruct (Nat.ltb_spec i (length successfulGenerations)); [lia|].
    rewrite skipn_all2 by lia. exists 0%nat, []. cbn.
    rewrite !Nat.add_0_r, !app_nil_r, world_eta.
    repeat split. intros; lia.
  - cbn [copyBatches].
    destruct (Nat.ltb_spec i (length successfulGenerations)) as [Hi|Hi].
    2:{ rewrite skipn_all2 by lia. exists 0%nat, []. cbn.
        rewrite !Nat.add_0_r, !app_nil_r, world_eta.
        repeat split. intros; lia. }
    unfold slice. replace (i + maxConcurrentCopies - i)%nat
      with maxConcurrentCopies by lia.
    set (remaining := skipn i successfulGenerations).
    set (batch := firstn maxConcurrentCopies remaining).
    unfold bind at 1. rewrite mapM_runCopyExecution.
    unfold bind at 1. rewrite Date_now_eq.
    unfold bind at 1.
    rewrite (Promise_all_resolved _ _ _
               (copyPromisesFrom_outcome (nextPid w) batch)).
    unfold bind at 1. rewrite Date_now_eq.
    cbn [nextPid ticks trace].
    match goal with
    | |- context [copyBatches env fuel config _ _ _ _ ?w1] =>
        destruct (IH (i + maxConcurrentCopies)%nat
                     (acc ++ copyResultsFrom copy (nextPid w) batch) w1)
          as (dt & tr & Hrun & Hcalls & _); [lia|]
    end.
    rewrite Hrun. cbn [nextPid ticks trace].
    assert (Hrest : skipn (i + maxConcurrentCopies) successfulGenerations
                    = skipn maxConcurrentCopies remaining).
    { unfold remaining. rewrite skipn_skipn. f_equal. lia. }
    rewrite Hrest in *.
    assert (Hsplit : remaining
                     = batch ++ skipn maxConcurrentCopies remaining).
    { unfold batch. now rewrite firstn_skipn. }
    eexists (2 + dt)%nat, _. split; [|split].
    + f_equal.
      * rewrite <- app_assoc. f_equal.
        rewrite Hsplit at 2. now rewrite copyResultsFrom_app.
      * f_equal.
        -- rewrite Hsplit at 2. rewrite length_app. lia.
        -- lia.
        -- rewrite <- !app_assoc. reflexivity.
    + rewrite !spawnedCalls_app, spawnedCalls_spawns, Hcalls.
      rewrite spawnedCalls_settles. cbn.
      rewrite <- map_app. now rewrite <- Hsplit.
    + intros _. eexists. reflexivity.
Qed.

End ResolvedCopies.

(** *** The whole run, when every worker answers *)

Section ResolvedRun.
Variable gen : Z -> Z -> Z -> FileGenerationResult.t.
Variable copy : nat -> Z -> Z -> string -> CopyExecutionResult.t.
Hypothesis gen_resolves :
  forall workerId connectionId n,
    fileGeneration env workerId connectionId n
    = Resolved (gen workerId connectionId n).
Hypothesis copy_resolves :
  forall p workerId connectionId filePath,
    copyExecution env p workerId connectionId filePath
    = Resolved (copy p workerId connectionId filePath).

Lemma generationPromisesFrom_outcome (n : Z) (p : nat)
    (units : list (Z * Z)) :
  map outcome (generationPromisesFrom env n p units)
  = map Resolved (map (fun u => gen (fst u) (snd u) n) units).
Proof.
  revert p. induction units as [|u units IH]; intros p; cbn;
    [reflexivity | now rewrite gen_resolves, IH].
Qed.

Lemma runTwoStageBenchmark_resolved (w0 : World) :
  let successfulGenerations :=
    filter FileGenerationResult.success (generationResultsOf config gen) in
  successfulGenerations <> [] ->
  exists copyStartTime copyEndTime resultTime pre mid post w',
    runTwoStageBenchmark env config w0
    = (Returned
         (summary config (toISOString env resultTime) copyStartTime
            copyEndTime (generationResultsOf config gen)
            (copyResultsFrom copy
               (nextPid w0 + length (generationUnits config)
                + length successfulGenerations)
               successfulGenerations)),
       w')
    /\ trace w'
       = trace w0 ++ pre ++ [ClockRead copyStartTime] ++ mid
         ++ [ClockRead copyEndTime] ++ post
    /\ spawnedCalls pre
       = map (generationCall (recordsPerConnectionOf config))
             (generationUnits config)
    /\ spawnedCalls mid
       = map copyCall successfulGenerations
         ++ map copyCall successfulGenerations
    /\ spawnedCalls post = []
    /\ exists rest,
         mid
         = spawns (nextPid w0 + length (generationUnits config))
                  (map copyCall successfulGenerations)
           ++ spawns (nextPid w0 + length (generationUnits config)
                      + length successfulGenerations)
                (map copyCall
                   (firstn (maxConcurrentCopiesOf successfulGenerations)
                      successfulGenerations))
           ++ rest.
Proof.
  intros succ Hsucc.
  unfold runTwoStageBenchmark.
  advance (Date_now_eq w0). cbv zeta.
  advance (Date_now_eq _).
  cbn [nextPid ticks trace].
  fold (recordsPerConnectionOf config).
  set (n := recordsPerConnectionOf config).
  match goal with
  | |- context [bind (mapM _ _) _ ?w1] =>
      destruct (mapM_generation n
                  (range (BenchmarkConfig.connectionsPerWorker config))
                  (range (BenchmarkConfig.minWorkers config)) w1)
        as (pss & Hrun & Hcat)
  end.
  cbv zeta in Hrun, Hcat. fold (generationUnits config) in Hrun, Hcat.
  advance Hrun.
  rewrite Hcat.
  advance (Promise_all_resolved _ _ _
             (generationPromisesFrom_outcome n _ _)).
  change (map (fun u => gen (fst u) (snd u) n) (generationUnits config))
    with (generationResultsOf config gen).
  advance (Date_now_eq _).
  change (filter FileGenerationResult.success (generationResultsOf config gen))
    with succ.
  destruct (Nat.eqb_spec (length succ) 0) as [Hz|_].
  { destruct succ; [contradiction|discriminate]. }
  advance (Date_now_eq _).
  advance (mapM_runCopyExecution _ _).
  cbn [nextPid ticks trace].
  assert (Hm : (1 <= maxConcurrentCopiesOf succ)%nat).
  { unfold maxConcurrentCopiesOf. destruct succ; [contradiction|].
    cbn [length]. lia. }
  match goal with
  | |- context [bind (copyBatches _ _ _ _ _ _ _) _ ?w1] =>
      destruct (copyBatches_resolved copy copy_resolves succ
                  (maxConcurrentCopiesOf succ) (length succ) Hm
                  0%nat [] w1)
          as (dt & tr & Hloop & Hcalls & Hfirst); [lia|]
  end.
  cbn [skipn nextPid ticks trace app] in Hloop, Hcalls, Hfirst.
  advance Hloop.
  advance (Date_now_eq _).
  advance (Date_now_eq _).
  advance (cleanupFiles_eq _ _).
  advance (Date_now_eq _).
  cbn [nextPid ticks trace]. unfold ret.
  do 3 eexists.
  exists ([ClockRead (clock env (ticks w0));
           ClockRead (clock env (S (ticks w0)))]
          ++ spawns (nextPid w0)
               (map (generationCall n) (generationUnits config))
          ++ settles (generationPromisesFrom env n (nextPid w0)
                        (generationUnits config))
          ++ [ClockRead (clock env (S (S (ticks w0))))]).
  exists (spawns (nextPid w0 + length (generationUnits config))
            (map copyCall succ) ++ tr).
  eexists. eexists.
  split; [|split; [|split; [|split; [|split]]]].
  - reflexivity.
  - cbn [trace]. rewrite <- !app_assoc. cbn [app].
    repeat (f_equal; try reflexivity).
  - rewrite !spawnedCalls_app, spawnedCalls_spawns,
      spawnedCalls_settles. cbn. now rewrite app_nil_r.
  - now rewrite spawnedCalls_app, spawnedCalls_spawns, Hcalls.
  - cbn [spawnedCalls].
    now rewrite ?spawnedCalls_app, ?spawnedCalls_cleanup.
  - destruct Hfirst as (rest & ->).
    { destruct succ; [contradiction | cbn [length]; lia]. }
    exists rest. reflexivity.
Qed.


(** Without a single artifact the run stops at the fatal error, and
    the only workers ever spawned are those of stage 1. *)
Lemma runTwoStageBenchmark_no_artifact (w0 : World) :
  filter FileGenerationResult.success (generationResultsOf config gen) = [] ->
  exists w',
    runTwoStageBenchmark env config w0
    = (Thrown "No CSV files were generated successfully", w')
    /\ spawnedCalls (trace w')
       = spawnedCalls (trace w0)
         ++ map (generationCall (recordsPerConnectionOf config))
                (generationUnits config).
Proof.
  intros Hnone.
  unfold runTwoStageBenchmark.
  advance (Date_now_eq w0). cbv zeta.
  advance (Date_now_eq _).
  cbn [nextPid ticks trace].
  fold (recordsPerConnectionOf config).
  set (n := recordsPerConnectionOf config).
  match goal with
  | |- context [bind (mapM _ _) _ ?w1] =>
      destruct (mapM_generation n
                  (range (BenchmarkConfig.connectionsPerWorker config))
                  (range (BenchmarkConfig.minWorkers config)) w1)
        as (pss & Hrun & Hcat)
  end.
  cbv zeta in Hrun, Hcat. fold (generationUnits config) in Hrun, Hcat.
  advance Hrun.
  rewrite Hcat.
  advance (Promise_all_resolved _ _ _
             (generationPromisesFrom_outcome n _ _)).
  change (map (fun u => gen (fst u) (snd u) n) (generationUnits config))
    with (generationResultsOf config gen).
  advance (Date_now_eq _).
  rewrite Hnone. cbn [length Nat.eqb]. unfold throw.
  eexists. split; [reflexivity|].
  cbn [trace nextPid ticks].
  rewrite !spawnedCalls_app, spawnedCalls_spawns, spawnedCalls_settles.
  cbn. now rewrite !app_nil_r.
Qed.

End ResolvedRun.

(** *** The run always ends *)

Lemma finishes_ret {A : Type} (a : A) : finishes (ret a).
Proof. intros w. discriminate. Qed.

Lemma finishes_bind {A B : Type} (m : M A) (k : A -> M B) :
  finishes m -> (forall a, finishes (k a)) -> finishes (bind m k).
Proof.
  intros Hm Hk w. unfold bind. specialize (Hm w).
  destruct (m w) as [[a| |] w']; cbn in *;
    [apply Hk | discriminate | contradiction].
Qed.

Lemma finishes_mapM {A B : Type} (f : A -> M B) (xs : list A) :
  (forall x, finishes (f x)) -> finishes (mapM f xs).
Proof.
  intros Hf. induction xs as [|x xs IH]; cbn [mapM].
  - apply finishes_ret.
  - apply finishes_bind; [apply Hf|]. intros y.
    apply finishes_bind; [exact IH|]. intros ys. apply finishes_ret.
Qed.

Lemma finishes_Promise_all {A : Type} (ps : list (Promise A)) :
  finishes (Promise_all ps).
Proof.
  induction ps as [|p ps IH]; cbn [Promise_all].
  - apply finishes_ret.
  - destruct (outcome p).
    + apply finishes_bind; [intros w; discriminate|]. intros _.
      apply finishes_bind; [exact IH|]. intros rest. apply finishes_ret.
    + apply finishes_bind; intros; intros w; discriminate.
Qed.

Lemma finishes_runCopyExecution (workerId connectionId : Z)
    (filePath : string) :
  finishes (runCopyExecution env config workerId connectionId filePath).
Proof. intros w. discriminate. Qed.

Lemma finishes_copyBatches
    (successfulGenerations : list FileGenerationResult.t)
    (maxConcurrentCopies fuel : nat) :
  (1 <= maxConcurrentCopies)%nat ->
  forall (i : nat) (copyResults : list CopyExecutionResult.t),
    (length successfulGenerations - i <= fuel)%nat ->
    finishes (copyBatches env fuel config successfulGenerations
                          maxConcurrentCopies i copyResults).
Proof.
  intros Hm. induction fuel as [|fuel IH]; intros i acc Hfuel;
    cbn [copyBatches];
    destruct (Nat.ltb_spec i (length successfulGenerations));
    try apply finishes_ret; [lia|].
  apply finishes_bind.
  { apply finishes_mapM. intros g. apply finishes_runCopyExecution. }
  intros ps. apply finishes_bind; [intros w; discriminate|].
  intros t1. apply finishes_bind; [apply finishes_Promise_all|].
  intros rs. apply finishes_bind; [intros w; discriminate|].
  intros t2. apply IH. lia.
Qed.

(** The fuel given to the batch loop is enough, whatever the workers
    answer: the run returns a result or throws. *)
Lemma runTwoStageBenchmark_finishes :
  finishes (runTwoStageBenchmark env config).
Proof.
  unfold runTwoStageBenchmark.
  apply finishes_bind; [intros w; discriminate|]. intros t0. cbv zeta.
  apply finishes_bind; [intros w; discriminate|]. intros t1.
  apply finishes_bind.
  { apply finishes_mapM. intros workerId. apply finishes_mapM.
    intros connectionId w. discriminate. }
  intros pss. apply finishes_bind; [apply finishes_Promise_all|].
  intros generationResults.
  apply finishes_bind; [intros w; discriminate|]. intros t2.
  set (succ := filter FileGenerationResult.success generationResults).
  destruct (Nat.eqb_spec (length succ) 0) as [Hz|Hnz].
  { intros w. discriminate. }
  apply finishes_bind; [intros w; discriminate|]. intros t3.
  apply finishes_bind.
  { apply finishes_mapM. intros g. apply finishes_runCopyExecution. }
  intros stale. apply finishes_bind.
  { apply finishes_copyBatches; [|lia].
    unfold maxConcurrentCopiesOf. lia. }
  intros copyResults.
  apply finishes_bind; [intros w; discriminate|]. intros t4.
  apply finishes_bind; [intros w; discriminate|]. intros t5.
  apply finishes_bind.
  { unfold cleanupFiles. apply finishes_bind.
    - apply finishes_mapM. intros f w. discriminate.
    - intros us. apply finishes_ret. }
  intros _. apply finishes_bind; [intros w; discriminate|]. intros t6.
  apply finishes_ret.
Qed.

End Phases.

(** *** Pending copy promises *)

(** A stretch of trace without a Bulk Loader call leaves nothing pending
    that was not pending before. *)
Lemma pending_without_copies (tr : list Event) :
  Forall (fun c => isCopy c = false) (spawnedCalls tr) ->
  fold_left pendingStep tr [] = [].
Proof.
  induction tr as [|e tr IH]; intros Hnone; [reflexivity|].
  destruct e as [p c| | |]; cbn in *; auto.
  inversion Hnone as [|? ? Hc Hrest]; subst.
  destruct c; [auto | discriminate].
Qed.

(** Every Bulk Loader call that is spawned becomes pending. *)
Lemma pending_after_spawns (gs : list FileGenerationResult.t) :
  forall (p : nat) (pending : list nat),
    length (fold_left pendingStep (spawns p (map copyCall gs)) pending)
    = (length pending + length gs)%nat.
Proof.
  induction gs as [|g gs IH]; intros p pending; cbn.
  - lia.
  - rewrite IH. cbn. lia.
Qed.

Lemma peak_fst (tr : list Event) :
  forall st,
    fst (fold_left peakStep tr st) = fold_left pendingStep tr (fst st).
Proof.
  induction tr as [|e tr IH]; intros st; [reflexivity|].
  cbn [fold_left]. now rewrite IH.
Qed.

Lemma peak_monotone (tr : list Event) :
  forall st, (snd st <= snd (fold_left peakStep tr st))%nat.
Proof.
  induction tr as [|e tr IH]; intros st; cbn [fold_left]; [lia|].
  etransitivity; [|apply IH]. cbn. lia.
Qed.

Lemma peak_covers_pending (tr : list Event) :
  forall st,
    (length (fst st) <= snd st)%nat ->
    (length (fst (fold_left peakStep tr st))
     <= snd (fold_left peakStep tr st))%nat.
Proof.
  induction tr as [|e tr IH]; intros st Hst; cbn [fold_left]; [exact Hst|].
  apply IH. cbn. lia.
Qed.

(** The peak is at least what is pending after any prefix of the trace. *)
Lemma peak_at_least_pending (before after : list Event) :
  (length (pendingCopies before) <= peakInFlight (before ++ after))%nat.
Proof.
  unfold peakInFlight, pendingCopies. rewrite fold_left_app.
  etransitivity; [|apply peak_monotone].
  pose proof (peak_fst before ([], 0%nat)) as Hfst. cbn [fst] in Hfst.
  rewrite <- Hfst. apply peak_covers_pending. cbn. lia.
Qed.

(** When the first batch has been dispatched, nothing has been awaited
    since stage 2 began: the calls made while filling [copyPromises] and
    those of the first batch are pending together. *)
Lemma first_batch_overlaps_copyPromises
    (env : Environment) (config : BenchmarkConfig.t)
    (gen : Z -> Z -> Z -> FileGenerationResult.t)
    (copy : nat -> Z -> Z -> string -> CopyExecutionResult.t) :
  (forall workerId connectionId n,
      fileGeneration env workerId connectionId n
      = Resolved (gen workerId connectionId n)) ->
  (forall p workerId connectionId filePath,
      copyExecution env p workerId connectionId filePath
      = Resolved (copy p workerId connectionId filePath)) ->
  let successfulGenerations :=
    filter FileGenerationResult.success (generationResultsOf config gen) in
  successfulGenerations <> [] ->
  exists r w' before after,
    runTwoStageBenchmark env config initialWorld = (Returned r, w')
    /\ trace w' = before ++ after
    /\ length (pendingCopies before)
       = (length successfulGenerations
          + maxConcurrentCopiesOf successfulGenerations)%nat
    /\ (maxConcurrentCopiesOf successfulGenerations
        < peakInFlight (trace w'))%nat.
Proof.
  intros Hgen Hcopy succ Hsome.
  destruct (runTwoStageBenchmark_resolved env config gen copy Hgen Hcopy
              initialWorld Hsome)
    as (t1 & t2 & t3 & pre & mid & post & w' & Hrun & Htr & Hpre & _ & _
        & rest & Hmid).
  fold succ in Hmid.
  set (p := (nextPid initialWorld + length (generationUnits config))%nat)
    in Hmid.
  set (before := pre ++ [ClockRead t1]
                 ++ spawns p (map copyCall succ)
                 ++ spawns (p + length succ)
                      (map copyCall
                         (firstn (maxConcurrentCopiesOf succ) succ))).
  assert (Hsplit : trace w'
                   = before ++ rest ++ [ClockRead t2] ++ post).
  { rewrite Htr, Hmid. unfold before. cbn [trace initialWorld app].
    repeat (rewrite <- app_assoc || rewrite <- app_comm_cons).
    reflexivity. }
  assert (Hpending : length (pendingCopies before)
                     = (length succ + maxConcurrentCopiesOf succ)%nat).
  { unfold before, pendingCopies. rewrite !fold_left_app.
    rewrite pending_without_copies.
    2:{ rewrite Hpre. apply Forall_map, Forall_forall. intros; reflexivity. }
    cbn [fold_left pendingStep]. rewrite !pending_after_spawns.
    cbn [length]. rewrite length_firstn. unfold maxConcurrentCopiesOf. lia. }
  eexists. exists w', before, (rest ++ [ClockRead t2] ++ post).
  split; [exact Hrun|]. split; [exact Hsplit|]. split; [exact Hpending|].
  rewrite Hsplit.
  pose proof (peak_at_least_pending before (rest ++ [ClockRead t2] ++ post)).
  assert (1 <= length succ)%nat
    by (destruct succ; [contradiction | cbn [length]; lia]).
  lia.
Qed.

(** *** What is awaited, and when *)

Import TwoStageTrace.

Section AwaitedRun.
Variable env : Environment.
Variable config : BenchmarkConfig.t.

Lemma spawnedWorkers_app (tr1 tr2 : list Event) :
  spawnedWorkers (tr1 ++ tr2) = spawnedWorkers tr1 ++ spawnedWorkers tr2.
Proof.
  induction tr1 as [|e tr1 IH]; [reflexivity|].
  destruct e; cbn; now rewrite IH.
Qed.

Lemma spawnedWorkers_spawns (p : nat) (calls : list Call) :
  spawnedWorkers (spawns p calls) = numbered p calls.
Proof.
  unfold numbered. revert p.
  induction calls as [|c calls IH]; intros p; [reflexivity|].
  cbn. now rewrite IH.
Qed.

Lemma spawnedWorkers_settles {A : Type} (ps : list (Promise A)) :
  spawnedWorkers (settles ps) = [].
Proof. induction ps as [|p ps IH]; [reflexivity | exact IH]. Qed.

Lemma spawnedWorkers_cleanup (paths : list string) :
  spawnedWorkers (map CleanupFile paths) = [].
Proof. induction paths as [|p ps IH]; [reflexivity | exact IH]. Qed.

Lemma numbered_app (p : nat) (c1 c2 : list Call) :
  numbered p (c1 ++ c2) = numbered p c1 ++ numbered (p + length c1) c2.
Proof.
  unfold numbered. revert p.
  induction c1 as [|c c1 IH]; intros p; cbn.
  - now rewrite Nat.add_0_r.
  - rewrite IH. now rewrite Nat.add_succ_r.
Qed.

(** The calls of a trace are those of its workers. *)
Lemma spawnedCalls_workers (tr : list Event) :
  spawnedCalls tr = map snd (spawnedWorkers tr).
Proof.
  induction tr as [|e tr IH]; [reflexivity|].
  destruct e; cbn; now rewrite IH.
Qed.

Lemma numbered_calls (p : nat) (calls : list Call) :
  map snd (numbered p calls) = calls.
Proof.
  unfold numbered. revert p.
  induction calls as [|c calls IH]; intros p; [reflexivity|].
  cbn. now rewrite IH.
Qed.

Lemma settledPids_app (tr1 tr2 : list Event) :
  settledPids (tr1 ++ tr2) = settledPids tr1 ++ settledPids tr2.
Proof.
  induction tr1 as [|e tr1 IH]; [reflexivity|].
  destruct e; cbn; now rewrite IH.
Qed.

Lemma settledPids_spawns (p : nat) (calls : list Call) :
  settledPids (spawns p calls) = [].
Proof.
  revert p. induction calls as [|c calls IH]; intros p; [reflexivity|].
  cbn. apply IH.
Qed.

Lemma settledPids_settles {A : Type} (ps : list (Promise A)) :
  settledPids (settles ps) = map pid ps.
Proof.
  unfold settles. induction ps as [|p ps IH]; [reflexivity|].
  cbn. now rewrite IH.
Qed.

Lemma settledPids_cleanup (paths : list string) :
  settledPids (map CleanupFile paths) = [].
Proof. induction paths as [|p ps IH]; [reflexivity | exact IH]. Qed.

Lemma pids_of_copy_promises (p : nat) (gs : list FileGenerationResult.t) :
  map pid (copyPromisesFrom env p gs) = seq p (length gs).
Proof.
  revert p. induction gs as [|g gs IH]; intros p; [reflexivity|].
  cbn. now rewrite IH.
Qed.

Lemma pids_of_generation_promises (n : Z) (p : nat) (units : list (Z * Z)) :
  map pid (generationPromisesFrom env n p units) = seq p (length units).
Proof.
  revert p. induction units as [|u units IH]; intros p; [reflexivity|].
  cbn. now rewrite IH.
Qed.

Variable gen : Z -> Z -> Z -> FileGenerationResult.t.
Variable copy : nat -> Z -> Z -> string -> CopyExecutionResult.t.
Hypothesis gen_resolves :
  forall workerId connectionId n,
    fileGeneration env workerId connectionId n
    = Resolved (gen workerId connectionId n).
Hypothesis copy_resolves :
  forall p workerId connectionId filePath,
    copyExecution env p workerId connectionId filePath
    = Resolved (copy p workerId connectionId filePath).

(** The batch loop hands every remaining artifact to one new worker, in
    order, and has awaited each of these workers when it ends. *)
Lemma copyBatches_awaits
    (successfulGenerations : list FileGenerationResult.t)
    (maxConcurrentCopies fuel : nat) :
  (1 <= maxConcurrentCopies)%nat ->
  forall (i : nat) (copyResults : list CopyExecutionResult.t)
         (w : World),
    (length successfulGenerations - i <= fuel)%nat ->
    exists dt tr,
      copyBatches env fuel config successfulGenerations
                  maxConcurrentCopies i copyResults w
      = (Returned
           (copyResults
            ++ copyResultsFrom copy (nextPid w)
                 (skipn i successfulGenerations)),
         mkWorld
           (nextPid w + length (skipn i successfulGenerations))
           (ticks w + dt) (trace w ++ tr))
      /\ spawnedWorkers tr
         = numbered (nextPid w)
             (map copyCall (skipn i successfulGenerations))
      /\ settledPids tr
         = seq (nextPid w) (length (skipn i successfulGenerations)).
Proof.
  intros Hm. induction fuel as [|fuel IH]; intros i acc w Hfuel.
  - cbn [copyBatches].
    destruct (Nat.ltb_spec i (length successfulGenerations)); [lia|].
    rewrite skipn_all2 by lia. exists 0%nat, []. cbn.
    rewrite !Nat.add_0_r, !app_nil_r, world_eta. now repeat split.
  - cbn [copyBatches].
    destruct (Nat.ltb_spec i (length successfulGenerations)) as [Hi|Hi].
    2:{ rewrite skipn_all2 by lia. exists 0%nat, []. cbn.
        rewrite !Nat.add_0_r, !app_nil_r, world_eta. now repeat split. }
    unfold slice. replace (i + maxConcurrentCopies - i)%nat
      with maxConcurrentCopies by lia.
    set (remaining := skipn i successfulGenerations).
    set (batch := firstn maxConcurrentCopies remaining).
    unfold bind at 1. rewrite mapM_runCopyExecution.
    unfold bind at 1. rewrite Date_now_eq.
    unfold bind at 1.
    rewrite (Promise_all_resolved _ _ _
               (copyPromisesFrom_outcome env copy copy_resolves
                  (nextPid w) batch)).
    unfold bind at 1. rewrite Date_now_eq.
    cbn [nextPid ticks trace].
    match goal with
    | |- context [copyBatches env fuel config _ _ _ _ ?w1] =>
        destruct (IH (i + maxConcurrentCopies)%nat
                     (acc ++ copyResultsFrom copy (nextPid w) batch) w1)
          as (dt & tr & Hrun & Hworkers & Hsettled); [lia|]
    end.
    rewrite Hrun. cbn [nextPid ticks trace] in *.
    assert (Hrest : skipn (i + maxConcurrentCopies) successfulGenerations
                    = skipn maxConcurrentCopies remaining).
    { unfold remaining. rewrite skipn_skipn. f_equal. lia. }
    rewrite Hrest in *.
    assert (Hsplit : remaining
                     = batch ++ skipn maxConcurrentCopies remaining).
    { unfold batch. now rewrite firstn_skipn. }
    eexists (2 + dt)%nat, _. split; [|split].
    + f_equal.
      * rewrite <- app_assoc. f_equal.
        rewrite Hsplit at 2. now rewrite copyResultsFrom_app.
      * f_equal.
        -- rewrite Hsplit at 2. rewrite length_app. lia.
        -- lia.
        -- rewrite <- !app_assoc. reflexivity.
    + rewrite !spawnedWorkers_app, spawnedWorkers_spawns, Hworkers.
      rewrite spawnedWorkers_settles. cbn [spawnedWorkers app].
      replace (map copyCall remaining)
        with (map copyCall batch
              ++ map copyCall (skipn maxConcurrentCopies remaining))
        by (now rewrite <- map_app, <- Hsplit).
      now rewrite numbered_app, length_map.
    + rewrite !settledPids_app, settledPids_spawns, settledPids_settles,
        Hsettled.
      cbn [settledPids app]. rewrite pids_of_copy_promises.
      replace (length remaining)
        with (length batch
              + length (skipn maxConcurrentCopies remaining))%nat
        by (now rewrite <- length_app, <- Hsplit).
      now rewrite seq_app.
Qed.

(** The whole run, event by event, when every worker answers: the readings
    of the clock that bound the copy phase, what is spawned and what has
    been awaited before, between and after them. *)
Lemma runTwoStageBenchmark_awaits (w0 : World) :
  let successfulGenerations :=
    filter FileGenerationResult.success (generationResultsOf config gen) in
  let firstCopy := (nextPid w0 + length (generationUnits config))%nat in
  successfulGenerations <> [] ->
  exists copyStartTime copyEndTime resultTime pre batches post w',
    runTwoStageBenchmark env config w0
    = (Returned
         (summary config (toISOString env resultTime) copyStartTime
            copyEndTime (generationResultsOf config gen)
            (copyResultsFrom copy
               (firstCopy + length successfulGenerations)
               successfulGenerations)),
       w')
    /\ trace w'
       = trace w0 ++ pre ++ [ClockRead copyStartTime]
         ++ (spawns firstCopy (map copyCall successfulGenerations)
             ++ batches)
         ++ [ClockRead copyEndTime] ++ post
    /\ spawnedWorkers pre
       = numbered (nextPid w0)
           (map (generationCall (recordsPerConnectionOf config))
                (generationUnits config))
    /\ settledPids pre
       = seq (nextPid w0) (length (generationUnits config))
    /\ spawnedWorkers batches
       = numbered (firstCopy + length successfulGenerations)
           (map copyCall successfulGenerations)
    /\ settledPids batches
       = seq (firstCopy + length successfulGenerations)
             (length successfulGenerations)
    /\ spawnedWorkers post = []
    /\ settledPids post = [].
Proof.
  intros succ firstCopy Hsucc.
  unfold runTwoStageBenchmark.
  advance (Date_now_eq env w0). cbv zeta.
  advance (Date_now_eq env _).
  cbn [nextPid ticks trace].
  fold (recordsPerConnectionOf config).
  set (n := recordsPerConnectionOf config).
  match goal with
  | |- context [bind (mapM _ _) _ ?w1] =>
      destruct (mapM_generation env config n
                  (range (BenchmarkConfig.connectionsPerWorker config))
                  (range (BenchmarkConfig.minWorkers config)) w1)
        as (pss & Hrun & Hcat)
  end.
  cbv zeta in Hrun, Hcat. fold (generationUnits config) in Hrun, Hcat.
  advance Hrun.
  rewrite Hcat.
  advance (Promise_all_resolved _ _ _
             (generationPromisesFrom_outcome env gen gen_resolves n _ _)).
  change (map (fun u => gen (fst u) (snd u) n) (generationUnits config))
    with (generationResultsOf config gen).
  advance (Date_now_eq env _).
  change (filter FileGenerationResult.success (generationResultsOf config gen))
    with succ.
  destruct (Nat.eqb_spec (length succ) 0) as [Hz|_].
  { destruct succ; [contradiction|discriminate]. }
  advance (Date_now_eq env _).
  advance (mapM_runCopyExecution env config _ _).
  cbn [nextPid ticks trace].
  assert (Hm : (1 <= maxConcurrentCopiesOf succ)%nat).
  { unfold maxConcurrentCopiesOf. destruct succ; [contradiction|].
    cbn [length]. lia. }
  match goal with
  | |- context [bind (copyBatches _ _ _ _ _ _ _) _ ?w1] =>
      destruct (copyBatches_awaits succ
                  (maxConcurrentCopiesOf succ) (length succ) Hm
                  0%nat [] w1)
          as (dt & tr & Hloop & Hworkers & Hsettled); [lia|]
  end.
  cbn [skipn nextPid ticks trace app] in Hloop, Hworkers, Hsettled.
  advance Hloop.
  advance (Date_now_eq env _).
  advance (Date_now_eq env _).
  advance (cleanupFiles_eq _ _).
  advance (Date_now_eq env _).
  cbn [nextPid ticks trace]. unfold ret.
  do 3 eexists.
  exists ([ClockRead (clock env (ticks w0));
           ClockRead (clock env (S (ticks w0)))]
          ++ spawns (nextPid w0)
               (map (generationCall n) (generationUnits config))
          ++ settles (generationPromisesFrom env n (nextPid w0)
                        (generationUnits config))
          ++ [ClockRead (clock env (S (S (ticks w0))))]).
  exists tr.
  eexists. eexists.
  split; [|split; [|split; [|split; [|split; [|split; [|split]]]]]].
  - reflexivity.
  - cbn [trace]. rewrite <- !app_assoc. cbn [app].
    repeat (f_equal; try reflexivity).
  - rewrite !spawnedWorkers_app, spawnedWorkers_spawns,
      spawnedWorkers_settles. cbn. now rewrite app_nil_r.
  - rewrite !settledPids_app, settledPids_spawns, settledPids_settles,
      pids_of_generation_promises. cbn. now rewrite app_nil_r.
  - exact Hworkers.
  - exact Hsettled.
  - cbn [spawnedWorkers].
    now rewrite ?spawnedWorkers_app, ?spawnedWorkers_cleanup.
  - cbn [settledPids].
    now rewrite ?settledPids_app, ?settledPids_cleanup.
Qed.

End AwaitedRun.

(** *** Counting *)

Lemma filter_partition_length {A : Type} (f : A -> bool) (l : list A) :
  (length (filter f l) + length (filter (fun x => negb (f x)) l)
   = length l)%nat.
Proof.
  induction l as [|x l IH]; [reflexivity|].
  cbn. destruct (f x); cbn; lia.
Qed.

Lemma copyResultsFrom_all_succeed
    (copy : nat -> Z -> Z -> string -> CopyExecutionResult.t)
    (p : nat) (gs : list FileGenerationResult.t) :
  (forall q workerId connectionId filePath,
      CopyExecutionResult.success (copy q workerId connectionId filePath)
      = true) ->
  filter CopyExecutionResult.success (copyResultsFrom copy p gs)
  = copyResultsFrom copy p gs
  /\ filter failedCopy (copyResultsFrom copy p gs) = [].
Proof.
  intros Hok. revert p. induction gs as [|g gs IH]; intros p; cbn.
  - now split.
  - unfold failedCopy at 1. rewrite Hok. cbn.
    destruct (IH (S p)) as [-> ->]. now split.
Qed.

(** ** The claims about the coordinator *)

(** Every artifact that stage 1 produced is handed to the Bulk Loader
    twice: once by the loop that fills [copyPromises], once by its batch. *)
Lemma artifacts_are_dispatched_twice
    (env : Environment) (config : BenchmarkConfig.t)
    (gen : Z -> Z -> Z -> FileGenerationResult.t)
    (copy : nat -> Z -> Z -> string -> CopyExecutionResult.t) (w0 : World) :
  (forall workerId connectionId n,
      fileGeneration env workerId connectionId n
      = Resolved (gen workerId connectionId n)) ->
  (forall p workerId connectionId filePath,
      copyExecution env p workerId connectionId filePath
      = Resolved (copy p workerId connectionId filePath)) ->
  let artifacts :=
    map FileGenerationResult.filePath
        (filter FileGenerationResult.success
                (generationResultsOf config gen)) in
  artifacts <> [] ->
  copyInvocations (trace (snd (runTwoStageBenchmark env config w0)))
  = copyInvocations (trace w0) ++ artifacts ++ artifacts.
Proof.
  intros Hgen Hcopy artifacts Hsome.
  destruct (runTwoStageBenchmark_resolved env config gen copy Hgen Hcopy w0)
    as (t1 & t2 & t3 & pre & mid & post & w' & Hrun & Htr & Hpre & Hmid
        & Hpost & _).
  { intros Hnil. apply Hsome. unfold artifacts. now rewrite Hnil. }
  rewrite Hrun. cbn [snd]. rewrite Htr.
  rewrite !copyInvocations_spawned, !spawnedCalls_app.
  cbn [spawnedCalls]. rewrite Hpre, Hmid, Hpost.
  rewrite !flat_map_app, copyPath_generation, !copyPath_copy.
  cbn. now rewrite app_nil_r.
Qed.

(** C1: the claim asks for one Bulk Loader call per artifact.  In the run
    [Scenarios.twoArtifacts] (one worker, two connections, both generations
    and all loads successful) [runCopyExecution] is called four times, twice
    on each of the two artifact paths. *)
Theorem two_artifacts_four_loader_calls :
  let invocations :=
    copyInvocations
      (trace (snd (runTwoStageBenchmark Scenarios.twoArtifacts
                     Scenarios.twoArtifactsConfig initialWorld))) in
  invocations
  = [Scenarios.artifactPath 0 0; Scenarios.artifactPath 0 1;
     Scenarios.artifactPath 0 0; Scenarios.artifactPath 0 1]
  /\ count_occ string_dec invocations (Scenarios.artifactPath 0 0) = 2%nat
  /\ count_occ string_dec invocations (Scenarios.artifactPath 0 1) = 2%nat.
Proof. vm_compute. repeat split. Qed.

(** C2: the claim bounds the pending Bulk Loader calls by
    [maxConcurrentCopies].  In the run [Scenarios.oneArtifact] the bound is
    [min(10, 1) = 1].  The call made while filling [copyPromises] and the
    call of the first batch are the seventh and eighth event of the run,
    with no await between them: after the eighth event both are pending. *)
Theorem one_artifact_two_calls_in_flight :
  let run :=
    runTwoStageBenchmark Scenarios.oneArtifact Scenarios.oneArtifactConfig
                         initialWorld in
  maxConcurrentCopiesOf
    (filter FileGenerationResult.success
       (generationResultsOf Scenarios.oneArtifactConfig Scenarios.generated))
  = 1%nat
  /\ firstn 3 (skipn 6 (trace (snd run)))
     = [Spawned 1 (CopyExecution 0 0 (Scenarios.artifactPath 0 0));
        Spawned 2 (CopyExecution 0 0 (Scenarios.artifactPath 0 0));
        ClockRead (Scenarios.steadyClock 4)]
  /\ pendingCopies (firstn 8 (trace (snd run))) = [2; 1]%nat
  /\ peakInFlight (trace (snd run)) = 2%nat.
Proof. vm_compute. repeat split. Qed.

(** C3, as the claim states it, fails: in the run [Scenarios.threeOfTen]
    ten generation units are started, three of them fail and every load
    succeeds, yet the result reports no error at all and a success rate
    of 1. *)
Lemma three_of_ten_fail_errorCount_is_zero :
  exists r w',
    runTwoStageBenchmark Scenarios.threeOfTen Scenarios.threeOfTenConfig
                         initialWorld
    = (Returned r, w')
    /\ length (generationResultsOf Scenarios.threeOfTenConfig
                                   Scenarios.threeOfTenGen) = 10%nat
    /\ length (filter failed
                 (generationResultsOf Scenarios.threeOfTenConfig
                                      Scenarios.threeOfTenGen)) = 3%nat
    /\ BenchmarkResult.successCount r = 7
    /\ ~ (3 <= BenchmarkResult.errorCount r)
    /\ BenchmarkResult.successRate r
       <> PrimFloat.div (Z2F 7) (Z2F 10).
Proof.
  eexists. eexists. split; [vm_compute; reflexivity|].
  cbn [BenchmarkResult.successCount BenchmarkResult.errorCount
       BenchmarkResult.successRate].
  repeat split; try reflexivity.
  - intros H. vm_compute in H. now apply H.
  - intros H. apply (f_equal (fun x => PrimFloat.eqb x 1%float)) in H.
    vm_compute in H. discriminate.
Qed.

(** C3 (amended): when ten generation units are started, exactly three of
    them fail and every load succeeds, the batches of stage 2 hand the seven
    surviving artifacts, each once and in generation order, to seven new
    loader workers and await every one of them before the copy phase ends;
    nothing is spawned afterwards.  The result counts these seven artifacts
    and their seven loads; [errorCount] counts failed loads only and is 0,
    the success rate is 7/7 = 1, and the three generation failures are the
    three entries of [errors]. *)
Theorem three_of_ten_generations_fail
    (env : Environment) (config : BenchmarkConfig.t)
    (gen : Z -> Z -> Z -> FileGenerationResult.t)
    (copy : nat -> Z -> Z -> string -> CopyExecutionResult.t) (w0 : World) :
  (forall workerId connectionId n,
      fileGeneration env workerId connectionId n
      = Resolved (gen workerId connectionId n)) ->
  (forall p workerId connectionId filePath,
      copyExecution env p workerId connectionId filePath
      = Resolved (copy p workerId connectionId filePath)) ->
  length (generationResultsOf config gen) = 10%nat ->
  length (filter failed (generationResultsOf config gen)) = 3%nat ->
  (forall p workerId connectionId filePath,
      CopyExecutionResult.success (copy p workerId connectionId filePath)
      = true) ->
  let surviving :=
    filter FileGenerationResult.success (generationResultsOf config gen) in
  let firstCopy := (nextPid w0 + length (generationUnits config))%nat in
  exists r w' pre copyStartTime batches copyEndTime post,
    runTwoStageBenchmark env config w0 = (Returned r, w')
    /\ length surviving = 7%nat
    /\ trace w'
       = trace w0 ++ pre ++ [ClockRead copyStartTime]
         ++ (spawns firstCopy (map copyCall surviving) ++ batches)
         ++ [ClockRead copyEndTime] ++ post
    /\ spawnedWorkers batches
       = numbered (firstCopy + 7) (map copyCall surviving)
    /\ copyInvocations batches
       = map FileGenerationResult.filePath surviving
    /\ settledPids batches = seq (firstCopy + 7) 7
    /\ spawnedCalls post = []
    /\ BenchmarkResult.totalConnections r = 7
    /\ BenchmarkResult.successCount r = 7
    /\ BenchmarkResult.errorCount r = 0
    /\ BenchmarkResult.successRate r = 1%float
    /\ BenchmarkResult.errors r
       = map generationMessage
             (filter failed (generationResultsOf config gen))
    /\ length (BenchmarkResult.errors r) = 3%nat.
Proof.
  intros Hgen Hcopy Hten Hthree Hok surviving firstCopy.
  pose proof (filter_partition_length FileGenerationResult.success
                (generationResultsOf config gen)) as Hpart.
  fold failed in Hpart. rewrite Hten, Hthree in Hpart.
  assert (Hseven : length surviving = 7%nat) by (unfold surviving; lia).
  destruct (runTwoStageBenchmark_awaits env config gen copy Hgen Hcopy w0)
    as (t1 & t2 & t3 & pre & batches & post & w' & Hrun & Htrace & _ & _
        & Hworkers & Hsettled & Hpost & _).
  { fold surviving. intros Hnil. rewrite Hnil in Hseven. discriminate. }
  fold surviving in Hrun, Htrace, Hworkers, Hsettled.
  fold firstCopy in Hrun, Htrace, Hworkers, Hsettled.
  rewrite Hseven in Hworkers, Hsettled.
  eexists. exists w', pre, t1, batches, t2, post.
  split; [exact Hrun|]. split; [exact Hseven|]. split; [exact Htrace|].
  split; [exact Hworkers|].
  split.
  { rewrite copyInvocations_spawned, spawnedCalls_workers, Hworkers,
      numbered_calls.
    clear. induction surviving as [|g gs IH]; [reflexivity|].
    cbn. now rewrite IH. }
  split; [exact Hsettled|].
  split; [now rewrite spawnedCalls_workers, Hpost|].
  unfold summary.
  cbn [BenchmarkResult.totalConnections BenchmarkResult.successCount
       BenchmarkResult.errorCount BenchmarkResult.successRate
       BenchmarkResult.errors].
  destruct (copyResultsFrom_all_succeed copy (firstCopy + length surviving)
              surviving Hok)
    as [Hall Hnone].
  fold surviving. rewrite Hall, Hnone, copyResultsFrom_length, Hseven.
  cbn [map length]. rewrite app_nil_r.
  assert (Hlen : length (map generationMessage
                           (filter failed (generationResultsOf config gen)))
                 = 3%nat)
    by now rewrite length_map.
  rewrite firstn_all2 by (rewrite Hlen; lia).
  repeat split; try reflexivity. exact Hlen.
Qed.

Lemma three_of_ten_generations_fail_witness :
  let surviving :=
    filter FileGenerationResult.success
      (generationResultsOf Scenarios.threeOfTenConfig
                           Scenarios.threeOfTenGen) in
  exists r w' pre copyStartTime batches copyEndTime post,
    runTwoStageBenchmark Scenarios.threeOfTen Scenarios.threeOfTenConfig
                         initialWorld
    = (Returned r, w')
    /\ length surviving = 7%nat
    /\ trace w'
       = pre ++ [ClockRead copyStartTime]
         ++ (spawns 10 (map copyCall surviving) ++ batches)
         ++ [ClockRead copyEndTime] ++ post
    /\ spawnedWorkers batches = numbered 17 (map copyCall surviving)
    /\ copyInvocations batches
       = map FileGenerationResult.filePath surviving
    /\ settledPids batches = seq 17 7
    /\ spawnedCalls post = []
    /\ BenchmarkResult.totalConnections r = 7
    /\ BenchmarkResult.successCount r = 7
    /\ BenchmarkResult.errorCount r = 0
    /\ BenchmarkResult.successRate r = 1%float
    /\ BenchmarkResult.errors r
       = map generationMessage
             (filter failed
                (generationResultsOf Scenarios.threeOfTenConfig
                                     Scenarios.threeOfTenGen))
    /\ length (BenchmarkResult.errors r) = 3%nat.
Proof.
  apply (three_of_ten_generations_fail Scenarios.threeOfTen
           Scenarios.threeOfTenConfig Scenarios.threeOfTenGen
           Scenarios.threeOfTenCopy initialWorld).
  - intros; reflexivity.
  - intros; reflexivity.
  - reflexivity.
  - reflexivity.
  - intros; reflexivity.
Defined.

(** C4: the claim asks for percentiles read off the sorted latencies.  In
    the run [Scenarios.twoArtifacts] the two loads take 100 ms and 300 ms;
    sorting and indexing at [floor(n * p)], as the insert worker does, gives
    300 for p50, p95 and p99, while the result reports their mean, 200, in
    all three fields.  The single-stage aggregation does the same with the
    mean of the workers' means. *)
Theorem percentile_fields_hold_the_mean :
  let latencies := BenchmarkWorker.sortAscending [300%float; 100%float] in
  BenchmarkWorker.percentile latencies BenchmarkWorker.p50 = Some 300%float
  /\ BenchmarkWorker.percentile latencies BenchmarkWorker.p95
     = Some 300%float
  /\ BenchmarkWorker.percentile latencies BenchmarkWorker.p99
     = Some 300%float
  /\ (exists r w',
         runTwoStageBenchmark Scenarios.twoArtifacts
                              Scenarios.twoArtifactsConfig initialWorld
         = (Returned r, w')
         /\ BenchmarkResult.p50LatencyMs r = 200%float
         /\ BenchmarkResult.p95LatencyMs r = 200%float
         /\ BenchmarkResult.p99LatencyMs r = 200%float)
  /\ BenchmarkWorker.p50LatencyMs Scenarios.twoInsertsWorker
     = Some 300%float
  /\ (let r := SingleStage.aggregate (Scenarios.isoOf 0%float)
                 Scenarios.oneArtifactConfig [Scenarios.twoInsertsWorker] in
      BenchmarkResult.p50LatencyMs r = 200%float
      /\ BenchmarkResult.p95LatencyMs r = 200%float
      /\ BenchmarkResult.p99LatencyMs r = 200%float).
Proof.
  cbv zeta. repeat split; try (vm_compute; reflexivity).
  eexists. eexists. split; [vm_compute; reflexivity|].
  repeat split.
Qed.

(** C6: the reported throughput is measured over the load stage alone.
    The two clock readings that bound [duration] are taken after every
    generation worker has been spawned and awaited, and they enclose every
    Bulk Loader call and every await of the batches: stage 1 is over before
    the first reading, the workers of all batches are spawned and awaited
    between the two readings (the workers of the unbatched [copyPromises]
    are spawned there too and never awaited), and nothing is spawned or
    awaited after the second.  Both
    throughput fields divide by that duration; and when the single artifact
    of a run is loaded with [rowCount = 100], the records-per-second figure
    is 100 divided by the seconds between these two readings. *)
Theorem throughput_is_measured_over_the_copy_phase
    (env : Environment) (config : BenchmarkConfig.t)
    (gen : Z -> Z -> Z -> FileGenerationResult.t)
    (copy : nat -> Z -> Z -> string -> CopyExecutionResult.t) (w0 : World) :
  (forall workerId connectionId n,
      fileGeneration env workerId connectionId n
      = Resolved (gen workerId connectionId n)) ->
  (forall p workerId connectionId filePath,
      copyExecution env p workerId connectionId filePath
      = Resolved (copy p workerId connectionId filePath)) ->
  let successfulGenerations :=
    filter FileGenerationResult.success (generationResultsOf config gen) in
  let firstCopy := (nextPid w0 + length (generationUnits config))%nat in
  successfulGenerations <> [] ->
  exists r w' copyStartTime copyEndTime pre mid post,
    runTwoStageBenchmark env config w0 = (Returned r, w')
    /\ trace w'
       = trace w0 ++ pre ++ [ClockRead copyStartTime] ++ mid
         ++ [ClockRead copyEndTime] ++ post
    /\ spawnedCalls pre
       = map (generationCall (recordsPerConnectionOf config))
             (generationUnits config)
    /\ Forall (fun c => isCopy c = true) (spawnedCalls mid)
    /\ spawnedCalls post = []
    /\ spawnedWorkers pre
       = numbered (nextPid w0)
           (map (generationCall (recordsPerConnectionOf config))
                (generationUnits config))
    /\ settledPids pre
       = seq (nextPid w0) (length (generationUnits config))
    /\ spawnedWorkers mid
       = numbered firstCopy
           (map copyCall successfulGenerations
            ++ map copyCall successfulGenerations)
    /\ settledPids mid
       = seq (firstCopy + length successfulGenerations)
             (length successfulGenerations)
    /\ settledPids post = []
    /\ BenchmarkResult.duration r
       = PrimFloat.div (PrimFloat.sub copyEndTime copyStartTime) (Z2F 1000)
    /\ BenchmarkResult.throughputMBps r
       = PrimFloat.div (BenchmarkResult.totalDataSizeMB r)
                       (BenchmarkResult.duration r)
    /\ BenchmarkResult.throughputRecordsPerSecond r
       = PrimFloat.div (Z2F (BenchmarkResult.totalRecords r))
                       (BenchmarkResult.duration r)
    /\ (forall g,
           successfulGenerations = [g] ->
           let answer :=
             copy (nextPid w0 + length (generationUnits config) + 1)%nat
                  (FileGenerationResult.workerId g)
                  (FileGenerationResult.connectionId g)
                  (FileGenerationResult.filePath g) in
           CopyExecutionResult.success answer = true ->
           CopyExecutionResult.recordsInserted answer = 100 ->
           BenchmarkResult.throughputRecordsPerSecond r
           = PrimFloat.div
               (Z2F 100)
               (PrimFloat.div (PrimFloat.sub copyEndTime copyStartTime)
                              (Z2F 1000))).
Proof.
  intros Hgen Hcopy succ firstCopy Hsome.
  destruct (runTwoStageBenchmark_awaits env config gen copy Hgen Hcopy w0
              Hsome)
    as (t1 & t2 & t3 & pre & batches & post & w' & Hrun & Htr & Hpre
        & Hawaited & Hbatches & Hsettled & Hpost & Hquiet).
  fold succ in Hrun, Htr, Hbatches, Hsettled.
  fold firstCopy in Hrun, Htr, Hbatches, Hsettled.
  assert (Hmid : spawnedWorkers
                   (spawns firstCopy (map copyCall succ) ++ batches)
                 = numbered firstCopy
                     (map copyCall succ ++ map copyCall succ)).
  { rewrite spawnedWorkers_app, spawnedWorkers_spawns, Hbatches.
    now rewrite numbered_app, length_map. }
  eexists. exists w', t1, t2, pre,
    (spawns firstCopy (map copyCall succ) ++ batches), post.
  split; [exact Hrun|]. split; [exact Htr|].
  split; [now rewrite spawnedCalls_workers, Hpre, numbered_calls|].
  split.
  { rewrite spawnedCalls_workers, Hmid, numbered_calls.
    apply Forall_app. split; apply Forall_map;
      apply Forall_forall; intros; reflexivity. }
  split; [now rewrite spawnedCalls_workers, Hpost|].
  split; [exact Hpre|]. split; [exact Hawaited|]. split; [exact Hmid|].
  split; [now rewrite settledPids_app, settledPids_spawns, Hsettled|].
  split; [exact Hquiet|].
  unfold summary.
  cbn [BenchmarkResult.duration BenchmarkResult.throughputMBps
       BenchmarkResult.totalDataSizeMB BenchmarkResult.totalRecords
       BenchmarkResult.throughputRecordsPerSecond].
  do 3 (split; [reflexivity|]).
  intros g Hone Hok Hrows. rewrite Hone.
  cbn [length copyResultsFrom filter].
  unfold firstCopy. rewrite Hok.
  unfold sumZ. cbn [fold_left]. now rewrite Hrows.
Qed.

Lemma throughput_is_measured_over_the_copy_phase_witness :
  exists r w' copyStartTime copyEndTime pre mid post,
    runTwoStageBenchmark Scenarios.oneArtifact Scenarios.oneArtifactConfig
                         initialWorld
    = (Returned r, w')
    /\ trace w'
       = pre ++ [ClockRead copyStartTime] ++ mid
         ++ [ClockRead copyEndTime] ++ post
    /\ settledPids pre = [0%nat]
    /\ settledPids mid = [2%nat]
    /\ settledPids post = []
    /\ BenchmarkResult.throughputRecordsPerSecond r
       = PrimFloat.div
           (Z2F 100)
           (PrimFloat.div (PrimFloat.sub copyEndTime copyStartTime)
                          (Z2F 1000)).
Proof.
  destruct (throughput_is_measured_over_the_copy_phase
              Scenarios.oneArtifact Scenarios.oneArtifactConfig
              Scenarios.generated Scenarios.oneArtifactCopy initialWorld)
    as (r & w' & t1 & t2 & pre & mid & post & Hrun & Htr & _ & _ & _ & _
        & Hpre & _ & Hmid & Hpost & _ & _ & _ & Hhundred).
  - intros; reflexivity.
  - intros; reflexivity.
  - discriminate.
  - exists r, w', t1, t2, pre, mid, post.
    split; [exact Hrun|]. split; [exact Htr|]. split; [exact Hpre|].
    split; [exact Hmid|]. split; [exact Hpost|].
    apply (Hhundred (Scenarios.generated 0 0 1365)); reflexivity.
Defined.

(** C8: when every generation unit fails, the run ends with the fatal error
    and produces no result; no Bulk Loader call has been made, and the only
    workers ever spawned are the generation workers. *)
Theorem no_successful_generation_is_fatal
    (env : Environment) (config : BenchmarkConfig.t)
    (gen : Z -> Z -> Z -> FileGenerationResult.t) (w0 : World) :
  (forall workerId connectionId n,
      fileGeneration env workerId connectionId n
      = Resolved (gen workerId connectionId n)) ->
  Forall (fun g => FileGenerationResult.success g = false)
         (generationResultsOf config gen) ->
  exists w',
    runTwoStageBenchmark env config w0
    = (Thrown "No CSV files were generated successfully", w')
    /\ copyInvocations (trace w') = copyInvocations (trace w0)
    /\ spawnedCalls (trace w')
       = spawnedCalls (trace w0)
         ++ map (generationCall (recordsPerConnectionOf config))
                (generationUnits config).
Proof.
  intros Hgen Hfail.
  assert (Hnone : filter FileGenerationResult.success
                         (generationResultsOf config gen) = []).
  { induction Hfail as [|g gs Hg _ IH]; [reflexivity|].
    cbn. now rewrite Hg. }
  destruct (runTwoStageBenchmark_no_artifact env config gen Hgen w0 Hnone)
    as (w' & Hrun & Hcalls).
  exists w'. split; [exact Hrun|]. split; [|exact Hcalls].
  rewrite !copyInvocations_spawned, Hcalls, flat_map_app.
  now rewrite copyPath_generation, app_nil_r.
Qed.

Lemma no_successful_generation_is_fatal_witness :
  exists w',
    runTwoStageBenchmark Scenarios.noArtifact Scenarios.threeOfTenConfig
                         initialWorld
    = (Thrown "No CSV files were generated successfully", w')
    /\ copyInvocations (trace w') = copyInvocations (trace initialWorld)
    /\ spawnedCalls (trace w')
       = spawnedCalls (trace initialWorld)
         ++ map (generationCall
                   (recordsPerConnectionOf Scenarios.threeOfTenConfig))
                (generationUnits Scenarios.threeOfTenConfig).
Proof.
  apply (no_successful_generation_is_fatal Scenarios.noArtifact
           Scenarios.threeOfTenConfig Scenarios.notGenerated initialWorld).
  - intros; reflexivity.
  - repeat constructor.
Defined.

(** C9, as the claim states it, fails: the entries of [errors] need not be
    distinct.  In the run [Scenarios.threeOfTen] the three failed generation
    workers report the same message, and [errors] holds it three times. *)
Lemma errors_are_not_deduplicated :
  exists r w',
    runTwoStageBenchmark Scenarios.threeOfTen Scenarios.threeOfTenConfig
                         initialWorld
    = (Returned r, w')
    /\ BenchmarkResult.errors r
       = [Scenarios.EACCES; Scenarios.EACCES; Scenarios.EACCES]
    /\ ~ NoDup (BenchmarkResult.errors r).
Proof.
  eexists. eexists. split; [vm_compute; reflexivity|].
  cbn [BenchmarkResult.errors]. split; [reflexivity|].
  intros Hdup. inversion Hdup as [|x l Hnotin _]. apply Hnotin. now left.
Qed.

(** C9 (amended): whenever at least one generation succeeds, the run
    returns a result, also when other workers failed.  Its [errors] field
    holds the first ten error messages, duplicates included: those of the
    failed generations in generation order, then those of the failed copies
    in batch order, a missing or empty message being replaced by a fixed
    text.  Its [successRate] is the share of successful copies among the
    copies of the batches. *)
Theorem errors_are_the_first_ten_messages
    (env : Environment) (config : BenchmarkConfig.t)
    (gen : Z -> Z -> Z -> FileGenerationResult.t)
    (copy : nat -> Z -> Z -> string -> CopyExecutionResult.t) (w0 : World) :
  (forall workerId connectionId n,
      fileGeneration env workerId connectionId n
      = Resolved (gen workerId connectionId n)) ->
  (forall p workerId connectionId filePath,
      copyExecution env p workerId connectionId filePath
      = Resolved (copy p workerId connectionId filePath)) ->
  let generationResults := generationResultsOf config gen in
  let successfulGenerations :=
    filter FileGenerationResult.success generationResults in
  let copyResults :=
    copyResultsFrom copy
      (nextPid w0 + length (generationUnits config)
       + length successfulGenerations)
      successfulGenerations in
  successfulGenerations <> [] ->
  exists r w',
    runTwoStageBenchmark env config w0 = (Returned r, w')
    /\ BenchmarkResult.errors r
       = firstn 10
           (map generationMessage (filter failed generationResults)
            ++ map copyMessage (filter failedCopy copyResults))
    /\ (length (BenchmarkResult.errors r) <= 10)%nat
    /\ BenchmarkResult.successCount r
       = Z.of_nat (length (filter CopyExecutionResult.success copyResults))
    /\ BenchmarkResult.errorCount r
       = Z.of_nat (length (filter failedCopy copyResults))
    /\ BenchmarkResult.successRate r
       = PrimFloat.div
           (Z2F (BenchmarkResult.successCount r))
           (Z2F (BenchmarkResult.successCount r
                 + BenchmarkResult.errorCount r)).
Proof.
  intros Hgen Hcopy gens succ copies Hsome.
  destruct (runTwoStageBenchmark_resolved env config gen copy Hgen Hcopy w0
              Hsome)
    as (t1 & t2 & t3 & pre & mid & post & w' & Hrun & _).
  eexists. exists w'. split; [exact Hrun|].
  unfold summary.
  cbn [BenchmarkResult.errors BenchmarkResult.successCount
       BenchmarkResult.errorCount BenchmarkResult.successRate].
  split; [reflexivity|]. split; [apply firstn_le_length|].
  repeat split.
Qed.

Lemma errors_are_the_first_ten_messages_witness :
  exists r w',
    runTwoStageBenchmark Scenarios.threeOfTen Scenarios.threeOfTenConfig
                         initialWorld
    = (Returned r, w')
    /\ BenchmarkResult.errors r
       = [Scenarios.EACCES; Scenarios.EACCES; Scenarios.EACCES]
    /\ BenchmarkResult.successRate r = 1%float.
Proof.
  destruct (errors_are_the_first_ten_messages Scenarios.threeOfTen
              Scenarios.threeOfTenConfig Scenarios.threeOfTenGen
              Scenarios.threeOfTenCopy initialWorld)
    as (r & w' & Hrun & Herrors & _ & Hok & Hko & Hrate).
  - intros; reflexivity.
  - intros; reflexivity.
  - discriminate.
  - exists r, w'. split; [exact Hrun|]. split.
    + rewrite Herrors. reflexivity.
    + rewrite Hrate, Hok, Hko. reflexivity.
Defined.

(** C10: in the result of a two-stage run, [totalConnections] is the number
    of generation units that succeeded, not the product of workers and
    connections per worker, and [batchSize] is the computed number of
    records per connection, not the configured batch size. *)
Theorem totalConnections_counts_successful_generations
    (env : Environment) (config : BenchmarkConfig.t)
    (gen : Z -> Z -> Z -> FileGenerationResult.t)
    (copy : nat -> Z -> Z -> string -> CopyExecutionResult.t) (w0 : World) :
  (forall workerId connectionId n,
      fileGeneration env workerId connectionId n
      = Resolved (gen workerId connectionId n)) ->
  (forall p workerId connectionId filePath,
      copyExecution env p workerId connectionId filePath
      = Resolved (copy p workerId connectionId filePath)) ->
  let successfulGenerations :=
    filter FileGenerationResult.success (generationResultsOf config gen) in
  successfulGenerations <> [] ->
  exists r w',
    runTwoStageBenchmark env config w0 = (Returned r, w')
    /\ BenchmarkResult.totalConnections r
       = Z.of_nat (length successfulGenerations)
    /\ BenchmarkResult.batchSize r
       = (BenchmarkConfig.dataSizeMB config * 1024 * 1024)
         / (BenchmarkConfig.minWorkers config
            * BenchmarkConfig.connectionsPerWorker config * 75 * 1024).
Proof.
  intros Hgen Hcopy succ Hsome.
  destruct (runTwoStageBenchmark_resolved env config gen copy Hgen Hcopy w0
              Hsome)
    as (t1 & t2 & t3 & pre & mid & post & w' & Hrun & _).
  eexists. exists w'. split; [exact Hrun|]. now split.
Qed.

Lemma totalConnections_counts_successful_generations_witness :
  exists r w',
    runTwoStageBenchmark Scenarios.threeOfTen Scenarios.threeOfTenConfig
                         initialWorld
    = (Returned r, w')
    /\ BenchmarkResult.totalConnections r = 7
    /\ BenchmarkConfig.minWorkers Scenarios.threeOfTenConfig
       * BenchmarkConfig.connectionsPerWorker Scenarios.threeOfTenConfig
       = 10
    /\ BenchmarkResult.batchSize r = 136
    /\ BenchmarkConfig.batchSize Scenarios.threeOfTenConfig = 100.
Proof.
  destruct (totalConnections_counts_successful_generations
              Scenarios.threeOfTen Scenarios.threeOfTenConfig
              Scenarios.threeOfTenGen Scenarios.threeOfTenCopy initialWorld)
    as (r & w' & Hrun & Htotal & Hbatch).
  - intros; reflexivity.
  - intros; reflexivity.
  - discriminate.
  - exists r, w'. split; [exact Hrun|].
    rewrite Htotal, Hbatch. repeat split.
Defined.

End TwoStageFacts.

(** ** The generator's filling loop *)

Module GeneratorFacts.
Import Json DataGenerator.

Lemma length_append (a b : string) :
  String.length (a ++ b) = (String.length a + String.length b)%nat.
Proof. induction a as [|c a IH]; cbn; [reflexivity | now rewrite IH]. Qed.

Lemma concat_length (lines : list string) :
  lines <> [] ->
  Z.of_nat (String.length (String.concat separator lines)) + 2
  = fold_right (fun l acc => Z.of_nat (String.length l) + 2 + acc) 0 lines.
Proof.
  induction lines as [|l lines IH]; [contradiction|]. intros _.
  destruct lines as [|l' lines].
  - cbn. lia.
  - change (String.concat separator (l :: l' :: lines))
      with (l ++ separator ++ String.concat separator (l' :: lines))%string.
    rewrite !length_append.
    change (fold_right _ 0 (l :: l' :: lines))
      with (Z.of_nat (String.length l) + 2
            + fold_right
                (fun l acc => Z.of_nat (String.length l) + 2 + acc) 0
                (l' :: lines)).
    rewrite <- IH by discriminate.
    change (String.length separator) with 2%nat. lia.
Qed.

(** The size of the text of a top-level object. *)
Lemma object_size (members : list (string * value)) :
  byteLength (stringify (JObject members)) = 2 + membersCost members.
Proof.
  destruct members as [|m members]; [reflexivity|].
  unfold stringify, byteLength.
  change (render 0 (JObject (m :: members)))
    with ("{" ++ newline
          ++ String.concat separator (map memberLine (m :: members))
          ++ newline ++ indent 0 ++ "}")%string.
  rewrite !length_append.
  change (String.length "{") with 1%nat.
  change (String.length newline) with 1%nat.
  change (String.length (indent 0)) with 0%nat.
  change (String.length "}") with 1%nat.
  pose proof (concat_length (map memberLine (m :: members))) as H.
  assert (Hcost : fold_right
                    (fun l acc => Z.of_nat (String.length l) + 2 + acc) 0
                    (map memberLine (m :: members))
                  = membersCost (m :: members)).
  { unfold membersCost. generalize (m :: members). intros ms.
    induction ms as [|x ms IHms]; cbn; [reflexivity | now rewrite IHms]. }
  rewrite Hcost in H. specialize (H ltac:(discriminate)).
  cbn [map] in H |- *. lia.
Qed.

(** Setting a member never costs more than appending it. *)
Lemma setMember_cost (key : string) (item : value)
    (members : list (string * value)) :
  membersCost (setMember key item members)
  <= membersCost members + membersCost [(key, item)].
Proof.
  unfold membersCost.
  induction members as [|[k v] members IH]; cbn [setMember].
  - cbn [fold_right]. lia.
  - destruct (String.eqb_spec k key) as [->|_];
      cbn [fold_right] in *; lia.
Qed.

(** Merging one filler into the object: the new text is at least two bytes
    shorter than the two texts together. *)
Lemma merge_size (members : list (string * value)) (d : FillerDraws) :
  byteLength (stringify (JObject (Object_assign members (additionalData d))))
  <= byteLength (stringify (JObject members))
     + byteLength (stringify (JObject (additionalData d))) - 2.
Proof.
  rewrite !object_size. unfold Object_assign, additionalData.
  cbn [fold_left fst snd].
  match goal with
  | |- context [setMember ?k ?v members] =>
      pose proof (setMember_cost k v members)
  end.
  lia.
Qed.

(** The loop, from any state in which the text is still below the target:
    it can only end at the [break], with a text below the target that the
    rejected filler would have carried beyond it. *)
Lemma fill_stops_below_target (targetSizeBytes : Z)
    (fillers : list FillerDraws) :
  forall (currentData : list (string * value)) (text : string),
    byteLength (stringify (JObject currentData)) < targetSizeBytes ->
    fill targetSizeBytes currentData (stringify (JObject currentData))
         (byteLength (stringify (JObject currentData))) fillers
    = Some text ->
    byteLength text < targetSizeBytes
    /\ exists d,
         In d fillers
         /\ targetSizeBytes
            < byteLength text
              + byteLength (stringify (JObject (additionalData d))).
Proof.
  induction fillers as [|d fillers IH]; intros currentData text Hbelow Hfill;
    cbn [fill] in Hfill;
    destruct (Z.ltb_spec (byteLength (stringify (JObject currentData)))
                         targetSizeBytes) as [_|Hge]; try lia.
  - discriminate.
  - cbv zeta in Hfill.
    destruct (Z.gtb_spec
                (byteLength (stringify (JObject currentData))
                 + byteLength (stringify (JObject (additionalData d))))
                targetSizeBytes) as [Hover|Hfits].
    + injection Hfill as <-. split; [exact Hbelow|].
      exists d. split; [now left | lia].
    + pose proof (merge_size currentData d) as Hmerge.
      destruct (IH (Object_assign currentData (additionalData d)) text
                  ltac:(lia) Hfill) as (Htext & d' & Hin & Hd').
      split; [exact Htext|]. exists d'. split; [now right | exact Hd'].
Qed.

(** *** The loop ends *)

Lemma membersCost_app (a b : list (string * value)) :
  membersCost (a ++ b) = membersCost a + membersCost b.
Proof.
  unfold membersCost. induction a as [|m a IH]; cbn [app fold_right];
    [reflexivity | rewrite IH; lia].
Qed.

(** A key that is not yet in the object goes to its end. *)
Lemma setMember_fresh (key : string) (item : value)
    (members : list (string * value)) :
  ~ In key (map fst members) ->
  setMember key item members = members ++ [(key, item)].
Proof.
  induction members as [|[k v] members IH]; intros Hfresh; [reflexivity|].
  cbn [setMember]. destruct (String.eqb_spec k key) as [->|_].
  - exfalso. apply Hfresh. now left.
  - cbn [app]. f_equal. apply IH. intros Hin. apply Hfresh. now right.
Qed.

(** With fillers of pairwise different keys, none of them in the object
    yet, every merge grows the text by the filler's size less two bytes; a
    supply whose sizes add up to the distance from the target is therefore
    enough for the loop to end. *)
Lemma fill_returns (targetSizeBytes c : Z) (fillers : list FillerDraws) :
  0 < c ->
  forall currentData : list (string * value),
    NoDup (map fillerKey fillers) ->
    Forall (fun d => ~ In (fillerKey d) (map fst currentData)) fillers ->
    Forall (fun d =>
              c <= byteLength (stringify (JObject (additionalData d))) - 2)
           fillers ->
    targetSizeBytes - byteLength (stringify (JObject currentData))
    < c * Z.of_nat (length fillers) ->
    exists text,
      fill targetSizeBytes currentData (stringify (JObject currentData))
           (byteLength (stringify (JObject currentData))) fillers
      = Some text.
Proof.
  intros Hc.
  induction fillers as [|d fillers IH];
    intros currentData Hdup Hfresh Hsize Hsupply; cbn [fill];
    destruct (Z.ltb_spec (byteLength (stringify (JObject currentData)))
                         targetSizeBytes) as [Hbelow|Hreached];
    try (eexists; reflexivity).
  - cbn [length] in Hsupply. lia.
  - cbv zeta.
    destruct (Z.gtb_spec
                (byteLength (stringify (JObject currentData))
                 + byteLength (stringify (JObject (additionalData d))))
                targetSizeBytes) as [_|_];
      [eexists; reflexivity|].
    inversion Hdup as [|? ? Hd Hdup']; subst.
    inversion Hfresh as [|? ? Hfd Hfresh']; subst.
    inversion Hsize as [|? ? Hsd Hsize']; subst.
    assert (Hmerged : Object_assign currentData (additionalData d)
                      = currentData ++ additionalData d).
    { unfold Object_assign, additionalData. cbn [fold_left fst snd].
      now apply setMember_fresh. }
    rewrite Hmerged. apply IH; [exact Hdup' | | exact Hsize' |].
    + rewrite map_app. apply Forall_forall. intros d' Hin Hkey.
      apply in_app_or in Hkey as [Hkey|Hkey].
      * rewrite Forall_forall in Hfresh'. now apply (Hfresh' d').
      * change (map fst (additionalData d)) with [fillerKey d] in Hkey.
        destruct Hkey as [Hkey|[]].
        apply Hd. rewrite Hkey. now apply in_map.
    + rewrite !object_size in *. rewrite membersCost_app.
      cbn [length] in Hsupply. lia.
Qed.

(** The keys of the initial document are not filler keys. *)
Lemma fillerKey_not_in_baseData (base : BaseDraws) (d : FillerDraws) :
  ~ In (fillerKey d) (map fst (baseData base)).
Proof.
  unfold fillerKey. cbn. intros H.
  repeat (destruct H as [H|H]; [discriminate|]). exact H.
Qed.

(** Enough fuel: the generator returns a record when its supply of fillers
    has pairwise different keys and is large enough. *)
Lemma generateCapturedText_returns (draws : RecordDraws) (c : Z) :
  0 < c ->
  NoDup (map fillerKey (draw_fillers draws)) ->
  Forall (fun d =>
            c <= byteLength (stringify (JObject (additionalData d))) - 2)
         (draw_fillers draws) ->
  targetSizeBytesOf (draw_target draws)
  - byteLength (stringify (JObject (baseData (draw_base draws))))
  < c * Z.of_nat (length (draw_fillers draws)) ->
  exists record, generateCapturedText draws = Some record.
Proof.
  intros Hc Hdup Hsize Hsupply.
  unfold generateCapturedText, generateLargeJsonText.
  destruct (fill_returns (targetSizeBytesOf (draw_target draws)) c
              (draw_fillers draws) Hc (baseData (draw_base draws)) Hdup)
    as (text & ->);
    [| exact Hsize | exact Hsupply | eexists; reflexivity].
  apply Forall_forall. intros d _. apply fillerKey_not_in_baseData.
Qed.

(** C5, as the claim states it, fails: the payload does not reach the
    target.  With the draws [Scenarios.sampleRecordDraws] the target is
    51200 bytes and the text of the generated record has 49424 bytes; the
    next filler, of 2088 bytes, was refused because it would have crossed
    the target. *)
Lemma generated_text_is_below_the_target :
  exists record,
    generateCapturedText Scenarios.sampleRecordDraws = Some record
    /\ targetSizeBytesOf (draw_target Scenarios.sampleRecordDraws) = 51200
    /\ byteLength (CapturedText.text record) = 49424
    /\ ~ (targetSizeBytesOf (draw_target Scenarios.sampleRecordDraws)
          <= byteLength (CapturedText.text record)).
Proof.
  assert (H : option_map (fun t => byteLength t)
                (generateLargeJsonText 0 Scenarios.sampleBase
                                       Scenarios.sampleFillers)
              = Some 49424)
    by (vm_compute; reflexivity).
  unfold generateCapturedText. cbn [draw_target draw_base draw_fillers
    Scenarios.sampleRecordDraws].
  destruct (generateLargeJsonText 0 Scenarios.sampleBase
                                  Scenarios.sampleFillers) as [text|];
    [|discriminate].
  cbn in H. injection H as Hsize.
  eexists. split; [reflexivity|]. cbn [CapturedText.text].
  rewrite Hsize. repeat split. cbv. intros Hle. now apply Hle.
Qed.

(** C5 (amended): the text of every generated record stays below the chosen
    target and lies within one filler increment of it: the loop ends at a
    filler whose own text, added to the record's, would pass the target.
    (The initial document, about 3.5 KB, is below every target of the
    50-100 KB range.) *)
Theorem generated_text_is_within_one_filler_below_the_target
    (draws : RecordDraws) (record : CapturedText.t) :
  generateCapturedText draws = Some record ->
  byteLength (stringify (JObject (baseData (draw_base draws))))
  < targetSizeBytesOf (draw_target draws) ->
  exists filler,
    In filler (draw_fillers draws)
    /\ let minBytes := targetSizeBytesOf (draw_target draws) in
       let oneFillerIncrement :=
         byteLength (stringify (JObject (additionalData filler))) in
       let serializedSize := byteLength (CapturedText.text record) in
       minBytes - oneFillerIncrement < serializedSize
       /\ serializedSize < minBytes.
Proof.
  unfold generateCapturedText, generateLargeJsonText.
  intros Hrecord Hbase.
  destruct (fill _ _ _ _ _) as [text|] eqn:Hfill; [|discriminate].
  injection Hrecord as <-. cbn [CapturedText.text].
  destruct (fill_stops_below_target _ _ _ _ Hbase Hfill)
    as (Hbelow & filler & Hin & Hover).
  exists filler. split; [exact Hin|]. cbv zeta. lia.
Qed.

Lemma generated_text_is_within_one_filler_below_the_target_witness :
  exists record filler,
    generateCapturedText Scenarios.sampleRecordDraws = Some record
    /\ In filler Scenarios.sampleFillers
    /\ 51200 - byteLength (stringify (JObject (additionalData filler)))
       < byteLength (CapturedText.text record)
    /\ byteLength (CapturedText.text record) < 51200.
Proof.
  assert (Hsome : option_map (fun _ => tt)
                    (generateCapturedText Scenarios.sampleRecordDraws)
                  = Some tt)
    by (vm_compute; reflexivity).
  destruct (generateCapturedText Scenarios.sampleRecordDraws)
    as [record|] eqn:Hrecord.
  - destruct (generated_text_is_within_one_filler_below_the_target
                Scenarios.sampleRecordDraws record Hrecord)
      as (filler & Hin & Hlow & Hhigh).
    + vm_compute. reflexivity.
    + exists record, filler. repeat split; assumption.
  - discriminate.
Defined.

End GeneratorFacts.

(** ** The CSV row and the RFC 4180 reader *)

Module CsvFacts.
Import CsvUtils Rfc4180.

Lemma append_empty (s : string) : (s ++ EmptyString)%string = s.
Proof. induction s as [|a s IH]; cbn; [reflexivity | now rewrite IH]. Qed.

Lemma string_of_rev_app (s : string) (field : list ascii) :
  string_of_list_ascii (rev (rev (list_ascii_of_string s) ++ field))
  = (string_of_list_ascii (rev field) ++ s)%string.
Proof.
  rewrite rev_app_distr, rev_involutive.
  induction (rev field) as [|c l IH]; cbn.
  - apply string_of_list_ascii_of_string.
  - now rewrite IH.
Qed.

(** Inside the quotes the reader undoes the doubling, whatever the field
    holds. *)
Lemma scan_escaped (s : string) :
  forall (field : list ascii) (fields : list string) (rest : string),
    endsField rest ->
    scan Escaped field fields (doubleQuotes s ++ String DQUOTE rest)
    = afterField fields
        (string_of_list_ascii
           (rev (rev (list_ascii_of_string s) ++ field))) rest.
Proof.
  induction s as [|c s IH]; intros field fields rest Hrest.
  - cbn [doubleQuotes append list_ascii_of_string rev app scan].
    change (Ascii.eqb DQUOTE DQUOTE) with true. cbv iota.
    destruct Hrest as [->|(more & ->)]; [reflexivity|].
    cbn [scan afterField].
    change (Ascii.eqb COMMA DQUOTE) with false.
    change (Ascii.eqb COMMA COMMA) with true. reflexivity.
  - cbn [doubleQuotes list_ascii_of_string].
    destruct (Ascii.eqb_spec c DQUOTE) as [->|Hc].
    + cbn [append scan]. change (Ascii.eqb DQUOTE DQUOTE) with true.
      cbv iota. rewrite (IH _ _ _ Hrest).
      cbn [rev]. now rewrite <- app_assoc.
    + cbn [append scan].
      destruct (Ascii.eqb_spec c DQUOTE) as [|_]; [contradiction|].
      rewrite (IH _ _ _ Hrest). cbn [rev]. now rewrite <- app_assoc.
Qed.

Lemma includes_false_cons (c a : ascii) (s : string) :
  includes c (String a s) = false ->
  Ascii.eqb a c = false /\ includes c s = false.
Proof. cbn. now intros [? ?]%orb_false_iff. Qed.

(** Outside quotes the reader takes the bytes as they are, as long as none
    of them is a comma, a quote or a line break. *)
Lemma scan_nonEscaped (s : string) :
  forall (field : list ascii) (fields : list string) (rest : string),
    includes COMMA s = false -> includes DQUOTE s = false ->
    includes LF s = false -> includes CR s = false ->
    endsField rest ->
    scan NonEscaped field fields (s ++ rest)
    = afterField fields
        (string_of_list_ascii
           (rev (rev (list_ascii_of_string s) ++ field))) rest.
Proof.
  induction s as [|c s IH];
    intros field fields rest Hcomma Hquote Hlf Hcr Hrest.
  - cbn [append list_ascii_of_string rev app].
    destruct Hrest as [->|(more & ->)]; [reflexivity|].
    cbn [scan afterField].
    change (Ascii.eqb COMMA COMMA) with true. reflexivity.
  - apply includes_false_cons in Hcomma as [Hc1 Hcomma].
    apply includes_false_cons in Hquote as [Hc2 Hquote].
    apply includes_false_cons in Hlf as [Hc3 Hlf].
    apply includes_false_cons in Hcr as [Hc4 Hcr].
    cbn [append scan list_ascii_of_string]. unfold isStructural.
    rewrite Hc1, Hc2, Hc3, Hc4. cbn [orb].
    rewrite (IH _ _ _ Hcomma Hquote Hlf Hcr Hrest).
    cbn [rev]. now rewrite <- app_assoc.
Qed.

(** One field of the row, read back. *)
Lemma scan_field (value : JsValue) (fields : list string) (rest : string) :
  includes CR (serializedField value) = false ->
  endsField rest ->
  scan FieldStart [] fields (escapeCsvValue value ++ rest)
  = afterField fields (serializedField value) rest.
Proof.
  intros Hcr Hrest.
  assert (Hempty : scan FieldStart [] fields (EmptyString ++ rest)
                   = afterField fields EmptyString rest).
  { destruct Hrest as [->|(more & ->)]; [reflexivity|].
    cbn [append scan afterField].
    change (Ascii.eqb COMMA DQUOTE) with false.
    change (Ascii.eqb COMMA COMMA) with true. reflexivity. }
  assert (Htext : forall str,
             includes CR str = false ->
             scan FieldStart [] fields
               ((if includes COMMA str || includes DQUOTE str
                    || includes LF str
                 then String DQUOTE
                        (doubleQuotes str ++ String DQUOTE EmptyString)
                 else str) ++ rest)
             = afterField fields str rest).
  { intros str Hstr.
    destruct (includes COMMA str || includes DQUOTE str || includes LF str)
      eqn:Hquoted.
    - cbn [append scan]. change (Ascii.eqb DQUOTE DQUOTE) with true.
      cbv iota.
      replace ((doubleQuotes str ++ String DQUOTE EmptyString) ++ rest)%string
        with (doubleQuotes str ++ String DQUOTE rest)%string.
      2:{ induction (doubleQuotes str) as [|a d IHd]; cbn;
            [reflexivity | now rewrite IHd]. }
      rewrite (scan_escaped str [] fields rest Hrest).
      now rewrite app_nil_r, rev_involutive, string_of_list_ascii_of_string.
    - apply orb_false_iff in Hquoted as [Hquoted Hlf].
      apply orb_false_iff in Hquoted as [Hcomma Hquote].
      destruct str as [|c str]; [exact Hempty|].
      apply includes_false_cons in Hcomma as [Hc1 Hcomma].
      apply includes_false_cons in Hquote as [Hc2 Hquote].
      apply includes_false_cons in Hlf as [Hc3 Hlf].
      apply includes_false_cons in Hstr as [Hc4 Hstr].
      cbn [append scan]. unfold isStructural.
      rewrite Hc1, Hc2, Hc3, Hc4. cbn [orb].
      rewrite (scan_nonEscaped str [c] fields rest Hcomma Hquote Hlf Hstr
                 Hrest).
      rewrite string_of_rev_app. reflexivity. }
  destruct value as [| |s|z|b]; try exact Hempty;
    unfold escapeCsvValue; apply Htext; exact Hcr.
Qed.

(** A whole row, read back field by field. *)
Lemma scan_row (values : list JsValue) :
  values <> [] ->
  Forall (fun v => includes CR (serializedField v) = false) values ->
  forall fields,
    scan FieldStart [] fields
         (String.concat "," (map escapeCsvValue values))
    = Some (rev fields ++ map serializedField values).
Proof.
  induction values as [|v values IH]; [contradiction|].
  intros _ Hclean fields. inversion Hclean as [|? ? Hv Hvalues]; subst.
  destruct values as [|v' values].
  - cbn [map String.concat].
    rewrite <- (append_empty (escapeCsvValue v)).
    rewrite (scan_field v fields EmptyString Hv (or_introl eq_refl)).
    reflexivity.
  - change (String.concat "," (map escapeCsvValue (v :: v' :: values)))
      with (escapeCsvValue v
            ++ String COMMA
                 (String.concat "," (map escapeCsvValue (v' :: values))))%string.
    rewrite (scan_field v fields _ Hv (or_intror (ex_intro _ _ eq_refl))).
    cbn [afterField]. rewrite IH by (try discriminate; assumption).
    cbn [rev map]. now rewrite <- app_assoc.
Qed.

(** The writer and the reader agree on every record none of whose fields
    holds a carriage return. *)
Lemma round_trip_without_carriage_return (record : CapturedText.t) :
  Forall (fun s => includes CR s = false) (serializedFields record) ->
  parseRecord (convertToCsvRow record) = Some (serializedFields record).
Proof.
  intros Hclean. unfold parseRecord, convertToCsvRow, serializedFields.
  rewrite scan_row; [reflexivity | discriminate |].
  unfold serializedFields in Hclean. now apply Forall_map in Hclean.
Qed.

(** What [escapeCsvValue] looks for is a comma, a double quote and a line
    feed, nothing else.  The record [Scenarios.plainRecord], whose text
    holds all three, is read back field for field.  A record built by hand
    with a carriage return in its name, [Scenarios.carriageReturnRecord],
    is not: the name is written without quotes.  The generator creates no
    such record (see [GeneratedRecordFacts] below), and
    [convertToCsvRow] is called with generated records only. *)
Lemma carriage_return_is_written_unquoted :
  parseRecord (convertToCsvRow Scenarios.plainRecord)
  = Some (serializedFields Scenarios.plainRecord)
  /\ includes CR (CapturedText.name Scenarios.carriageReturnRecord) = true
  /\ escapeCsvValue (VString (CapturedText.name Scenarios.carriageReturnRecord))
     = CapturedText.name Scenarios.carriageReturnRecord
  /\ parseRecord (convertToCsvRow Scenarios.carriageReturnRecord) = None
  /\ parseRecord (convertToCsvRow Scenarios.carriageReturnRecord)
     <> Some (serializedFields Scenarios.carriageReturnRecord).
Proof.
  split; [apply round_trip_without_carriage_return; repeat constructor|].
  repeat split; try (vm_compute; reflexivity).
  assert (H : parseRecord (convertToCsvRow Scenarios.carriageReturnRecord)
              = None) by (vm_compute; reflexivity).
  rewrite H. discriminate.
Qed.

End CsvFacts.

(** ** More about the coordinator *)

Module CoordinatorFacts.
Import Js TwoStage TwoStageTrace TwoStageFacts.

(** *** What a stretch of trace hands to cleanup *)

Lemma cleanedFiles_app (tr1 tr2 : list Event) :
  cleanedFiles (tr1 ++ tr2) = cleanedFiles tr1 ++ cleanedFiles tr2.
Proof.
  induction tr1 as [|e tr1 IH]; [reflexivity|].
  destruct e; cbn; now rewrite IH.
Qed.

Lemma cleanedFiles_spawns (p : nat) (calls : list Call) :
  cleanedFiles (spawns p calls) = [].
Proof. revert p. induction calls; intros p; cbn; auto. Qed.

Lemma cleanedFiles_settles {A : Type} (ps : list (Promise A)) :
  cleanedFiles (settles ps) = [].
Proof. induction ps; cbn; auto. Qed.

Lemma cleanedFiles_cleanup (paths : list string) :
  cleanedFiles (map CleanupFile paths) = paths.
Proof. induction paths; cbn; [|rewrite IHpaths]; auto. Qed.

(** *** Computations that leave the files alone *)

Lemma leavesFiles_ret {A : Type} (a : A) : leavesFiles (ret a).
Proof. intros w. exists []. cbn. now rewrite app_nil_r. Qed.

Lemma leavesFiles_throw {A : Type} (message : string) :
  leavesFiles (@throw A message).
Proof. intros w. exists []. cbn. now rewrite app_nil_r. Qed.

Lemma leavesFiles_bind {A B : Type} (m : M A) (k : A -> M B) :
  leavesFiles m -> (forall a, leavesFiles (k a)) -> leavesFiles (bind m k).
Proof.
  intros Hm Hk w. unfold bind. destruct (Hm w) as (tr1 & Htr1 & Hc1).
  destruct (m w) as [[a| |] w1]; cbn [snd] in *.
  - destruct (Hk a w1) as (tr2 & Htr2 & Hc2).
    exists (tr1 ++ tr2). rewrite Htr2, Htr1, <- app_assoc.
    split; [reflexivity|]. now rewrite cleanedFiles_app, Hc1, Hc2.
  - now exists tr1.
  - now exists tr1.
Qed.

Lemma leavesFiles_mapM {A B : Type} (f : A -> M B) (xs : list A) :
  (forall x, leavesFiles (f x)) -> leavesFiles (mapM f xs).
Proof.
  intros Hf. induction xs as [|x xs IH]; cbn [mapM].
  - apply leavesFiles_ret.
  - apply leavesFiles_bind; [apply Hf|]. intros y.
    apply leavesFiles_bind; [exact IH|]. intros ys. apply leavesFiles_ret.
Qed.

Lemma leavesFiles_settled (p : nat) : leavesFiles (emit (Settled p)).
Proof. intros w. now exists [Settled p]. Qed.

Lemma leavesFiles_Promise_all {A : Type} (ps : list (Promise A)) :
  leavesFiles (Promise_all ps).
Proof.
  induction ps as [|p ps IH]; cbn [Promise_all].
  - apply leavesFiles_ret.
  - destruct (outcome p).
    + apply leavesFiles_bind; [apply leavesFiles_settled|]. intros _.
      apply leavesFiles_bind; [exact IH|]. intros rest.
      apply leavesFiles_ret.
    + apply leavesFiles_bind; [apply leavesFiles_settled|]. intros _.
      apply leavesFiles_throw.
Qed.

Lemma leavesFiles_Date_now (env : Environment) : leavesFiles (Date_now env).
Proof. intros w. now exists [ClockRead (clock env (ticks w))]. Qed.

Lemma leavesFiles_runCopyExecution (env : Environment)
    (config : BenchmarkConfig.t) (workerId connectionId : Z)
    (filePath : string) :
  leavesFiles (runCopyExecution env config workerId connectionId filePath).
Proof.
  intros w.
  now exists [Spawned (nextPid w)
                (CopyExecution workerId connectionId filePath)].
Qed.

(** The batch loop hands nothing to cleanup, however it ends. *)
Lemma leavesFiles_copyBatches (env : Environment)
    (config : BenchmarkConfig.t)
    (successfulGenerations : list FileGenerationResult.t)
    (maxConcurrentCopies fuel : nat) :
  forall (i : nat) (copyResults : list CopyExecutionResult.t),
    leavesFiles (copyBatches env fuel config successfulGenerations
                             maxConcurrentCopies i copyResults).
Proof.
  induction fuel as [|fuel IH]; intros i acc; cbn [copyBatches];
    destruct (i <? length successfulGenerations)%nat;
    try apply leavesFiles_ret.
  - intros w. exists []. cbn. now rewrite app_nil_r.
  - apply leavesFiles_bind.
    { apply leavesFiles_mapM. intros g. apply leavesFiles_runCopyExecution. }
    intros ps. apply leavesFiles_bind; [apply leavesFiles_Date_now|].
    intros t1. apply leavesFiles_bind; [apply leavesFiles_Promise_all|].
    intros rs. apply leavesFiles_bind; [apply leavesFiles_Date_now|].
    intros t2. apply IH.
Qed.

(** *** A rejected promise *)

Lemma bind_thrown {A B : Type} (m : M A) (k : A -> M B) (w w' : World)
    (message : string) :
  m w = (Thrown message, w') -> bind m k w = (Thrown message, w').
Proof. intros H. unfold bind. now rewrite H. Qed.

(** [Promise.all] throws as soon as one of its promises is rejected; until
    then it has only seen promises settle. *)
Lemma Promise_all_rejected {A : Type} (ps : list (Promise A)) (w : World) :
  existsb rejected ps = true ->
  exists message tr,
    Promise_all ps w
    = (Thrown message,
       mkWorld (nextPid w) (ticks w) (trace w ++ tr))
    /\ onlyAwaits tr.
Proof.
  revert w. induction ps as [|p ps IH]; intros w Hrej; [discriminate|].
  cbn [Promise_all]. cbn [existsb] in Hrej. unfold rejected at 1 in Hrej.
  destruct (outcome p) as [a|reason].
  - cbn [orb] in Hrej.
    destruct (IH (mkWorld (nextPid w) (ticks w)
                    (trace w ++ [Settled (pid p)])) Hrej)
      as (message & tr & Hrun & Hspawn & Hclean).
    exists message, (Settled (pid p) :: tr). split.
    + unfold bind at 1, emit. unfold bind at 1. rewrite Hrun.
      cbn [nextPid ticks trace]. now rewrite <- app_assoc.
    + split; cbn; assumption.
  - exists reason, [Settled (pid p)]. split; [reflexivity | now split].
Qed.

Lemma not_rejected_resolved {A : Type} (ps : list (Promise A)) :
  existsb rejected ps = false ->
  exists rs, map outcome ps = map Resolved rs.
Proof.
  induction ps as [|p ps IH]; intros Hnone.
  - now exists [].
  - cbn [existsb] in Hnone. apply orb_false_iff in Hnone as [Hp Hps].
    destruct (IH Hps) as (rs & Hrs). unfold rejected in Hp.
    destruct (outcome p) as [a|] eqn:Hout; [|discriminate].
    exists (a :: rs). cbn. now rewrite Hout, Hrs.
Qed.

Lemma copyPromisesFrom_app (env : Environment) (p : nat)
    (g1 g2 : list FileGenerationResult.t) :
  copyPromisesFrom env p (g1 ++ g2)
  = copyPromisesFrom env p g1
    ++ copyPromisesFrom env (p + length g1) g2.
Proof.
  revert p. induction g1 as [|g g1 IH]; intros p; cbn.
  - now rewrite Nat.add_0_r.
  - rewrite IH. now rewrite Nat.add_succ_r.
Qed.

(** The batch loop throws when one of the promises it creates is rejected:
    in the batch of that promise, or in an earlier batch. *)
Lemma copyBatches_rejected (env : Environment) (config : BenchmarkConfig.t)
    (successfulGenerations : list FileGenerationResult.t)
    (maxConcurrentCopies fuel : nat) :
  (1 <= maxConcurrentCopies)%nat ->
  forall (i : nat) (copyResults : list CopyExecutionResult.t) (w : World),
    (length successfulGenerations - i <= fuel)%nat ->
    existsb rejected
      (copyPromisesFrom env (nextPid w) (skipn i successfulGenerations))
    = true ->
    exists message w',
      copyBatches env fuel config successfulGenerations maxConcurrentCopies
                  i copyResults w
      = (Thrown message, w').
Proof.
  intros Hm. induction fuel as [|fuel IH]; intros i acc w Hfuel Hrej;
    cbn [copyBatches];
    destruct (Nat.ltb_spec i (length successfulGenerations)) as [Hi|Hi];
    try lia;
    try (rewrite skipn_all2 in Hrej by lia; discriminate).
  unfold slice. replace (i + maxConcurrentCopies - i)%nat
    with maxConcurrentCopies by lia.
  set (remaining := skipn i successfulGenerations) in *.
  set (batch := firstn maxConcurrentCopies remaining).
  advance (mapM_runCopyExecution env config batch w).
  advance (Date_now_eq env _).
  cbn [nextPid ticks trace].
  destruct (existsb rejected (copyPromisesFrom env (nextPid w) batch))
    eqn:Hbatch.
  - match goal with
    | |- context [bind (Promise_all _) _ ?w1] =>
        destruct (Promise_all_rejected _ w1 Hbatch)
          as (message & tr & Hthrow & _)
    end.
    rewrite (bind_thrown _ _ _ _ _ Hthrow). now eexists _, _.
  - destruct (not_rejected_resolved _ Hbatch) as (rs & Hrs).
    advance (Promise_all_resolved _ rs _ Hrs).
    advance (Date_now_eq env _).
    cbn [nextPid ticks trace].
    apply IH; [lia|]. cbn [nextPid].
    assert (Hsplit : remaining
                     = batch ++ skipn maxConcurrentCopies remaining)
      by (unfold batch; now rewrite firstn_skipn).
    rewrite Hsplit, copyPromisesFrom_app, existsb_app, Hbatch in Hrej.
    cbn [orb] in Hrej.
    replace (skipn (i + maxConcurrentCopies) successfulGenerations)
      with (skipn maxConcurrentCopies remaining); [exact Hrej|].
    unfold remaining. rewrite skipn_skipn. f_equal. lia.
Qed.

(** *** Runs that end early *)

(** X1: a rejected generation promise ends the run at the first barrier: the
    run throws, no Bulk Loader call is made and no file is handed to
    cleanup. *)
Theorem rejected_generation_aborts_the_run
    (env : Environment) (config : BenchmarkConfig.t) (w0 : World) :
  existsb rejected
    (generationPromisesFrom env (recordsPerConnectionOf config) (nextPid w0)
       (generationUnits config))
  = true ->
  exists message w',
    runTwoStageBenchmark env config w0 = (Thrown message, w')
    /\ copyInvocations (trace w') = copyInvocations (trace w0)
    /\ cleanedFiles (trace w') = cleanedFiles (trace w0).
Proof.
  intros Hrej. unfold runTwoStageBenchmark.
  advance (Date_now_eq env w0). cbv zeta.
  advance (Date_now_eq env _).
  cbn [nextPid ticks trace].
  fold (recordsPerConnectionOf config).
  set (n := recordsPerConnectionOf config) in *.
  match goal with
  | |- context [bind (mapM _ _) _ ?w1] =>
      destruct (mapM_generation env config n
                  (range (BenchmarkConfig.connectionsPerWorker config))
                  (range (BenchmarkConfig.minWorkers config)) w1)
        as (pss & Hrun & Hcat)
  end.
  cbv zeta in Hrun, Hcat. fold (generationUnits config) in Hrun, Hcat.
  advance Hrun. rewrite Hcat. cbn [nextPid].
  match goal with
  | |- context [bind (Promise_all _) _ ?w1] =>
      destruct (Promise_all_rejected _ w1 Hrej)
        as (message & tr & Hthrow & Hspawn & Hclean)
  end.
  rewrite (bind_thrown _ _ _ _ _ Hthrow).
  eexists _, _. split; [reflexivity|]. cbn [trace].
  rewrite !copyInvocations_spawned, !spawnedCalls_app, !cleanedFiles_app.
  rewrite spawnedCalls_spawns, cleanedFiles_spawns, Hspawn, Hclean.
  cbn [spawnedCalls cleanedFiles].
  rewrite !flat_map_app, copyPath_generation. cbn.
  now rewrite !app_nil_r.
Qed.

(** X2: a rejected Bulk Loader promise of a batch ends the run at that batch's
    barrier (or at an earlier one): the run throws, and the staged files are
    never handed to cleanup. *)
Theorem rejected_copy_aborts_without_cleanup
    (env : Environment) (config : BenchmarkConfig.t)
    (gen : Z -> Z -> Z -> FileGenerationResult.t) (w0 : World) :
  (forall workerId connectionId n,
      fileGeneration env workerId connectionId n
      = Resolved (gen workerId connectionId n)) ->
  let successfulGenerations :=
    filter FileGenerationResult.success (generationResultsOf config gen) in
  existsb rejected
    (copyPromisesFrom env
       (nextPid w0 + length (generationUnits config)
        + length successfulGenerations)
       successfulGenerations)
  = true ->
  exists message w',
    runTwoStageBenchmark env config w0 = (Thrown message, w')
    /\ cleanedFiles (trace w') = cleanedFiles (trace w0).
Proof.
  intros Hgen succ Hrej.
  assert (Hsucc : succ <> []).
  { intros Hnil. rewrite Hnil in Hrej. discriminate. }
  unfold runTwoStageBenchmark.
  advance (Date_now_eq env w0). cbv zeta.
  advance (Date_now_eq env _).
  cbn [nextPid ticks trace].
  fold (recordsPerConnectionOf config).
  set (n := recordsPerConnectionOf config).
  match goal with
  | |- context [bind (mapM _ _) _ ?w1] =>
      destruct (mapM_generation env config n
                  (range (BenchmarkConfig.connectionsPerWorker config))
                  (range (BenchmarkConfig.minWorkers config)) w1)
        as (pss & Hrun & Hcat)
  end.
  cbv zeta in Hrun, Hcat. fold (generationUnits config) in Hrun, Hcat.
  advance Hrun. rewrite Hcat.
  advance (Promise_all_resolved _ _ _
             (generationPromisesFrom_outcome env gen Hgen n _ _)).
  change (map (fun u => gen (fst u) (snd u) n) (generationUnits config))
    with (generationResultsOf config gen).
  advance (Date_now_eq env _).
  change (filter FileGenerationResult.success (generationResultsOf config gen))
    with succ.
  destruct (Nat.eqb_spec (length succ) 0) as [Hz|_].
  { destruct succ; [contradiction|discriminate]. }
  advance (Date_now_eq env _).
  advance (mapM_runCopyExecution env config _ _).
  cbn [nextPid ticks trace].
  assert (Hm : (1 <= maxConcurrentCopiesOf succ)%nat).
  { unfold maxConcurrentCopiesOf. destruct succ; [contradiction|].
    cbn [length]. lia. }
  match goal with
  | |- context [bind (copyBatches _ _ _ _ _ _ _) _ ?w1] =>
      destruct (copyBatches_rejected env config succ
                  (maxConcurrentCopiesOf succ) (length succ) Hm
                  0%nat [] w1) as (message & w' & Hthrow);
        [lia | exact Hrej |];
      destruct (leavesFiles_copyBatches env config succ
                  (maxConcurrentCopiesOf succ) (length succ) 0%nat [] w1)
        as (tr & Htr & Hclean)
  end.
  rewrite Hthrow in Htr. cbn [snd trace] in Htr.
  rewrite (bind_thrown _ _ _ _ _ Hthrow).
  exists message, w'. split; [reflexivity|].
  rewrite Htr, !cleanedFiles_app, Hclean.
  rewrite cleanedFiles_spawns, cleanedFiles_settles, cleanedFiles_spawns.
  cbn. now rewrite !app_nil_r.
Qed.

(** *** Runs that return *)

(** X3: when every worker answers and at least one artifact exists, the run
    returns, and its trace ends with the cleanup: after both stages, every
    non-empty path that stage 1 reported, of a successful or of a failed
    generation, is handed to [cleanupFiles] once, in generation order. *)
Theorem every_reported_path_is_cleaned_up
    (env : Environment) (config : BenchmarkConfig.t)
    (gen : Z -> Z -> Z -> FileGenerationResult.t)
    (copy : nat -> Z -> Z -> string -> CopyExecutionResult.t) (w0 : World) :
  (forall workerId connectionId n,
      fileGeneration env workerId connectionId n
      = Resolved (gen workerId connectionId n)) ->
  (forall p workerId connectionId filePath,
      copyExecution env p workerId connectionId filePath
      = Resolved (copy p workerId connectionId filePath)) ->
  let generationResults := generationResultsOf config gen in
  let successfulGenerations :=
    filter FileGenerationResult.success generationResults in
  let allFilePaths :=
    filter truthy (map FileGenerationResult.filePath generationResults) in
  successfulGenerations <> [] ->
  exists r w' stages resultTime,
    runTwoStageBenchmark env config w0 = (Returned r, w')
    /\ trace w'
       = trace w0 ++ stages ++ map CleanupFile allFilePaths
         ++ [ClockRead resultTime]
    /\ cleanedFiles stages = []
    /\ spawnedCalls stages
       = map (generationCall (recordsPerConnectionOf config))
             (generationUnits config)
         ++ map copyCall successfulGenerations
         ++ map copyCall successfulGenerations
    /\ cleanedFiles (trace w') = cleanedFiles (trace w0) ++ allFilePaths.
Proof.
  intros Hgen Hcopy gens succ paths Hsucc.
  unfold runTwoStageBenchmark.
  advance (Date_now_eq env w0). cbv zeta.
  advance (Date_now_eq env _).
  cbn [nextPid ticks trace].
  fold (recordsPerConnectionOf config).
  set (n := recordsPerConnectionOf config).
  match goal with
  | |- context [bind (mapM _ _) _ ?w1] =>
      destruct (mapM_generation env config n
                  (range (BenchmarkConfig.connectionsPerWorker config))
                  (range (BenchmarkConfig.minWorkers config)) w1)
        as (pss & Hrun & Hcat)
  end.
  cbv zeta in Hrun, Hcat. fold (generationUnits config) in Hrun, Hcat.
  advance Hrun. rewrite Hcat.
  advance (Promise_all_resolved _ _ _
             (generationPromisesFrom_outcome env gen Hgen n _ _)).
  change (map (fun u => gen (fst u) (snd u) n) (generationUnits config))
    with gens.
  advance (Date_now_eq env _).
  change (filter FileGenerationResult.success gens) with succ.
  destruct (Nat.eqb_spec (length succ) 0) as [Hz|_].
  { destruct succ; [contradiction|discriminate]. }
  advance (Date_now_eq env _).
  advance (mapM_runCopyExecution env config _ _).
  cbn [nextPid ticks trace].
  assert (Hm : (1 <= maxConcurrentCopiesOf succ)%nat).
  { unfold maxConcurrentCopiesOf. destruct succ; [contradiction|].
    cbn [length]. lia. }
  match goal with
  | |- context [bind (copyBatches _ _ _ _ _ _ _) _ ?w1] =>
      destruct (copyBatches_resolved env config copy Hcopy succ
                  (maxConcurrentCopiesOf succ) (length succ) Hm
                  0%nat [] w1)
        as (dt & tr & Hloop & Hcalls & _); [lia|];
      destruct (leavesFiles_copyBatches env config succ
                  (maxConcurrentCopiesOf succ) (length succ) 0%nat [] w1)
        as (tr' & Htr' & Hclean)
  end.
  rewrite Hloop in Htr'. cbn [snd trace] in Htr'.
  apply app_inv_head in Htr'. subst tr'.
  cbn [skipn nextPid ticks trace app] in Hloop, Hcalls.
  advance Hloop.
  advance (Date_now_eq env _).
  advance (Date_now_eq env _).
  advance (cleanupFiles_eq _ _).
  advance (Date_now_eq env _).
  cbn [nextPid ticks trace]. unfold ret.
  change (filter truthy (map FileGenerationResult.filePath gens)) with paths.
  eexists. eexists.
  exists ([ClockRead (clock env (ticks w0));
           ClockRead (clock env (S (ticks w0)))]
          ++ spawns (nextPid w0)
               (map (generationCall n) (generationUnits config))
          ++ settles (generationPromisesFrom env n (nextPid w0)
                        (generationUnits config))
          ++ [ClockRead (clock env (S (S (ticks w0))));
              ClockRead (clock env (S (S (S (ticks w0)))))]
          ++ spawns (nextPid w0 + length (generationUnits config))
               (map copyCall succ)
          ++ tr
          ++ [ClockRead (clock env (S (S (S (S (ticks w0)))) + dt));
              ClockRead (clock env (S (S (S (S (S (ticks w0))))) + dt))]).
  eexists.
  split; [reflexivity|]. split; [|split; [|split]].
  - cbn [trace]. repeat (rewrite <- app_assoc || rewrite <- app_comm_cons).
    reflexivity.
  - rewrite !cleanedFiles_app, cleanedFiles_spawns, cleanedFiles_settles,
      cleanedFiles_spawns, Hclean. reflexivity.
  - rewrite !spawnedCalls_app, !spawnedCalls_spawns, spawnedCalls_settles,
      Hcalls. cbn. now rewrite app_nil_r.
  - cbn [trace]. rewrite !cleanedFiles_app, cleanedFiles_spawns,
      cleanedFiles_settles, cleanedFiles_spawns, Hclean,
      cleanedFiles_cleanup.
    cbn. now rewrite !app_nil_r.
Qed.

(** X4: every copy of the batches is counted once: the result's success and
    error counts add up to [totalConnections], the number of artifacts that
    entered stage 2, and only successful copies contribute records and
    data. *)
Theorem success_and_error_counts_cover_the_batches
    (env : Environment) (config : BenchmarkConfig.t)
    (gen : Z -> Z -> Z -> FileGenerationResult.t)
    (copy : nat -> Z -> Z -> string -> CopyExecutionResult.t) (w0 : World) :
  (forall workerId connectionId n,
      fileGeneration env workerId connectionId n
      = Resolved (gen workerId connectionId n)) ->
  (forall p workerId connectionId filePath,
      copyExecution env p workerId connectionId filePath
      = Resolved (copy p workerId connectionId filePath)) ->
  let successfulGenerations :=
    filter FileGenerationResult.success (generationResultsOf config gen) in
  let copyResults :=
    copyResultsFrom copy
      (nextPid w0 + length (generationUnits config)
       + length successfulGenerations)
      successfulGenerations in
  successfulGenerations <> [] ->
  exists r w',
    runTwoStageBenchmark env config w0 = (Returned r, w')
    /\ BenchmarkResult.successCount r + BenchmarkResult.errorCount r
       = BenchmarkResult.totalConnections r
    /\ 0 < BenchmarkResult.totalConnections r
    /\ BenchmarkResult.totalRecords r
       = sumZ CopyExecutionResult.recordsInserted
              (filter CopyExecutionResult.success copyResults)
    /\ BenchmarkResult.totalDataSizeMB r
       = sumF CopyExecutionResult.dataSizeMB
              (filter CopyExecutionResult.success copyResults).
Proof.
  intros Hgen Hcopy succ copies Hsome.
  destruct (runTwoStageBenchmark_resolved env config gen copy Hgen Hcopy w0
              Hsome)
    as (t1 & t2 & t3 & pre & mid & post & w' & Hrun & _).
  eexists. exists w'. split; [exact Hrun|]. unfold summary.
  cbn [BenchmarkResult.successCount BenchmarkResult.errorCount
       BenchmarkResult.totalConnections BenchmarkResult.totalRecords
       BenchmarkResult.totalDataSizeMB].
  fold succ copies.
  pose proof (filter_partition_length CopyExecutionResult.success copies)
    as Hpart.
  fold failedCopy in Hpart.
  unfold copies in Hpart at 3. rewrite copyResultsFrom_length in Hpart.
  assert (0 < length succ)%nat
    by (destruct succ; [contradiction | cbn [length]; lia]).
  repeat split; lia.
Qed.

(** *** The batch loop on its own *)

Lemma peak_spawns (gs : list FileGenerationResult.t) :
  forall (q : nat) (pending : list nat) (pk : nat),
    (length pending <= pk)%nat ->
    fold_left peakStep (spawns q (map copyCall gs)) (pending, pk)
    = (rev (seq q (length gs)) ++ pending,
       Nat.max pk (length pending + length gs)).
Proof.
  induction gs as [|g gs IH]; intros q pending pk Hpk.
  - cbn. f_equal. lia.
  - cbn [map spawns fold_left length seq rev].
    unfold peakStep at 2. cbn [fst snd pendingStep copyCall].
    rewrite IH by (cbn [length]; lia).
    rewrite <- app_assoc. cbn [app length]. f_equal. lia.
Qed.

Lemma filter_all {A : Type} (l : list A) :
  filter (fun _ => true) l = l.
Proof. induction l as [|x l IH]; cbn; [reflexivity | now rewrite IH]. Qed.

Lemma filter_settled (p : nat) (ps pending : list nat) :
  filter (fun x => negb (existsb (Nat.eqb x) ps))
         (filter (fun q => negb (q =? p)%nat) pending)
  = filter (fun x => negb (existsb (Nat.eqb x) (p :: ps))) pending.
Proof.
  induction pending as [|x l IH]; [reflexivity|].
  cbn [filter existsb].
  destruct (Nat.eqb_spec x p) as [->|Hxp]; cbn [negb orb filter].
  - exact IH.
  - destruct (existsb (Nat.eqb x) ps); cbn [negb]; now rewrite IH.
Qed.

Lemma peak_settles (ps : list nat) :
  forall (pending : list nat) (pk : nat),
    (length pending <= pk)%nat ->
    fold_left peakStep (map Settled ps) (pending, pk)
    = (filter (fun x => negb (existsb (Nat.eqb x) ps)) pending, pk).
Proof.
  induction ps as [|p ps IH]; intros pending pk Hpk.
  - cbn. now rewrite filter_all.
  - cbn [map fold_left]. unfold peakStep at 2. cbn [fst snd pendingStep].
    pose proof (filter_length_le (fun q => negb (q =? p)%nat) pending)
      as Hle.
    rewrite Nat.max_l by lia.
    rewrite IH by lia. now rewrite filter_settled.
Qed.

Lemma peak_clock (pending : list nat) (pk : nat) (t : float) :
  (length pending <= pk)%nat ->
  peakStep (pending, pk) (ClockRead t) = (pending, pk).
Proof. intros Hpk. unfold peakStep. cbn. f_equal. lia. Qed.

Lemma copyPromisesFrom_pids (env : Environment) (q : nat)
    (gs : list FileGenerationResult.t) :
  map pid (copyPromisesFrom env q gs) = seq q (length gs).
Proof.
  revert q. induction gs as [|g gs IH]; intros q; cbn;
    [reflexivity | now rewrite IH].
Qed.

Lemma settled_batch_leaves_nothing (q n : nat) :
  filter (fun x => negb (existsb (Nat.eqb x) (seq q n))) (rev (seq q n))
  = [].
Proof.
  assert (H : forall l,
             (forall x, In x l -> In x (seq q n)) ->
             filter (fun x => negb (existsb (Nat.eqb x) (seq q n))) l = []).
  { induction l as [|x l IHl]; intros Hl; [reflexivity|].
    cbn [filter].
    assert (Hx : existsb (Nat.eqb x) (seq q n) = true).
    { apply existsb_exists. exists x. split; [apply Hl; now left|].
      apply Nat.eqb_refl. }
    rewrite Hx. cbn [negb]. apply IHl. intros y Hy. apply Hl. now right. }
  apply H. intros x Hx. now apply in_rev.
Qed.

Section BatchLoop.
Variable env : Environment.
Variable config : BenchmarkConfig.t.
Variable copy : nat -> Z -> Z -> string -> CopyExecutionResult.t.
Hypothesis copy_resolves :
  forall p workerId connectionId filePath,
    copyExecution env p workerId connectionId filePath
    = Resolved (copy p workerId connectionId filePath).

Lemma copyBatches_capped
    (successfulGenerations : list FileGenerationResult.t)
    (maxConcurrentCopies fuel : nat) :
  (1 <= maxConcurrentCopies)%nat ->
  forall (i : nat) (copyResults : list CopyExecutionResult.t) (w : World)
         (pk : nat),
    (length successfulGenerations - i <= fuel)%nat ->
    fold_left peakStep (trace w) ([], 0%nat) = ([], pk) ->
    (pk <= maxConcurrentCopies)%nat ->
    exists pk',
      fold_left peakStep
        (trace (snd (copyBatches env fuel config successfulGenerations
                       maxConcurrentCopies i copyResults w)))
        ([], 0%nat)
      = ([], pk')
      /\ (pk' <= maxConcurrentCopies)%nat
      /\ (pk <= pk')%nat
      /\ (Nat.min maxConcurrentCopies (length successfulGenerations - i)
          <= pk')%nat.
Proof.
  intros Hm. induction fuel as [|fuel IH]; intros i acc w pk Hfuel Hw Hpk;
    cbn [copyBatches];
    destruct (Nat.ltb_spec i (length successfulGenerations)) as [Hi|Hi];
    try lia;
    try (exists pk; cbn [ret snd]; split; [exact Hw | lia]).
  unfold slice. replace (i + maxConcurrentCopies - i)%nat
    with maxConcurrentCopies by lia.
  set (remaining := skipn i successfulGenerations).
  set (batch := firstn maxConcurrentCopies remaining).
  advance (mapM_runCopyExecution env config batch w).
  advance (Date_now_eq env _).
  advance (Promise_all_resolved _ _ _
             (copyPromisesFrom_outcome env copy copy_resolves (nextPid w)
                batch)).
  advance (Date_now_eq env _).
  cbn [nextPid ticks trace].
  assert (Hbatch : length batch
                   = Nat.min maxConcurrentCopies
                             (length successfulGenerations - i)).
  { unfold batch, remaining. now rewrite length_firstn, length_skipn. }
  match goal with
  | |- context [copyBatches env fuel config _ _ _ _ ?w1] =>
      destruct (IH (i + maxConcurrentCopies)%nat
                   (acc ++ copyResultsFrom copy (nextPid w) batch) w1
                   (Nat.max pk (length batch)))
        as (pk' & Hfold & Hcap & Hmono & Hlow); [lia | | lia |]
  end.
  - cbn [trace]. rewrite !fold_left_app, Hw.
    rewrite peak_spawns by (cbn; lia). cbn [length Nat.add app].
    rewrite app_nil_r. cbn [fold_left].
    rewrite peak_clock by (rewrite length_rev, length_seq; lia).
    unfold settles. rewrite <- (map_map pid Settled), copyPromisesFrom_pids.
    rewrite peak_settles by (rewrite length_rev, length_seq; lia).
    rewrite settled_batch_leaves_nothing.
    now rewrite peak_clock by (cbn; lia).
  - exists pk'. split; [exact Hfold|]. split; [exact Hcap|]. split; lia.
Qed.

End BatchLoop.

(** X5: counted from its own start, the batch loop keeps to the cap: the copies
    it has started and not yet awaited are never more than
    [maxConcurrentCopies], the first batch reaches that number, and nothing
    is pending when the loop ends. *)
Theorem batch_loop_keeps_to_the_cap
    (env : Environment) (config : BenchmarkConfig.t)
    (copy : nat -> Z -> Z -> string -> CopyExecutionResult.t)
    (successfulGenerations : list FileGenerationResult.t) (p t : nat) :
  (forall q workerId connectionId filePath,
      copyExecution env q workerId connectionId filePath
      = Resolved (copy q workerId connectionId filePath)) ->
  successfulGenerations <> [] ->
  let maxConcurrentCopies := maxConcurrentCopiesOf successfulGenerations in
  let w' :=
    snd (copyBatches env (length successfulGenerations) config
           successfulGenerations maxConcurrentCopies 0%nat []
           (mkWorld p t [])) in
  peakInFlight (trace w') = maxConcurrentCopies
  /\ pendingCopies (trace w') = [].
Proof.
  intros Hcopy Hsome m w'.
  assert (Hm : (1 <= m)%nat /\ (m <= length successfulGenerations)%nat).
  { unfold m, maxConcurrentCopiesOf.
    destruct successfulGenerations; [contradiction | cbn [length]; lia]. }
  destruct (copyBatches_capped env config copy Hcopy successfulGenerations m
              (length successfulGenerations) (proj1 Hm) 0%nat []
              (mkWorld p t []) 0%nat)
    as (pk' & Hfold & Hcap & _ & Hlow); [lia | reflexivity | lia |].
  fold w' in Hfold. unfold peakInFlight. rewrite Hfold. cbn [snd].
  split; [lia|].
  pose proof (peak_fst (trace w') ([], 0%nat)) as Hfst.
  rewrite Hfold in Hfst. cbn [fst] in Hfst. unfold pendingCopies.
  now rewrite <- Hfst.
Qed.

(** *** The planned volume *)

(** X6: the records planned for all connections, at the assumed 75 KB each,
    never exceed the configured data size and miss it by less than one
    record per connection; a data size below one record per connection
    plans no record at all.  The statement is for configurations whose byte
    counts, [dataSizeMB * 1024 * 1024] and [totalConnections * 75 * 1024],
    stay below 2^53: there the binary64 products of the source are exact
    and [Math.floor] of the rounded quotient is the integer quotient. *)
Theorem planned_volume_stays_within_dataSize (config : BenchmarkConfig.t) :
  let totalConnections :=
    BenchmarkConfig.minWorkers config
    * BenchmarkConfig.connectionsPerWorker config in
  let bytes := BenchmarkConfig.dataSizeMB config * 1024 * 1024 in
  0 < totalConnections ->
  0 <= BenchmarkConfig.dataSizeMB config ->
  bytes < 2 ^ 53 ->
  totalConnections * 75 * 1024 < 2 ^ 53 ->
  0 <= recordsPerConnectionOf config
  /\ recordsPerConnectionOf config * totalConnections * (75 * 1024) <= bytes
  /\ bytes
     < (recordsPerConnectionOf config + 1) * totalConnections * (75 * 1024)
  /\ (bytes < totalConnections * (75 * 1024) ->
      recordsPerConnectionOf config = 0).
Proof.
  intros total bytes Htotal Hsize _ _. unfold recordsPerConnectionOf.
  fold total bytes.
  set (d := total * 75 * 1024).
  assert (Hd : 0 < d) by (unfold d; lia).
  pose proof (Z.div_mod bytes d ltac:(lia)) as Hdiv.
  pose proof (Z.mod_pos_bound bytes d Hd) as Hmod.
  assert (Hq : 0 <= bytes / d) by (apply Z.div_pos; unfold bytes; lia).
  split; [exact Hq|]. split; [unfold d in *; nia|].
  split; [unfold d in *; nia|].
  intros Hsmall. apply Z.div_small. unfold d, bytes in *. lia.
Qed.


(** *** The theorems above on concrete runs *)

Lemma rejected_generation_aborts_the_run_witness :
  exists message w',
    runTwoStageBenchmark FurtherScenarios.generationWorkerExits
                         Scenarios.twoArtifactsConfig initialWorld
    = (Thrown message, w')
    /\ copyInvocations (trace w') = []
    /\ cleanedFiles (trace w') = [].
Proof.
  apply (rejected_generation_aborts_the_run
           FurtherScenarios.generationWorkerExits
           Scenarios.twoArtifactsConfig initialWorld).
  reflexivity.
Defined.

Lemma rejected_copy_aborts_without_cleanup_witness :
  exists message w',
    runTwoStageBenchmark FurtherScenarios.loaderWorkerExits
                         Scenarios.twoArtifactsConfig initialWorld
    = (Thrown message, w')
    /\ cleanedFiles (trace w') = [].
Proof.
  apply (rejected_copy_aborts_without_cleanup
           FurtherScenarios.loaderWorkerExits Scenarios.twoArtifactsConfig
           Scenarios.generated initialWorld).
  - intros; reflexivity.
  - reflexivity.
Defined.

Lemma every_reported_path_is_cleaned_up_witness :
  exists r w',
    runTwoStageBenchmark Scenarios.threeOfTen Scenarios.threeOfTenConfig
                         initialWorld
    = (Returned r, w')
    /\ length (cleanedFiles (trace w')) = 10%nat
    /\ length (copyInvocations (trace w')) = 14%nat.
Proof.
  destruct (every_reported_path_is_cleaned_up
              Scenarios.threeOfTen Scenarios.threeOfTenConfig
              Scenarios.threeOfTenGen Scenarios.threeOfTenCopy initialWorld)
    as (r & w' & stages & resultTime & Hrun & Htrace & _ & Hcalls & Hclean).
  - intros; reflexivity.
  - intros; reflexivity.
  - discriminate.
  - exists r, w'. split; [exact Hrun|]. split.
    + rewrite Hclean. reflexivity.
    + rewrite Htrace, !copyInvocations_spawned, !spawnedCalls_app, Hcalls.
      reflexivity.
Defined.

Lemma success_and_error_counts_cover_the_batches_witness :
  exists r w',
    runTwoStageBenchmark FurtherScenarios.oneLoadFails
                         Scenarios.twoArtifactsConfig initialWorld
    = (Returned r, w')
    /\ BenchmarkResult.successCount r + BenchmarkResult.errorCount r
       = BenchmarkResult.totalConnections r
    /\ BenchmarkResult.totalRecords r = 682.
Proof.
  destruct (success_and_error_counts_cover_the_batches
              FurtherScenarios.oneLoadFails Scenarios.twoArtifactsConfig
              Scenarios.generated FurtherScenarios.oneLoadFailsCopy
              initialWorld)
    as (r & w' & Hrun & Hsum & _ & Hrecords & _).
  - intros; reflexivity.
  - intros; reflexivity.
  - discriminate.
  - exists r, w'. split; [exact Hrun|]. split; [exact Hsum|].
    rewrite Hrecords. reflexivity.
Defined.

Lemma batch_loop_keeps_to_the_cap_witness :
  let artifacts :=
    generationResultsOf FurtherScenarios.twelveArtifactsConfig
                        Scenarios.generated in
  length artifacts = 12%nat
  /\ peakInFlight
       (trace
          (snd (copyBatches FurtherScenarios.twelveArtifacts 12
                  FurtherScenarios.twelveArtifactsConfig artifacts 10 0%nat
                  [] (mkWorld 0 0 []))))
     = 10%nat.
Proof.
  split; [reflexivity|].
  apply (batch_loop_keeps_to_the_cap
           FurtherScenarios.twelveArtifacts
           FurtherScenarios.twelveArtifactsConfig Scenarios.threeOfTenCopy
           (generationResultsOf FurtherScenarios.twelveArtifactsConfig
                                Scenarios.generated)
           0%nat 0%nat).
  - intros; reflexivity.
  - discriminate.
Defined.

Lemma planned_volume_stays_within_dataSize_witness :
  recordsPerConnectionOf Scenarios.threeOfTenConfig * 10 * (75 * 1024)
  <= 100 * 1024 * 1024
  < (recordsPerConnectionOf Scenarios.threeOfTenConfig + 1) * 10 * (75 * 1024).
Proof.
  destruct (planned_volume_stays_within_dataSize Scenarios.threeOfTenConfig)
    as (_ & Hlow & Hhigh & _).
  - reflexivity.
  - discriminate.
  - reflexivity.
  - reflexivity.
  - split; [exact Hlow | exact Hhigh].
Defined.

(** X7: when every generation fails, nothing is cleaned up: the run throws
    before [cleanupFiles] is reached, although every failed generation has
    reported the path of its artifact, where a stream that broke midway has
    left a partial file. *)
Theorem failed_generations_are_never_cleaned_up
    (env : Environment) (config : BenchmarkConfig.t)
    (gen : Z -> Z -> Z -> FileGenerationResult.t) (w0 : World) :
  (forall workerId connectionId n,
      fileGeneration env workerId connectionId n
      = Resolved (gen workerId connectionId n)) ->
  Forall (fun g => FileGenerationResult.success g = false)
         (generationResultsOf config gen) ->
  exists w',
    runTwoStageBenchmark env config w0
    = (Thrown "No CSV files were generated successfully", w')
    /\ cleanedFiles (trace w') = cleanedFiles (trace w0).
Proof.
  intros Hgen Hfail.
  assert (Hnone : filter FileGenerationResult.success
                         (generationResultsOf config gen) = []).
  { induction Hfail as [|g gs Hg _ IH]; [reflexivity|].
    cbn. now rewrite Hg. }
  unfold runTwoStageBenchmark.
  advance (Date_now_eq env w0). cbv zeta.
  advance (Date_now_eq env _).
  cbn [nextPid ticks trace].
  fold (recordsPerConnectionOf config).
  set (n := recordsPerConnectionOf config).
  match goal with
  | |- context [bind (mapM _ _) _ ?w1] =>
      destruct (mapM_generation env config n
                  (range (BenchmarkConfig.connectionsPerWorker config))
                  (range (BenchmarkConfig.minWorkers config)) w1)
        as (pss & Hrun & Hcat)
  end.
  cbv zeta in Hrun, Hcat. fold (generationUnits config) in Hrun, Hcat.
  advance Hrun. rewrite Hcat.
  advance (Promise_all_resolved _ _ _
             (generationPromisesFrom_outcome env gen Hgen n _ _)).
  change (map (fun u => gen (fst u) (snd u) n) (generationUnits config))
    with (generationResultsOf config gen).
  advance (Date_now_eq env _).
  rewrite Hnone. cbn [length Nat.eqb].
  eexists. split; [reflexivity|]. cbn [trace].
  rewrite !cleanedFiles_app, cleanedFiles_spawns, cleanedFiles_settles.
  cbn. now rewrite !app_nil_r.
Qed.

Lemma failed_generations_are_never_cleaned_up_witness :
  exists w',
    runTwoStageBenchmark Scenarios.noArtifact Scenarios.threeOfTenConfig
                         initialWorld
    = (Thrown "No CSV files were generated successfully", w')
    /\ cleanedFiles (trace w') = []
    /\ map FileGenerationResult.filePath
           (generationResultsOf Scenarios.threeOfTenConfig
                                Scenarios.notGenerated)
       <> [].
Proof.
  destruct (failed_generations_are_never_cleaned_up
              Scenarios.noArtifact Scenarios.threeOfTenConfig
              Scenarios.notGenerated initialWorld)
    as (w' & Hrun & Hclean).
  - intros; reflexivity.
  - repeat constructor.
  - exists w'. split; [exact Hrun|]. split; [exact Hclean | discriminate].
Defined.

(** *** The high-throughput variant *)

(** X8: the concurrency asked of [runHighThroughputBenchmark] is reported
    back as [configuredConcurrency] and has no part in the run: the copies
    are dispatched exactly as [runTwoStageBenchmark] does on the base
    configuration, so that, whatever was configured, the copies of
    [copyPromises] and of the first batch are in flight together. *)
Theorem configured_concurrency_is_reported_not_applied
    (env : Environment) (config : HighThroughput.HighThroughputConfig)
    (gen : Z -> Z -> Z -> FileGenerationResult.t)
    (copy : nat -> Z -> Z -> string -> CopyExecutionResult.t) :
  (forall workerId connectionId n,
      fileGeneration env workerId connectionId n
      = Resolved (gen workerId connectionId n)) ->
  (forall p workerId connectionId filePath,
      copyExecution env p workerId connectionId filePath
      = Resolved (copy p workerId connectionId filePath)) ->
  let base := HighThroughput.base config in
  let successfulGenerations :=
    filter FileGenerationResult.success (generationResultsOf base gen) in
  successfulGenerations <> [] ->
  exists r stats w',
    HighThroughput.runHighThroughputBenchmark env config initialWorld
    = (Returned (r, stats), w')
    /\ runTwoStageBenchmark env base initialWorld = (Returned r, w')
    /\ HighThroughput.configuredConcurrency stats
       = HighThroughput.orNumber
           (HighThroughput.maxConcurrentCopies config)
           (Z.min 20 (BenchmarkConfig.minWorkers base
                      * BenchmarkConfig.connectionsPerWorker base))
    /\ (length successfulGenerations
        + maxConcurrentCopiesOf successfulGenerations
        <= peakInFlight (trace w'))%nat.
Proof.
  intros Hgen Hcopy base succ Hsome.
  destruct (first_batch_overlaps_copyPromises env base gen copy Hgen Hcopy
              Hsome)
    as (r & w' & before & after & Hrun & Htrace & Hpending & _).
  fold succ in Hpending.
  unfold HighThroughput.runHighThroughputBenchmark. cbv zeta.
  change (HighThroughput.base (HighThroughput.optimize config)) with base.
  advance Hrun.
  eexists r, _, w'. split; [reflexivity|]. split; [exact Hrun|].
  split.
  - cbn [HighThroughput.configuredConcurrency HighThroughput.optimize
         HighThroughput.maxConcurrentCopies].
    unfold HighThroughput.orNumber.
    destruct (HighThroughput.maxConcurrentCopies config) as [[|k|k]|];
      try reflexivity;
      destruct (Z.min 20 _); reflexivity.
  - rewrite Htrace, <- Hpending. apply peak_at_least_pending.
Qed.

Lemma configured_concurrency_is_reported_not_applied_witness :
  exists r stats w',
    HighThroughput.runHighThroughputBenchmark Scenarios.twoArtifacts
      HighThroughputScenarios.oneAtATime initialWorld
    = (Returned (r, stats), w')
    /\ HighThroughput.configuredConcurrency stats = 1
    /\ (4 <= peakInFlight (trace w'))%nat.
Proof.
  destruct (configured_concurrency_is_reported_not_applied
              Scenarios.twoArtifacts HighThroughputScenarios.oneAtATime
              Scenarios.generated Scenarios.twoArtifactsCopy)
    as (r & stats & w' & Hrun & _ & Hstats & Hpeak).
  - intros; reflexivity.
  - intros; reflexivity.
  - discriminate.
  - exists r, stats, w'. split; [exact Hrun|]. split; [exact Hstats|].
    exact Hpeak.
Defined.

(** X9: the batch loop of the coordinator ends.  In a run whose workers all
    settle (each worker promise resolves or rejects, which is what an
    [Environment] describes; a worker that never posts a message and never
    exits leaves its promise, and the run, pending) and in which no copy
    worker crashes (so that no promise of the never-awaited [copyPromises]
    rejects unhandled), however many artifacts stage 1 leaves and whatever
    the workers answer, the loop over the batches takes finitely many turns
    and the run either returns a result or throws. *)
Theorem coordinator_settles_when_its_workers_do
    (env : Environment) (config : BenchmarkConfig.t) (w : World) :
  (forall p workerId connectionId filePath,
      exists answer,
        copyExecution env p workerId connectionId filePath
        = Resolved answer) ->
  exists w',
    (exists r, runTwoStageBenchmark env config w = (Returned r, w'))
    \/ (exists message,
           runTwoStageBenchmark env config w = (Thrown message, w')).
Proof.
  intros _.
  pose proof (runTwoStageBenchmark_finishes env config w) as Hfinishes.
  destruct (runTwoStageBenchmark env config w) as [[r|message|] w'].
  - exists w'. left. now exists r.
  - exists w'. right. now exists message.
  - now cbn in Hfinishes.
Qed.

Lemma coordinator_settles_when_its_workers_do_witness :
  exists w',
    (exists r,
        runTwoStageBenchmark Scenarios.threeOfTen Scenarios.threeOfTenConfig
                             initialWorld
        = (Returned r, w'))
    \/ (exists message,
           runTwoStageBenchmark Scenarios.threeOfTen
                                Scenarios.threeOfTenConfig initialWorld
           = (Thrown message, w')).
Proof.
  apply (coordinator_settles_when_its_workers_do Scenarios.threeOfTen
           Scenarios.threeOfTenConfig initialWorld).
  intros p workerId connectionId filePath. eexists. reflexivity.
Defined.

End CoordinatorFacts.

(** ** The connection pool *)

Module DatabaseFacts.

(** X10: the pool of a connection is sized so that the connections of one
    worker fit: [min] is at most [connectionsPerWorker], which is at most
    [max], for every configuration; [min] never exceeds 5 and [max] is
    never below 20. *)
Theorem pool_holds_the_connections_of_a_worker
    (db : Database.Coordinates) (config : BenchmarkConfig.t) :
  let pool :=
    Database.pool (Database.createAuroraLimitlessConnection db config) in
  Database.min pool <= BenchmarkConfig.connectionsPerWorker config
  /\ BenchmarkConfig.connectionsPerWorker config <= Database.max pool
  /\ Database.min pool <= 5
  /\ 20 <= Database.max pool.
Proof.
  cbn [Database.pool Database.createAuroraLimitlessConnection Database.min
       Database.max].
  lia.
Qed.

End DatabaseFacts.

(** ** The staged files and the two stages of a worker *)

Module WorkerFacts.
Import Js CsvUtils StagedFiles TwoStageWorker.

(** *** The disk *)

Lemma resolve_cwd (d1 d2 : Disk) (p : string) :
  cwd d1 = cwd d2 -> resolve d1 p = resolve d2 p.
Proof. intros H. unfold resolve. now rewrite H. Qed.

Lemma lookup_store_same (disk : Disk) (p : string) (e : option Entry) :
  lookup (store disk p e) p = e.
Proof.
  unfold lookup, store, resolve. cbn [entries cwd].
  now rewrite String.eqb_refl.
Qed.

Lemma lookup_store_other (disk : Disk) (p q : string) (e : option Entry) :
  resolve disk q <> resolve disk p ->
  lookup (store disk p e) q = lookup disk q.
Proof.
  intros Hne. unfold lookup, store. cbn [entries].
  change (resolve {| cwd := cwd disk; entries := _ |} q)
    with (resolve disk q).
  destruct (String.eqb_spec (resolve disk q) (resolve disk p));
    [contradiction | reflexivity].
Qed.

Lemma mkdirSync_cwd (faults : Faults) (disk disk' : Disk) (dir : string) :
  mkdirSync faults disk dir = Ok disk' -> cwd disk' = cwd disk.
Proof.
  unfold mkdirSync. destruct (mkdirError _ _); [discriminate|].
  intros [= <-]. reflexivity.
Qed.

(** [mkdirSync] adds directories and changes nothing that exists. *)
Lemma mkdirSync_keeps (faults : Faults) (disk disk' : Disk) (dir q : string)
    (e : Entry) :
  mkdirSync faults disk dir = Ok disk' ->
  entries disk q = Some e -> entries disk' q = Some e.
Proof.
  unfold mkdirSync. destruct (mkdirError _ _); [discriminate|].
  intros [= <-] He. cbn [entries]. now rewrite He.
Qed.

Lemma mkdirSync_adds_directories (faults : Faults) (disk disk' : Disk)
    (dir q : string) (content : string) :
  mkdirSync faults disk dir = Ok disk' ->
  entries disk' q = Some (File content) ->
  entries disk q = Some (File content).
Proof.
  unfold mkdirSync. destruct (mkdirError _ _); [discriminate|].
  intros [= <-]. cbn [entries].
  destruct (entries disk q); [auto|].
  destruct (_ || _); discriminate.
Qed.

Lemma createCsvFile_stream (faults : Faults) (disk disk' : Disk)
    (filePath : string) (stream : WriteStream) :
  createCsvFile faults disk filePath = Ok (disk', stream) ->
  stream = mkStream filePath [(CSV_HEADERS ++ String LF EmptyString)%string]
  /\ cwd disk' = cwd disk
  /\ (forall q e, entries disk q = Some e -> entries disk' q = Some e)
  /\ (forall q content,
         entries disk' q = Some (File content) ->
         entries disk q = Some (File content)).
Proof.
  unfold createCsvFile.
  destruct (negb (existsSync disk (dirname filePath))).
  - destruct (mkdirSync faults disk (dirname filePath)) as [d|m] eqn:Hmk;
      [|discriminate].
    intros [= <- <-]. split; [reflexivity|].
    split; [exact (mkdirSync_cwd _ _ _ _ Hmk)|].
    split; intros q e He.
    + exact (mkdirSync_keeps _ _ _ _ _ _ Hmk He).
    + exact (mkdirSync_adds_directories _ _ _ _ _ _ Hmk He).
  - intros [= <- <-]. repeat split; auto.
Qed.

(** *** The loop of [generateCsvFile] *)

Lemma writeRecords_eq (records : nat -> CapturedText.t) (count : nat) :
  forall (i : nat) (csvStream : WriteStream) (recordsGenerated : Z),
    writeRecords records count i csvStream recordsGenerated
    = (mkStream (streamPath csvStream)
         (chunks csvStream ++ rowsOf records i count),
       recordsGenerated + Z.of_nat count).
Proof.
  induction count as [|count IH]; intros i csvStream n.
  - cbn. rewrite app_nil_r, Z.add_0_r. now destruct csvStream.
  - cbn [writeRecords]. rewrite IH. unfold write, rowsOf.
    cbn [streamPath chunks seq map]. rewrite <- app_assoc. cbn [app].
    f_equal. lia.
Qed.

(** The two ways [generateCsvFile] ends. *)
Lemma generateCsvFile_cases (faults : Faults) (disk : Disk)
    (startTime endTime : Z) (records : nat -> CapturedText.t)
    (workerId connectionId recordCount : Z) :
  let filePath := artifactPath workerId connectionId startTime in
  let outcome :=
    generateCsvFile faults disk startTime endTime records workerId
                    connectionId recordCount in
  let content := stagedContent records (Z.to_nat recordCount) in
  ((exists message,
       fst outcome
       = FileGenerationResult.make workerId connectionId filePath 0 0%float
           (Z2F (endTime - startTime)) false (Some message))
   \/ (fst outcome
       = FileGenerationResult.make workerId connectionId filePath
           (Z.of_nat (Z.to_nat recordCount))
           (Z2F (Z.of_nat (String.length content)) / Z2F (1024 * 1024))%float
           (Z2F (endTime - startTime)) true None
       /\ lookup (snd outcome) filePath = Some (File content)))
  /\ cwd (snd outcome) = cwd disk
  /\ (forall q e, entries disk q = Some e -> q <> resolve disk filePath ->
                  entries (snd outcome) q = Some e)
  /\ (forall q text,
         entries (snd outcome) q = Some (File text) ->
         entries disk q = Some (File text)
         \/ (q = resolve disk filePath
             /\ exists n, text = substring 0 n content)).
Proof.
  intros filePath outcome content. unfold outcome, generateCsvFile.
  fold filePath.
  destruct (createCsvFile faults disk filePath) as [[disk1 stream]|message]
    eqn:Hcreate.
  2:{ cbn [fst snd]. split; [left; now exists message|].
      split; [reflexivity|]. split; auto. }
  destruct (createCsvFile_stream _ _ _ _ _ Hcreate)
    as (-> & Hcwd & Hkeeps & Hfiles).
  rewrite writeRecords_eq. cbn [streamPath chunks app].
  assert (Hres : resolve disk1 filePath = resolve disk filePath)
    by (apply resolve_cwd; exact Hcwd).
  assert (Hwritten :
            written
              (mkStream filePath
                 ((CSV_HEADERS ++ String LF EmptyString)%string
                  :: rowsOf records 0 (Z.to_nat recordCount)))
            = content) by reflexivity.
  assert (Hkept : forall e' q e,
             entries disk q = Some e -> q <> resolve disk filePath ->
             entries (store disk1 filePath e') q = Some e).
  { intros e' q e He Hq. unfold store. cbn [entries]. rewrite Hres.
    destruct (String.eqb_spec q (resolve disk filePath)); [contradiction|].
    now apply Hkeeps. }
  assert (Hother : forall n q text,
             entries (store disk1 filePath
                        (Some (File (substring 0 n content)))) q
             = Some (File text) ->
             entries disk q = Some (File text)
             \/ (q = resolve disk filePath
                 /\ exists n, text = substring 0 n content)).
  { intros n q text. unfold store. cbn [entries]. rewrite Hres.
    destruct (String.eqb_spec q (resolve disk filePath)) as [->|_].
    - intros [= <-]. right. split; [reflexivity | now exists n].
    - intros H. left. now apply Hfiles. }
  assert (Hwhole : substring 0 (String.length content) content = content).
  { clear. induction content as [|c s IH]; cbn; [reflexivity|].
    now rewrite IH. }
  unfold finish. cbn [streamPath]. rewrite Hwritten.
  destruct (streamFate faults (resolve disk1 filePath)) as [|message|n message].
  - unfold calculateFileSizeMB, statSync. rewrite lookup_store_same.
    cbn [fst snd]. rewrite lookup_store_same.
    split; [right; now split|]. split; [exact Hcwd|].
    split; [apply Hkept|].
    intros q text H. apply (Hother (String.length content)).
    now rewrite Hwhole.
  - cbn [fst snd]. split; [left; now exists message|].
    split; [exact Hcwd|]. split; [intros q e He _; now apply Hkeeps|].
    intros q text H. left. now apply Hfiles.
  - cbn [fst snd]. split; [left; now exists message|].
    split; [exact Hcwd|]. split; [apply Hkept | apply Hother].
Qed.

(** *** Stage 1 of a worker *)

(** X11: [generateCsvFile] touches one path only: every entry of the disk at
    another path stays as it was, and a file that exists afterwards either
    existed before with the same content, or lies at the path of the
    artifact and holds a prefix of the complete file (header line and one
    line per record). *)
Theorem generation_writes_no_other_file (faults : Faults) (disk : Disk)
    (startTime endTime : Z) (records : nat -> CapturedText.t)
    (workerId connectionId recordCount : Z) :
  let filePath := artifactPath workerId connectionId startTime in
  let disk' :=
    snd (generateCsvFile faults disk startTime endTime records workerId
                         connectionId recordCount) in
  (forall q e, entries disk q = Some e -> q <> resolve disk filePath ->
               entries disk' q = Some e)
  /\ (forall q text,
         entries disk' q = Some (File text) ->
         entries disk q = Some (File text)
         \/ (q = resolve disk filePath
             /\ exists n,
                  text
                  = substring 0 n
                      (stagedContent records (Z.to_nat recordCount)))).
Proof.
  intros filePath disk'.
  destruct (generateCsvFile_cases faults disk startTime endTime records
              workerId connectionId recordCount)
    as (_ & _ & Hkept & Hfiles).
  split; [exact Hkept | exact Hfiles].
Qed.

(** X12: a generation that reports success has written the complete file:
    the header line and, for each of the [recordCount] records in order,
    its row and a line feed.  It reports [recordCount] records and the size
    of that file in MB. *)
Theorem successful_generation_stages_header_and_rows
    (faults : Faults) (disk : Disk)
    (startTime endTime : Z) (records : nat -> CapturedText.t)
    (workerId connectionId recordCount : Z) :
  let outcome :=
    generateCsvFile faults disk startTime endTime records workerId
                    connectionId recordCount in
  let content := stagedContent records (Z.to_nat recordCount) in
  0 <= recordCount ->
  FileGenerationResult.success (fst outcome) = true ->
  lookup (snd outcome) (FileGenerationResult.filePath (fst outcome))
  = Some (File content)
  /\ FileGenerationResult.recordsGenerated (fst outcome) = recordCount
  /\ FileGenerationResult.fileSizeMB (fst outcome)
     = (Z2F (Z.of_nat (String.length content)) / Z2F (1024 * 1024))%float
  /\ FileGenerationResult.error (fst outcome) = None.
Proof.
  intros outcome content Hcount Hsuccess.
  destruct (generateCsvFile_cases faults disk startTime endTime records
              workerId connectionId recordCount)
    as ([(message & Hfail)|(Hok & Hfile)] & _).
  - unfold outcome in Hsuccess. rewrite Hfail in Hsuccess. discriminate.
  - unfold outcome. rewrite Hok.
    cbn [FileGenerationResult.filePath FileGenerationResult.recordsGenerated
         FileGenerationResult.fileSizeMB FileGenerationResult.error].
    split; [exact Hfile|]. split; [apply Z2Nat.id; exact Hcount|].
    split; reflexivity.
Qed.

Lemma successful_generation_stages_header_and_rows_witness :
  FileGenerationResult.recordsGenerated
    (fst (WorkerScenarios.staged WorkerScenarios.noFaults)) = 2
  /\ lookup (snd (WorkerScenarios.staged WorkerScenarios.noFaults))
       "temp_csv_files/worker_0_conn_1_1700000000000.csv"
     = Some (File (stagedContent WorkerScenarios.plainRecords 2)).
Proof.
  destruct (successful_generation_stages_header_and_rows
              WorkerScenarios.noFaults WorkerScenarios.emptyDisk
              1700000000000 1700000000250 WorkerScenarios.plainRecords
              0 1 2)
    as (Hfile & Hcount & _).
  - discriminate.
  - reflexivity.
  - split; [exact Hcount | exact Hfile].
Defined.

(** X13: a generation that fails reports no record and no data, carries the
    message of the error, and still names the path of its artifact, which
    is not empty: the coordinator hands the path to cleanup. *)
Theorem failed_generation_still_names_its_artifact
    (faults : Faults) (disk : Disk)
    (startTime endTime : Z) (records : nat -> CapturedText.t)
    (workerId connectionId recordCount : Z) :
  let result :=
    fst (generateCsvFile faults disk startTime endTime records workerId
                         connectionId recordCount) in
  FileGenerationResult.success result = false ->
  FileGenerationResult.filePath result
  = artifactPath workerId connectionId startTime
  /\ truthy (FileGenerationResult.filePath result) = true
  /\ FileGenerationResult.recordsGenerated result = 0
  /\ FileGenerationResult.fileSizeMB result = 0%float
  /\ exists message, FileGenerationResult.error result = Some message.
Proof.
  intros result Hfailure.
  destruct (generateCsvFile_cases faults disk startTime endTime records
              workerId connectionId recordCount)
    as ([(message & Hfail)|(Hok & _)] & _).
  - unfold result. rewrite Hfail.
    cbn [FileGenerationResult.filePath FileGenerationResult.recordsGenerated
         FileGenerationResult.fileSizeMB FileGenerationResult.error].
    repeat split. now exists message.
  - unfold result in Hfailure. rewrite Hok in Hfailure. discriminate.
Qed.

Lemma failed_generation_still_names_its_artifact_witness :
  let outcome := WorkerScenarios.staged WorkerScenarios.deviceFull in
  FileGenerationResult.filePath (fst outcome)
  = "temp_csv_files/worker_0_conn_1_1700000000000.csv"
  /\ FileGenerationResult.recordsGenerated (fst outcome) = 0
  /\ FileGenerationResult.error (fst outcome)
     = Some WorkerScenarios.ENOSPC
  /\ option_map
       (fun e => match e with
                 | File text => String.length text
                 | Directory _ => 0%nat
                 end)
       (lookup (snd outcome) (FileGenerationResult.filePath (fst outcome)))
     = Some 100%nat.
Proof.
  destruct (failed_generation_still_names_its_artifact
              WorkerScenarios.deviceFull WorkerScenarios.emptyDisk
              1700000000000 1700000000250 WorkerScenarios.plainRecords
              0 1 2)
    as (Hpath & _ & Hcount & _ & _).
  - reflexivity.
  - split; [exact Hpath|]. split; [exact Hcount|].
    split; vm_compute; reflexivity.
Defined.

(** *** Reading a staged file back *)

Section ReadBack.
Import CsvFile Rfc4180 CsvFacts.

Lemma append_assoc (a b c : string) :
  ((a ++ b) ++ c)%string = (a ++ (b ++ c))%string.
Proof. induction a as [|x a IH]; cbn; [reflexivity | now rewrite IH]. Qed.

Lemma concat_cons (x : string) (l : list string) :
  String.concat EmptyString (x :: l)
  = (x ++ String.concat EmptyString l)%string.
Proof.
  destruct l as [|y l]; cbn [String.concat].
  - now rewrite append_empty.
  - reflexivity.
Qed.

Lemma splitRecords_within (text : string) :
  forall (quoted quoted' : bool) (line : list ascii) (rest : string),
    quoteState quoted text = Some quoted' ->
    splitRecords quoted line (text ++ rest)
    = splitRecords quoted' (rev (list_ascii_of_string text) ++ line) rest.
Proof.
  induction text as [|c text IH]; intros quoted quoted' line rest Hstate.
  - injection Hstate as <-. reflexivity.
  - cbn [quoteState] in Hstate.
    cbn [append splitRecords list_ascii_of_string rev].
    rewrite <- app_assoc. cbn [app].
    destruct (Ascii.eqb c DQUOTE); [now apply IH|].
    destruct (Ascii.eqb c LF && negb quoted); [discriminate | now apply IH].
Qed.

Lemma quoteState_app (a b : string) :
  forall quoted,
    quoteState quoted (a ++ b)
    = match quoteState quoted a with
      | Some quoted' => quoteState quoted' b
      | None => None
      end.
Proof.
  induction a as [|c a IH]; intros quoted; [reflexivity|].
  cbn [append quoteState].
  destruct (Ascii.eqb c DQUOTE); [apply IH|].
  destruct (Ascii.eqb c LF && negb quoted); [reflexivity | apply IH].
Qed.

Lemma quoteState_plain (s : string) (quoted : bool) :
  includes DQUOTE s = false -> includes LF s = false ->
  quoteState quoted s = Some quoted.
Proof.
  induction s as [|c s IH]; intros Hquote Hlf; [reflexivity|].
  apply includes_false_cons in Hquote as [Hc1 Hquote].
  apply includes_false_cons in Hlf as [Hc2 Hlf].
  cbn [quoteState]. rewrite Hc1, Hc2. cbn [andb]. now apply IH.
Qed.

(** Inside quotes, a field with its quotes doubled leaves the state as it
    is, whatever the field holds. *)
Lemma quoteState_doubled (s rest : string) :
  quoteState true (doubleQuotes s ++ rest) = quoteState true rest.
Proof.
  induction s as [|c s IH]; [reflexivity|].
  cbn [doubleQuotes].
  destruct (Ascii.eqb_spec c DQUOTE) as [->|Hc].
  - cbn [append quoteState]. change (Ascii.eqb DQUOTE DQUOTE) with true.
    cbv iota. cbn [negb]. exact IH.
  - cbn [append quoteState].
    destruct (Ascii.eqb_spec c DQUOTE) as [|_]; [contradiction|].
    cbn [negb]. rewrite andb_false_r. exact IH.
Qed.

Lemma quoteState_field (value : JsValue) :
  quoteState false (escapeCsvValue value) = Some false.
Proof.
  assert (Htext : forall str,
             quoteState false
               (if includes COMMA str || includes DQUOTE str
                   || includes LF str
                then String DQUOTE
                       (doubleQuotes str ++ String DQUOTE EmptyString)
                else str)
             = Some false).
  { intros str.
    destruct (includes COMMA str || includes DQUOTE str || includes LF str)
      eqn:Hquoted.
    - cbn [quoteState]. change (Ascii.eqb DQUOTE DQUOTE) with true.
      cbv iota. cbn [negb]. rewrite quoteState_doubled. reflexivity.
    - apply orb_false_iff in Hquoted as [Hquoted Hlf].
      apply orb_false_iff in Hquoted as [_ Hquote].
      now apply quoteState_plain. }
  destruct value as [| |s|z|b]; try reflexivity;
    unfold escapeCsvValue; apply Htext.
Qed.

Lemma quoteState_fields (values : list JsValue) :
  quoteState false (String.concat "," (map escapeCsvValue values))
  = Some false.
Proof.
  induction values as [|v values IH]; [reflexivity|].
  destruct values as [|v' values]; [apply quoteState_field|].
  change (String.concat "," (map escapeCsvValue (v :: v' :: values)))
    with (escapeCsvValue v
          ++ String COMMA
               (String.concat "," (map escapeCsvValue (v' :: values))))%string.
  rewrite quoteState_app, quoteState_field. exact IH.
Qed.

(** A line feed outside quotes closes the record. *)
Lemma splitRecords_line (text rest : string) :
  quoteState false text = Some false ->
  splitRecords false [] (text ++ String LF rest)
  = text :: splitRecords false [] rest.
Proof.
  intros Hstate. rewrite (splitRecords_within _ _ _ _ _ Hstate).
  cbn [splitRecords]. change (Ascii.eqb LF DQUOTE) with false.
  change (Ascii.eqb LF LF) with true. cbn [andb negb]. cbv iota.
  now rewrite app_nil_r, rev_involutive, string_of_list_ascii_of_string.
Qed.

Lemma splitRecords_rows (records : nat -> CapturedText.t) (n : nat) :
  forall i,
    splitRecords false [] (String.concat EmptyString (rowsOf records i n))
    = map (fun j => convertToCsvRow (records j)) (seq i n).
Proof.
  induction n as [|n IH]; intros i; [reflexivity|].
  unfold rowsOf. cbn [seq map]. rewrite concat_cons, append_assoc.
  cbn [append]. rewrite splitRecords_line by apply quoteState_fields.
  f_equal. apply IH.
Qed.

Lemma traverse_rows (records : nat -> CapturedText.t) (n : nat) :
  forall i,
    (forall j, (i <= j < i + n)%nat ->
               Forall (fun s => includes CR s = false)
                      (serializedFields (records j))) ->
    traverse parseRecord
      (map (fun j => convertToCsvRow (records j)) (seq i n))
    = Some (map (fun j => serializedFields (records j)) (seq i n)).
Proof.
  induction n as [|n IH]; intros i Hclean; [reflexivity|].
  cbn [seq map traverse].
  rewrite round_trip_without_carriage_return by (apply Hclean; lia).
  rewrite IH by (intros j Hj; apply Hclean; lia). reflexivity.
Qed.

End ReadBack.

(** X14: the file of a successful generation is read back as it was meant:
    when no field of the records holds a carriage return, the reader finds
    the fifteen column names first and then, record by record and field by
    field, the text of every value, with commas, quotes and line feeds
    inside the fields intact. *)
Theorem staged_file_reads_back
    (faults : Faults) (disk : Disk)
    (startTime endTime : Z) (records : nat -> CapturedText.t)
    (workerId connectionId recordCount : Z) :
  let outcome :=
    generateCsvFile faults disk startTime endTime records workerId
                    connectionId recordCount in
  FileGenerationResult.success (fst outcome) = true ->
  (forall j, (j < Z.to_nat recordCount)%nat ->
             Forall (fun s => includes CR s = false)
                    (serializedFields (records j))) ->
  exists content,
    lookup (snd outcome) (FileGenerationResult.filePath (fst outcome))
    = Some (File content)
    /\ CsvFile.parseFile content
       = Some (["taskId"; "stepIndex"; "name"; "text"; "targetNotFound";
                "detectedChange"; "comparedToTextId"; "comparedToRecording";
                "listId"; "listItemIndex"; "listPageNumber";
                "listPageItemIndex"; "attachmentS3Key";
                "attachmentMimeType"; "type"]
               :: map (fun j => serializedFields (records j))
                      (seq 0 (Z.to_nat recordCount))).
Proof.
  intros outcome Hsuccess Hclean.
  destruct (generateCsvFile_cases faults disk startTime endTime records
              workerId connectionId recordCount)
    as ([(message & Hfail)|(Hok & Hfile)] & _).
  { unfold outcome in Hsuccess. rewrite Hfail in Hsuccess. discriminate. }
  exists (stagedContent records (Z.to_nat recordCount)).
  split.
  { unfold outcome. rewrite Hok. exact Hfile. }
  unfold CsvFile.parseFile, stagedContent.
  rewrite concat_cons, append_assoc. cbn [append].
  rewrite splitRecords_line by reflexivity.
  rewrite splitRecords_rows. cbn [CsvFile.traverse].
  rewrite traverse_rows by (intros j Hj; apply Hclean; lia).
  reflexivity.
Qed.

Lemma staged_file_reads_back_witness :
  exists content,
    lookup (snd (WorkerScenarios.staged WorkerScenarios.noFaults))
      "temp_csv_files/worker_0_conn_1_1700000000000.csv"
    = Some (File content)
    /\ option_map (@length (list string)) (CsvFile.parseFile content)
       = Some 3%nat.
Proof.
  destruct (staged_file_reads_back
              WorkerScenarios.noFaults WorkerScenarios.emptyDisk
              1700000000000 1700000000250 WorkerScenarios.plainRecords
              0 1 2)
    as (content & Hfile & Hparse).
  - reflexivity.
  - intros j _. repeat constructor.
  - exists content. split; [exact Hfile|]. rewrite Hparse. reflexivity.
Defined.

(** *** Cleanup *)

Lemma cleanupFiles_cwd (faults : Faults) (filePaths : list string) :
  forall disk, cwd (cleanupFiles faults disk filePaths) = cwd disk.
Proof.
  induction filePaths as [|p ps IH]; intros disk; [reflexivity|].
  cbn [cleanupFiles]. rewrite IH.
  destruct (existsSync disk p); [|reflexivity].
  unfold unlinkSync. destruct (lookup disk p) as [[text|size]|];
    try reflexivity.
  destruct (unlinkError faults (resolve disk p)); reflexivity.
Qed.

(** One round of the loop. *)
Lemma cleanup_step (faults : Faults) (disk : Disk) (p q : string) :
  entries
    (if existsSync disk p then
       match unlinkSync faults disk p with
       | Ok d => d
       | Throws _ => disk
       end
     else disk) q
  = match entries disk q with
    | Some (File text) =>
        if String.eqb (resolve disk p) q
           && match unlinkError faults q with
              | None => true
              | Some _ => false
              end
        then None
        else Some (File text)
    | other => other
    end.
Proof.
  unfold existsSync, unlinkSync, lookup.
  destruct (String.eqb_spec (resolve disk p) q) as [<-|Hq].
  - destruct (entries disk (resolve disk p)) as [[text|size]|] eqn:He;
      try (now rewrite He).
    destruct (unlinkError faults (resolve disk p)); cbn [andb].
    + now rewrite He.
    + unfold store. cbn [entries]. now rewrite String.eqb_refl.
  - cbn [andb].
    assert (Hsame : forall e, entries (store disk p e) q = entries disk q).
    { intros e. unfold store. cbn [entries].
      destruct (String.eqb_spec q (resolve disk p)); [congruence|].
      reflexivity. }
    destruct (entries disk (resolve disk p)) as [[text|size]|];
      [destruct (unlinkError faults (resolve disk p)); [|rewrite Hsame]| |];
      now destruct (entries disk q) as [[? | ?]|].
Qed.

(** What [cleanupFiles] leaves on the disk, path by path. *)
Lemma cleanupFiles_entries
    (faults : Faults) (filePaths : list string) (q : string) :
  forall disk : Disk,
    entries (cleanupFiles faults disk filePaths) q
    = match entries disk q with
      | Some (File text) =>
          if existsb (fun p => String.eqb (resolve disk p) q) filePaths
             && match unlinkError faults q with
                | None => true
                | Some _ => false
                end
          then None
          else Some (File text)
      | other => other
      end.
Proof.
  induction filePaths as [|p ps IH]; intros disk.
  - cbn. now destruct (entries disk q) as [[? | ?]|].
  - cbn [cleanupFiles existsb]. rewrite IH, cleanup_step.
    match goal with
    | |- context [existsb ?f ps] =>
        replace (existsb f ps)
          with (existsb (fun p => String.eqb (resolve disk p) q) ps)
    end.
    2:{ clear. induction ps as [|a ps IH]; [reflexivity|]. cbn [existsb].
        rewrite IH. f_equal. f_equal. apply resolve_cwd.
        destruct (existsSync disk p); [|reflexivity].
        unfold unlinkSync. destruct (lookup disk p) as [[text|size]|];
          try reflexivity.
        destruct (unlinkError faults (resolve disk p)); reflexivity. }
    destruct (entries disk q) as [[text|size]|]; try reflexivity.
    destruct (String.eqb (resolve disk p) q);
      destruct (unlinkError faults q); cbn [andb orb]; try reflexivity.
    all: now rewrite ?andb_false_r.
Qed.

Lemma existsb_resolve (disk : Disk) (q : string) (filePaths : list string) :
  existsb (fun p => String.eqb (resolve disk p) q) filePaths = true
  <-> In q (map (resolve disk) filePaths).
Proof.
  rewrite existsb_exists, in_map_iff. split.
  - intros (p & Hin & Heq). apply String.eqb_eq in Heq. now exists p.
  - intros (p & Heq & Hin). exists p. split; [exact Hin|].
    now apply String.eqb_eq.
Qed.

(** X15: [cleanupFiles] removes the listed files and nothing else: a listed
    path holds no regular file afterwards unless the operating system
    refuses to remove it; every directory and every file that is not listed
    stays as it was, also when the removal of another file fails; nothing is
    created; and a second cleanup of the same list changes nothing. *)
Theorem cleanup_removes_the_listed_files_only
    (faults : Faults) (disk : Disk) (filePaths : list string) :
  let disk' := cleanupFiles faults disk filePaths in
  (forall p text,
      In p filePaths -> unlinkError faults (resolve disk p) = None ->
      lookup disk' p <> Some (File text))
  /\ (forall q size,
         entries disk q = Some (Directory size) ->
         entries disk' q = Some (Directory size))
  /\ (forall q text,
         entries disk q = Some (File text) ->
         ~ In q (map (resolve disk) filePaths) ->
         entries disk' q = Some (File text))
  /\ (forall q, entries disk q = None -> entries disk' q = None)
  /\ (forall q,
         entries (cleanupFiles faults disk' filePaths) q = entries disk' q).
Proof.
  intros disk'.
  assert (Hres : forall p, resolve disk' p = resolve disk p).
  { intros p. apply resolve_cwd. apply cleanupFiles_cwd. }
  split; [|split; [|split; [|split]]].
  - intros p text Hin Hfault. unfold lookup, disk'.
    rewrite Hres, cleanupFiles_entries.
    destruct (entries disk (resolve disk p)) as [[t|size]|];
      try discriminate.
    rewrite Hfault.
    replace (existsb _ filePaths) with true; [discriminate|].
    symmetry. apply existsb_resolve. now apply in_map.
  - intros q size He. unfold disk'. now rewrite cleanupFiles_entries, He.
  - intros q text He Hout. unfold disk'. rewrite cleanupFiles_entries, He.
    destruct (existsb _ filePaths) eqn:Hex; [|reflexivity].
    apply existsb_resolve in Hex. contradiction.
  - intros q He. unfold disk'. now rewrite cleanupFiles_entries, He.
  - intros q. rewrite cleanupFiles_entries.
    destruct (entries disk' q) as [[text|size]|] eqn:He; try reflexivity.
    unfold disk' in He. rewrite cleanupFiles_entries in He.
    destruct (entries disk q) as [[t|size]|]; try discriminate.
    replace (existsb (fun p => String.eqb (resolve disk' p) q) filePaths)
      with (existsb (fun p => String.eqb (resolve disk p) q) filePaths).
    2:{ generalize filePaths at 1 2. intros l.
        induction l as [|a l IH]; [reflexivity|].
        cbn [existsb]. now rewrite IH, Hres. }
    destruct (existsb _ filePaths && _); [discriminate | reflexivity].
Qed.

(** *** The path of an artifact *)

Lemma includes_app (c : ascii) (a b : string) :
  includes c (a ++ b) = includes c a || includes c b.
Proof.
  induction a as [|x a IH]; [reflexivity|].
  cbn [append includes]. now rewrite IH, orb_assoc.
Qed.

(** A decimal numeral holds digits and at most a sign. *)
Lemma numeral_uint (c : ascii) (u : Decimal.uint) :
  includes c "0123456789" = false ->
  includes c (NilEmpty.string_of_uint u) = false.
Proof.
  intros H. cbn [includes] in H.
  repeat (apply orb_false_iff in H as [? H]).
  induction u; cbn [NilEmpty.string_of_uint includes];
    try reflexivity; rewrite IHu;
    match goal with
    | E : Ascii.eqb ?d c = false |- Ascii.eqb ?d c || false = false =>
        now rewrite E
    end.
Qed.

Lemma numeral_chars (c : ascii) (z : Z) :
  includes c "-0123456789" = false -> includes c (Json.ofZ z) = false.
Proof.
  intros H. apply CsvFacts.includes_false_cons in H as [Hsign Hdigits].
  assert (Hu : forall u, includes c (NilZero.string_of_uint u) = false).
  { intros u. pose proof (numeral_uint c u Hdigits) as Hne.
    destruct u; try exact Hne.
    cbn [includes] in Hdigits. apply orb_false_iff in Hdigits as [H0 _].
    unfold NilZero.string_of_uint. cbn [includes]. now rewrite H0. }
  unfold Json.ofZ. destruct (Z.to_int z) as [u|u]; cbn [NilZero.string_of_int].
  - apply Hu.
  - cbn [includes]. now rewrite Hsign, Hu.
Qed.

Lemma ofZ_injective (a b : Z) : Json.ofZ a = Json.ofZ b -> a = b.
Proof.
  assert (Hnonnil : forall z,
             Z.to_int z <> Decimal.Pos Decimal.Nil
             /\ Z.to_int z <> Decimal.Neg Decimal.Nil).
  { intros z. destruct z as [|p|p]; cbn; split; try discriminate;
      intros [= H]; revert H; apply DecimalPos.Unsigned.to_uint_nonnil. }
  unfold Json.ofZ. intros H.
  apply (f_equal NilZero.int_of_string) in H.
  rewrite !NilZero.isi in H by apply Hnonnil.
  injection H as H. apply (f_equal Z.of_int) in H.
  now rewrite !DecimalZ.of_to in H.
Qed.

(** Two texts that agree up to and from a separator neither holds before
    it. *)
Lemma split_at (c : ascii) (a : string) :
  forall a' x x',
    includes c a = false -> includes c a' = false ->
    (a ++ String c x)%string = (a' ++ String c x')%string ->
    a = a' /\ x = x'.
Proof.
  induction a as [|y a IH]; intros [|y' a'] x x' Ha Ha' Heq;
    cbn [append] in Heq.
  - now injection Heq as ->.
  - injection Heq as <- _. cbn in Ha'.
    rewrite Ascii.eqb_refl in Ha'. discriminate.
  - injection Heq as -> _. cbn in Ha.
    rewrite Ascii.eqb_refl in Ha. discriminate.
  - injection Heq as -> Heq.
    apply CsvFacts.includes_false_cons in Ha as [_ Ha].
    apply CsvFacts.includes_false_cons in Ha' as [_ Ha'].
    destruct (IH _ _ _ Ha Ha' Heq) as [-> ->]. now split.
Qed.

(** X16: the path of an artifact determines the worker, the connection and
    the millisecond it was started in: two generation units of a run, which
    differ in worker or connection, never write to the same file. *)
Theorem artifactPath_is_injective
    (workerId connectionId startTime workerId' connectionId' startTime' : Z) :
  artifactPath workerId connectionId startTime
  = artifactPath workerId' connectionId' startTime' ->
  workerId = workerId' /\ connectionId = connectionId'
  /\ startTime = startTime'.
Proof.
  unfold artifactPath. intros Heq.
  cbn [append] in Heq.
  repeat match type of Heq with
         | String _ _ = String _ _ => injection Heq as Heq
         end.
  apply split_at in Heq as [Hw Heq];
    try (apply numeral_chars; reflexivity).
  cbn [append] in Heq.
  repeat match type of Heq with
         | String _ _ = String _ _ => injection Heq as Heq
         end.
  apply split_at in Heq as [Hc Heq];
    try (apply numeral_chars; reflexivity).
  change (".csv"%string) with (String "." "csv") in Heq.
  apply split_at in Heq as [Ht _];
    try (apply numeral_chars; reflexivity).
  split; [|split]; now apply ofZ_injective.
Qed.

Lemma artifactPath_is_injective_witness :
  artifactPath 0 1 1700000000000
  = "temp_csv_files/worker_0_conn_1_1700000000000.csv"
  /\ (0 = 0 /\ 1 = 1 /\ 1700000000000 = 1700000000000).
Proof.
  split; [reflexivity|].
  apply (artifactPath_is_injective 0 1 1700000000000 0 1 1700000000000).
  reflexivity.
Defined.

(** *** Generation followed by cleanup *)

Lemma beforeLastSlash_none (s : string) :
  includes "/" s = false -> beforeLastSlash s = None.
Proof.
  induction s as [|c s IH]; intros H; [reflexivity|].
  apply CsvFacts.includes_false_cons in H as [Hc H].
  cbn [beforeLastSlash]. now rewrite (IH H), Hc.
Qed.

(** The name of an artifact, without the directory. *)
Lemma artifactPath_split (workerId connectionId startTime : Z) :
  exists fileName,
    artifactPath workerId connectionId startTime
    = ("temp_csv_files/" ++ fileName)%string
    /\ includes "/" fileName = false.
Proof.
  eexists. split; [reflexivity|].
  rewrite !includes_app, !numeral_chars by reflexivity. reflexivity.
Qed.

Lemma dirname_artifactPath (workerId connectionId startTime : Z) :
  dirname (artifactPath workerId connectionId startTime) = "temp_csv_files".
Proof.
  destruct (artifactPath_split workerId connectionId startTime)
    as (fileName & -> & Hname).
  unfold dirname. cbn [append beforeLastSlash].
  rewrite (beforeLastSlash_none _ Hname). reflexivity.
Qed.

Lemma append_cancel (a x y : string) :
  (a ++ x)%string = (a ++ y)%string -> x = y.
Proof.
  induction a as [|c a IH]; cbn [append]; [auto|].
  intros [= H]. now apply IH.
Qed.

Lemma directory_is_not_the_artifact (disk : Disk)
    (workerId connectionId startTime : Z) :
  resolve disk "temp_csv_files"
  <> resolve disk (artifactPath workerId connectionId startTime).
Proof.
  destruct (artifactPath_split workerId connectionId startTime)
    as (fileName & -> & _).
  unfold resolve. cbn [append isAbsolute].
  change (Ascii.eqb "t" "/") with false. cbv iota.
  intros H. apply append_cancel in H. discriminate.
Qed.

Lemma createCsvFile_directory (faults : Faults) (disk disk' : Disk)
    (filePath : string) (stream : WriteStream) :
  createCsvFile faults disk filePath = Ok (disk', stream) ->
  existsSync disk' (dirname filePath) = true.
Proof.
  unfold createCsvFile.
  destruct (existsSync disk (dirname filePath)) eqn:Hexists; cbn [negb].
  - now intros [= <- _].
  - unfold mkdirSync.
    destruct (mkdirError faults (resolve disk (dirname filePath)));
      [discriminate|].
    intros [= <- _]. unfold existsSync, lookup, resolve.
    cbn [entries cwd]. fold (resolve disk (dirname filePath)).
    destruct (entries disk (resolve disk (dirname filePath)));
      [reflexivity|].
    now rewrite String.eqb_refl.
Qed.

(** X17: cleanup undoes the file of a generation and not its directory:
    after a successful generation and the cleanup of the reported path,
    nothing is left at that path, while the staging directory
    [temp_csv_files], which the generation created if it was missing, is
    still there. *)
Theorem cleanup_leaves_the_staging_directory
    (faults : Faults) (disk : Disk)
    (startTime endTime : Z) (records : nat -> CapturedText.t)
    (workerId connectionId recordCount : Z) :
  let outcome :=
    generateCsvFile faults disk startTime endTime records workerId
                    connectionId recordCount in
  let filePath := FileGenerationResult.filePath (fst outcome) in
  let disk' := cleanupFiles faults (snd outcome) [filePath] in
  FileGenerationResult.success (fst outcome) = true ->
  unlinkError faults (resolve disk filePath) = None ->
  lookup disk' filePath = None
  /\ existsSync disk' "temp_csv_files" = true.
Proof.
  intros outcome filePath disk'. unfold disk', filePath, outcome.
  clear outcome filePath disk'. unfold generateCsvFile.
  set (filePath := artifactPath workerId connectionId startTime).
  destruct (createCsvFile faults disk filePath) as [[disk1 stream]|message]
    eqn:Hcreate; [|discriminate].
  pose proof (createCsvFile_directory _ _ _ _ _ Hcreate) as Hdir.
  unfold filePath in Hdir. rewrite dirname_artifactPath in Hdir.
  fold filePath in Hdir.
  destruct (createCsvFile_stream _ _ _ _ _ Hcreate) as (-> & Hcwd & _).
  rewrite writeRecords_eq. cbn [streamPath chunks app].
  unfold finish. cbn [streamPath].
  assert (Hres : forall p, resolve disk1 p = resolve disk p)
    by (intros p; apply resolve_cwd; exact Hcwd).
  destruct (streamFate faults (resolve disk1 filePath));
    [|discriminate|discriminate].
  unfold calculateFileSizeMB, statSync. rewrite lookup_store_same.
  cbn [fst snd FileGenerationResult.filePath FileGenerationResult.success].
  intros _ Hfault.
  set (disk2 := store disk1 filePath _).
  assert (Hres2 : forall p, resolve disk2 p = resolve disk p)
    by (intros p; rewrite <- Hres; reflexivity).
  split.
  - unfold lookup. rewrite resolve_cwd with (d2 := disk)
      by (rewrite cleanupFiles_cwd; exact Hcwd).
    rewrite cleanupFiles_entries. cbn [existsb].
    rewrite Hres2, String.eqb_refl, Hfault. cbn [orb andb].
    pose proof (lookup_store_same disk1 filePath
                  (Some (File (written
                     (mkStream filePath
                        ((CSV_HEADERS ++ String LF EmptyString)%string
                         :: rowsOf records 0 (Z.to_nat recordCount)))))))
      as Hfile.
    fold disk2 in Hfile. unfold lookup in Hfile. rewrite Hres2 in Hfile.
    now rewrite Hfile.
  - unfold existsSync, lookup.
    rewrite resolve_cwd with (d2 := disk)
      by (rewrite cleanupFiles_cwd; exact Hcwd).
    rewrite cleanupFiles_entries. cbn [existsb]. rewrite Hres2.
    assert (Hne : resolve disk "temp_csv_files" <> resolve disk filePath)
      by apply directory_is_not_the_artifact.
    destruct (String.eqb_spec (resolve disk filePath)
                (resolve disk "temp_csv_files")) as [Heq|_];
      [now symmetry in Heq|].
    cbn [orb andb].
    assert (Hstill : existsSync disk2 "temp_csv_files" = true).
    { unfold existsSync, disk2. rewrite lookup_store_other; [exact Hdir|].
      now rewrite !Hres. }
    unfold existsSync, lookup in Hstill. rewrite Hres2 in Hstill.
    now destruct (entries disk2 (resolve disk "temp_csv_files"))
      as [[t|s]|].
Qed.

Lemma cleanup_leaves_the_staging_directory_witness :
  let outcome := WorkerScenarios.staged WorkerScenarios.noFaults in
  let disk' :=
    cleanupFiles WorkerScenarios.noFaults (snd outcome)
      [FileGenerationResult.filePath (fst outcome)] in
  existsSync WorkerScenarios.emptyDisk "temp_csv_files" = false
  /\ lookup disk' (FileGenerationResult.filePath (fst outcome)) = None
  /\ existsSync disk' "temp_csv_files" = true.
Proof.
  split; [reflexivity|].
  apply (cleanup_leaves_the_staging_directory
           WorkerScenarios.noFaults WorkerScenarios.emptyDisk
           1700000000000 1700000000250 WorkerScenarios.plainRecords 0 1 2).
  - reflexivity.
  - reflexivity.
Defined.

(** *** Stage 2 of a worker *)

(** X18: on every path through [executeCopyCommand] the pool that was
    created is destroyed last, and a connection is released exactly when
    one was acquired, before the pool is destroyed; no connection is
    acquired for a file that [statSync] does not find. *)
Theorem pool_is_destroyed_on_every_path
    (server : Server) (disk : Disk) (startTime endTime : Z)
    (db : Database.Coordinates) (config : BenchmarkConfig.t)
    (workerId connectionId : Z) (filePath : string) :
  let events :=
    snd (executeCopyCommand server disk startTime endTime db config
                            workerId connectionId filePath) in
  let options := Database.createAuroraLimitlessConnection db config in
  events = [Created options; Destroyed]
  \/ (events = [Created options; Acquired; Released; Destroyed]
      /\ acquireConnection server = None
      /\ exists size, statSync disk (resolve disk filePath) = Ok size).
Proof.
  intros events options. unfold events, executeCopyCommand.
  fold options. unfold calculateFileSizeMB.
  destruct (statSync disk (resolve disk filePath)) as [size|message].
  2:{ left. now destruct (destroy server). }
  destruct (acquireConnection server) as [message|].
  { left. now destruct (destroy server). }
  right. split; [|split; [reflexivity | now exists size]].
  destruct (readStream disk (resolve disk filePath)) as [content|message];
    [destruct (copyFrom server content)|];
    now destruct (destroy server).
Qed.

(** X19: a copy that is posted as failed counts nothing: it reports no row
    and no data, also when the stream broke after rows had been sent, it
    names the file it was given, and it carries the message of the error. *)
Theorem failed_copy_reports_no_rows
    (server : Server) (disk : Disk) (startTime endTime : Z)
    (db : Database.Coordinates) (config : BenchmarkConfig.t)
    (workerId connectionId : Z) (filePath : string) :
  let result :=
    copyStage server disk startTime endTime db config workerId connectionId
              filePath in
  CopyExecutionResult.success result = false ->
  CopyExecutionResult.recordsInserted result = 0
  /\ CopyExecutionResult.dataSizeMB result = 0%float
  /\ CopyExecutionResult.filePath result = filePath
  /\ exists message, CopyExecutionResult.error result = Some message.
Proof.
  intros result. unfold result, copyStage, executeCopyCommand.
  destruct (calculateFileSizeMB disk (resolve disk filePath))
    as [size|message].
  2:{ destruct (destroy server); cbn; intros _; repeat split; eauto. }
  destruct (acquireConnection server) as [message|].
  { destruct (destroy server); cbn; intros _; repeat split; eauto. }
  destruct (readStream disk (resolve disk filePath)) as [content|message];
    [destruct (copyFrom server content)|];
    destruct (destroy server); cbn; intros H;
    try discriminate; repeat split; eauto.
Qed.

Lemma failed_copy_reports_no_rows_witness :
  let result :=
    copyStage WorkerScenarios.dropping
      (snd (WorkerScenarios.staged WorkerScenarios.noFaults))
      1700000001000 1700000001400 WorkerScenarios.coordinates
      Scenarios.twoArtifactsConfig 0 1
      "temp_csv_files/worker_0_conn_1_1700000000000.csv" in
  CopyExecutionResult.recordsInserted result = 0
  /\ CopyExecutionResult.error result
     = Some "Connection terminated unexpectedly".
Proof.
  destruct (failed_copy_reports_no_rows
              WorkerScenarios.dropping
              (snd (WorkerScenarios.staged WorkerScenarios.noFaults))
              1700000001000 1700000001400 WorkerScenarios.coordinates
              Scenarios.twoArtifactsConfig 0 1
              "temp_csv_files/worker_0_conn_1_1700000000000.csv")
    as (Hrows & _).
  - reflexivity.
  - split; [exact Hrows | reflexivity].
Defined.

Lemma resolve_resolve (disk : Disk) (p : string) :
  isAbsolute (cwd disk) = true ->
  resolve disk (resolve disk p) = resolve disk p.
Proof.
  intros Habs.
  assert (H : isAbsolute (resolve disk p) = true).
  { unfold resolve. destruct (isAbsolute p) eqn:Hp; [exact Hp|].
    destruct (cwd disk) as [|c rest]; [discriminate | exact Habs]. }
  generalize dependent (resolve disk p). intros q Hq.
  unfold resolve. now rewrite Hq.
Qed.

(** X20: stage 2 finds what stage 1 staged: run on the disk a successful
    generation leaves, with the path that generation reported, the copy
    sends the complete file to the server and, when the server accepts it,
    reports the size stage 1 reported and the row count of the server (0
    when the server gives none). *)
Theorem copy_loads_the_staged_file
    (faults : Faults) (disk : Disk)
    (startTime endTime : Z) (records : nat -> CapturedText.t)
    (workerId connectionId recordCount : Z)
    (server : Server) (copyStart copyEnd : Z)
    (db : Database.Coordinates) (config : BenchmarkConfig.t)
    (rowCount : option Z) :
  let outcome :=
    generateCsvFile faults disk startTime endTime records workerId
                    connectionId recordCount in
  let generation := fst outcome in
  isAbsolute (cwd disk) = true ->
  FileGenerationResult.success generation = true ->
  acquireConnection server = None ->
  destroy server = None ->
  copyFrom server (stagedContent records (Z.to_nat recordCount))
  = Copied rowCount ->
  copyStage server (snd outcome) copyStart copyEnd db config workerId
            connectionId (FileGenerationResult.filePath generation)
  = CopyExecutionResult.make workerId connectionId
      (FileGenerationResult.filePath generation)
      (match rowCount with
       | Some n => n
       | None => 0
       end)
      (FileGenerationResult.fileSizeMB generation)
      (Z2F (copyEnd - copyStart)) true None.
Proof.
  intros outcome generation Habs Hsuccess Hacquire Hdestroy Hcopy.
  destruct (generateCsvFile_cases faults disk startTime endTime records
              workerId connectionId recordCount)
    as ([(message & Hfail)|(Hok & Hfile)] & Hcwd & _).
  { unfold generation, outcome in Hsuccess. rewrite Hfail in Hsuccess.
    discriminate. }
  fold outcome in Hok, Hfile, Hcwd. unfold generation. rewrite Hok.
  cbn [FileGenerationResult.filePath FileGenerationResult.fileSizeMB].
  set (filePath := artifactPath workerId connectionId startTime) in *.
  assert (Hfound : lookup (snd outcome) (resolve (snd outcome) filePath)
                   = Some (File (stagedContent records
                                   (Z.to_nat recordCount)))).
  { unfold lookup. rewrite resolve_resolve by (now rewrite Hcwd).
    exact Hfile. }
  unfold copyStage, executeCopyCommand, calculateFileSizeMB, statSync,
    readStream.
  rewrite Hfound, Hacquire, Hcopy, Hdestroy. reflexivity.
Qed.

Lemma copy_loads_the_staged_file_witness :
  let outcome := WorkerScenarios.staged WorkerScenarios.noFaults in
  let result :=
    copyStage WorkerScenarios.counting (snd outcome) 1700000001000
      1700000001400 WorkerScenarios.coordinates
      Scenarios.twoArtifactsConfig 0 1
      (FileGenerationResult.filePath (fst outcome)) in
  CopyExecutionResult.success result = true
  /\ CopyExecutionResult.recordsInserted result = 2
  /\ CopyExecutionResult.dataSizeMB result
     = FileGenerationResult.fileSizeMB (fst outcome).
Proof.
  intros outcome result. unfold result, outcome, WorkerScenarios.staged.
  rewrite (copy_loads_the_staged_file
             WorkerScenarios.noFaults WorkerScenarios.emptyDisk
             1700000000000 1700000000250 WorkerScenarios.plainRecords
             0 1 2 WorkerScenarios.counting 1700000001000 1700000001400
             WorkerScenarios.coordinates Scenarios.twoArtifactsConfig
             (Some 2));
    try reflexivity.
  repeat split.
Defined.
End WorkerFacts.

(** ** Generated records in a staged file *)

Module GeneratedRecordFacts.
Import Json DataGenerator CsvUtils Rfc4180 PrintableDraws.

Lemma noCR_true (s : string) : noCR s = true <-> includes CsvUtils.CR s = false.
Proof. unfold noCR. now destruct (includes CsvUtils.CR s). Qed.

(** [JSON.stringify] escapes every control character: no character is
    printed as a carriage return. *)
Lemma escapeChar_noCR (c : ascii) :
  includes CsvUtils.CR (escapeChar c) = false.
Proof. destruct c as [[] [] [] [] [] [] [] []]; reflexivity. Qed.

Lemma escapeChars_noCR (s : string) :
  includes CsvUtils.CR (escapeChars s) = false.
Proof.
  induction s as [|c s IH]; [reflexivity|].
  cbn [escapeChars]. now rewrite WorkerFacts.includes_app, escapeChar_noCR, IH.
Qed.

Lemma quote_noCR (s : string) : includes CsvUtils.CR (quote s) = false.
Proof.
  unfold quote. cbn [includes].
  now rewrite WorkerFacts.includes_app, escapeChars_noCR.
Qed.

Lemma indent_noCR (depth : nat) :
  includes CsvUtils.CR (indent depth) = false.
Proof. induction depth as [|d IH]; [reflexivity | exact IH]. Qed.

Lemma concat_noCR (sep : string) (l : list string) :
  includes CsvUtils.CR sep = false ->
  Forall (fun s => includes CsvUtils.CR s = false) l ->
  includes CsvUtils.CR (String.concat sep l) = false.
Proof.
  intros Hsep. induction 1 as [|s l Hs Hl IH]; [reflexivity|].
  destruct l as [|s' l]; [exact Hs|].
  change (String.concat sep (s :: s' :: l))
    with (s ++ sep ++ String.concat sep (s' :: l))%string.
  now rewrite !WorkerFacts.includes_app, Hs, Hsep, IH.
Qed.

(** The text of a document holds no carriage return when its number
    literals hold none. *)
Lemma render_noCR :
  forall (v : value) (depth : nat),
    literalsPrintable v = true ->
    includes CsvUtils.CR (render depth v) = false.
Proof.
  fix IH 1. intros v depth Hv.
  destruct v as [|b|literal|s|items|members].
  - reflexivity.
  - destruct b; reflexivity.
  - now apply noCR_true.
  - apply quote_noCR.
  - assert (Hitems :
              Forall (fun s => includes CsvUtils.CR s = false)
                (map (fun item => (indent (S depth)
                                   ++ render (S depth) item)%string)
                     items)).
    { cbn [literalsPrintable] in Hv. clear - IH Hv.
      induction items as [|item items IHitems]; [constructor|].
      cbn [forallb] in Hv. apply andb_prop in Hv as [Hitem Hrest].
      cbn [map]. constructor; [|now apply IHitems].
      now rewrite WorkerFacts.includes_app, indent_noCR, IH. }
    destruct items as [|item items]; [reflexivity|].
    cbn [render].
    rewrite !WorkerFacts.includes_app, concat_noCR, indent_noCR;
      [reflexivity | reflexivity | exact Hitems].
  - assert (Hmembers :
              Forall (fun s => includes CsvUtils.CR s = false)
                (map (fun member : string * value =>
                        match member with
                        | (key, item) =>
                            (indent (S depth) ++ quote key ++ ": "
                             ++ render (S depth) item)%string
                        end)
                     members)).
    { cbn [literalsPrintable] in Hv. clear - IH Hv.
      induction members as [|[key item] members IHmembers]; [constructor|].
      cbn [forallb snd] in Hv. apply andb_prop in Hv as [Hitem Hrest].
      cbn [map]. constructor; [|now apply IHmembers].
      now rewrite !WorkerFacts.includes_app, indent_noCR, quote_noCR, IH. }
    destruct members as [|member members]; [reflexivity|].
    cbn [render].
    rewrite !WorkerFacts.includes_app, concat_noCR, indent_noCR;
      [reflexivity | reflexivity | exact Hmembers].
Qed.

Lemma ofZ_noCR (z : Z) : noCR (ofZ z) = true.
Proof. apply noCR_true, WorkerFacts.numeral_chars. reflexivity. Qed.

Lemma setMember_printable (key : string) (item : value)
    (members : list (string * value)) :
  literalsPrintable item = true -> membersPrintable members = true ->
  membersPrintable (setMember key item members) = true.
Proof.
  intros Hitem. unfold membersPrintable.
  induction members as [|[k v] members IH]; intros Hmembers.
  - cbn. now rewrite Hitem.
  - cbn [forallb snd] in Hmembers. apply andb_prop in Hmembers as [Hv Hrest].
    cbn [setMember]. destruct (String.eqb k key); cbn [forallb snd].
    + now rewrite Hitem, Hrest.
    + now rewrite Hv, IH.
Qed.

Lemma Object_assign_printable (source : list (string * value)) :
  forall target,
    membersPrintable target = true -> membersPrintable source = true ->
    membersPrintable (Object_assign target source) = true.
Proof.
  unfold Object_assign.
  induction source as [|[k v] source IH]; intros target Htarget Hsource;
    [exact Htarget|].
  unfold membersPrintable in Hsource. cbn [forallb snd] in Hsource.
  apply andb_prop in Hsource as [Hv Hrest].
  cbn [fold_left fst snd]. apply IH; [|exact Hrest].
  now apply setMember_printable.
Qed.

Lemma baseData_printable (d : BaseDraws) :
  basePrintable d = true -> membersPrintable (baseData d) = true.
Proof.
  unfold basePrintable. intros H.
  apply andb_prop in H as [H H3]. apply andb_prop in H as [H1 H2].
  unfold membersPrintable, baseData, JInt.
  cbn [forallb snd literalsPrintable].
  rewrite H1, H2, H3, !ofZ_noCR. reflexivity.
Qed.

Lemma additionalData_printable (d : FillerDraws) :
  fillerPrintable d = true -> membersPrintable (additionalData d) = true.
Proof.
  unfold fillerPrintable. intros H. apply andb_prop in H as [Hvalue Hitems].
  unfold membersPrintable, additionalData, JInt.
  cbn [forallb snd literalsPrintable]. rewrite Hvalue. cbn [andb].
  assert (Htags : forallb literalsPrintable
                    (map (fun n => JString ("tag_" ++ ofZ n)%string)
                         (filler_tags d)) = true).
  { induction (filler_tags d) as [|n l IH]; [reflexivity | exact IH]. }
  rewrite Htags. cbn [andb].
  assert (Harray : forallb literalsPrintable
                     (map arrayItem (filler_arrayData d)) = true).
  { induction (filler_arrayData d) as [|item l IH]; [reflexivity|].
    cbn [forallb] in Hitems. apply andb_prop in Hitems as [Hitem Hrest].
    cbn [map forallb]. rewrite (IH Hrest).
    unfold itemPrintable in Hitem. apply andb_prop in Hitem as [Hs Hw].
    unfold arrayItem, JInt. cbn [forallb snd literalsPrintable].
    now rewrite Hs, Hw, ofZ_noCR. }
  now rewrite Harray.
Qed.

Lemma fill_noCR (targetSizeBytes : Z) (fillers : list FillerDraws) :
  forall currentData jsonText currentSize text,
    forallb fillerPrintable fillers = true ->
    membersPrintable currentData = true ->
    includes CsvUtils.CR jsonText = false ->
    fill targetSizeBytes currentData jsonText currentSize fillers
    = Some text ->
    includes CsvUtils.CR text = false.
Proof.
  induction fillers as [|d rest IH];
    intros currentData jsonText currentSize text Hfillers Hdata Htext;
    cbn [fill]; destruct (currentSize <? targetSizeBytes);
    try discriminate; try (intros [= <-]; exact Htext).
  cbn [forallb] in Hfillers. apply andb_prop in Hfillers as [Hd Hrest].
  destruct (_ >? targetSizeBytes); [intros [= <-]; exact Htext|].
  apply IH; [exact Hrest | |].
  - apply Object_assign_printable; [exact Hdata|].
    now apply additionalData_printable.
  - apply render_noCR. cbn [literalsPrintable].
    apply Object_assign_printable; [exact Hdata|].
    now apply additionalData_printable.
Qed.

(** No field of a generated record holds a carriage return. *)
Lemma generated_fields_hold_no_carriage_return
    (draws : RecordDraws) (record : CapturedText.t) :
  generateCapturedText draws = Some record ->
  printable draws = true ->
  includes CsvUtils.CR (CapturedText.text record) = false
  /\ Forall (fun s => includes CsvUtils.CR s = false)
            (serializedFields record).
Proof.
  unfold generateCapturedText, generateLargeJsonText, printable.
  intros Hrecord Hdraws.
  do 5 (apply andb_prop in Hdraws as [Hdraws ?]).
  destruct (fill _ _ _ _ _) as [text|] eqn:Hfill; [|discriminate].
  injection Hrecord as <-.
  assert (Htext : includes CsvUtils.CR text = false).
  { apply (fill_noCR _ _ _ _ _ _ ltac:(eassumption)) in Hfill;
      [exact Hfill | now apply baseData_printable |].
    apply render_noCR. cbn [literalsPrintable].
    now apply baseData_printable. }
  split; [exact Htext|].
  unfold serializedFields, fieldValues.
  cbn [map CapturedText.taskId CapturedText.stepIndex CapturedText.name
       CapturedText.text CapturedText.targetNotFound
       CapturedText.detectedChange CapturedText.comparedToTextId
       CapturedText.comparedToRecording CapturedText.listId
       CapturedText.listItemIndex CapturedText.listPageNumber
       CapturedText.listPageItemIndex CapturedText.attachmentS3Key
       CapturedText.attachmentMimeType CapturedText.type].
  assert (Hnum : forall o, includes CsvUtils.CR
                             (serializedField (ofOptNumber o)) = false).
  { intros [z|]; [|reflexivity]. apply noCR_true, ofZ_noCR. }
  assert (Hbool : forall b, includes CsvUtils.CR
                              (serializedField (VBoolean b)) = false).
  { intros []; reflexivity. }
  assert (Hopt : forall o, noCRopt o = true ->
                           includes CsvUtils.CR
                             (serializedField (ofOptString o)) = false).
  { intros [s|] Hs; [now apply noCR_true | reflexivity]. }
  repeat constructor; try apply Hnum; try apply Hbool;
    try (apply Hopt; assumption).
  - now apply noCR_true.
  - apply noCR_true, ofZ_noCR.
  - change (includes CsvUtils.CR (ofZ (draw_nameNo draws)) = false).
    apply noCR_true, ofZ_noCR.
  - exact Htext.
  - destruct (draw_attachmentUuid draws) as [u|]; [|reflexivity].
    cbn [noCRopt] in *.
    match goal with
    | Hu : noCR u = true |- _ => apply noCR_true in Hu; rename Hu into Huuid
    end.
    cbn [option_map ofOptString serializedField toString].
    change (includes CsvUtils.CR (u ++ ".txt") = false).
    now rewrite WorkerFacts.includes_app, Huuid.
  - now destruct (draw_attachmentMimeType draws).
  - cbn [serializedField toString].
    generalize (draw_type draws). intros n.
    do 8 (destruct n as [|n]; [reflexivity|]). now destruct n.
Qed.

Lemma includes_app_l (c : ascii) (a b : string) :
  includes c a = true -> includes c (a ++ b) = true.
Proof. intros H. now rewrite WorkerFacts.includes_app, H. Qed.

Lemma includes_app_r (c : ascii) (a b : string) :
  includes c b = true -> includes c (a ++ b) = true.
Proof. intros H. rewrite WorkerFacts.includes_app, H. apply orb_true_r. Qed.

(** The text of an object of two members or more holds a comma, a double
    quote and a line feed: the quote opens the first key, the comma and the
    line feed separate the first two members. *)
Lemma stringify_object_delimiters (members : list (string * value)) :
  (2 <= length members)%nat ->
  includes COMMA (stringify (JObject members)) = true
  /\ includes CsvUtils.DQUOTE (stringify (JObject members)) = true
  /\ includes CsvUtils.LF (stringify (JObject members)) = true.
Proof.
  destruct members as [|[key item] [|second rest]]; cbn [length]; try lia.
  intros _. unfold stringify.
  cbn [render map String.concat].
  split; [|split].
  - apply includes_app_r, includes_app_r, includes_app_l.
    apply includes_app_r, includes_app_l. reflexivity.
  - apply includes_app_r, includes_app_r, includes_app_l, includes_app_l.
    apply includes_app_r, includes_app_l. reflexivity.
  - apply includes_app_r, includes_app_l. reflexivity.
Qed.

Lemma setMember_length (key : string) (item : value)
    (members : list (string * value)) :
  (length members <= length (setMember key item members))%nat.
Proof.
  induction members as [|[k v] members IH]; cbn [setMember length]; [lia|].
  destruct (String.eqb k key); cbn [length]; lia.
Qed.

Lemma Object_assign_length (source : list (string * value)) :
  forall target,
    (length target <= length (Object_assign target source))%nat.
Proof.
  unfold Object_assign.
  induction source as [|[k v] source IH]; intros target; cbn [fold_left];
    [lia|].
  specialize (IH (setMember (fst (k, v)) (snd (k, v)) target)).
  pose proof (setMember_length (fst (k, v)) (snd (k, v)) target). lia.
Qed.

(** The filling loop returns the text of an object that still has the
    members it started with. *)
Lemma fill_delimiters (targetSizeBytes : Z) (fillers : list FillerDraws) :
  forall currentData jsonText currentSize text,
    (2 <= length currentData)%nat ->
    jsonText = stringify (JObject currentData) ->
    fill targetSizeBytes currentData jsonText currentSize fillers
    = Some text ->
    includes COMMA text = true
    /\ includes CsvUtils.DQUOTE text = true
    /\ includes CsvUtils.LF text = true.
Proof.
  induction fillers as [|d rest IH];
    intros currentData jsonText currentSize text Hdata Htext;
    cbn [fill]; destruct (currentSize <? targetSizeBytes);
    try discriminate;
    try (intros [= <-]; subst jsonText;
         now apply stringify_object_delimiters).
  destruct (_ >? targetSizeBytes);
    [intros [= <-]; subst jsonText; now apply stringify_object_delimiters|].
  apply IH; [|reflexivity].
  pose proof (Object_assign_length (additionalData d) currentData). lia.
Qed.

(** X21: the carriage return that [escapeCsvValue] does not quote never
    occurs in a generated record: [JSON.stringify] escapes it in every
    string of the payload, and the other fields are numerals, booleans,
    fixed words and identifiers.  Every record the generator returns from
    draws whose identifiers and number literals hold no carriage return is
    therefore read back from its row field for field. *)
Theorem generated_record_reads_back
    (draws : RecordDraws) (record : CapturedText.t) :
  generateCapturedText draws = Some record ->
  printable draws = true ->
  includes CsvUtils.CR (CapturedText.text record) = false
  /\ parseRecord (convertToCsvRow record) = Some (serializedFields record).
Proof.
  intros Hrecord Hdraws.
  destruct (generated_fields_hold_no_carriage_return draws record Hrecord
              Hdraws) as [Htext Hfields].
  split; [exact Htext|].
  now apply CsvFacts.round_trip_without_carriage_return.
Qed.

Lemma generated_record_reads_back_witness :
  exists record,
    generateCapturedText Scenarios.sampleRecordDraws = Some record
    /\ parseRecord (convertToCsvRow record) = Some (serializedFields record).
Proof.
  assert (Hsome : option_map (fun _ => tt)
                    (generateCapturedText Scenarios.sampleRecordDraws)
                  = Some tt)
    by (vm_compute; reflexivity).
  destruct (generateCapturedText Scenarios.sampleRecordDraws)
    as [record|] eqn:Hrecord.
  - exists record. split; [reflexivity|].
    apply (generated_record_reads_back Scenarios.sampleRecordDraws record
             Hrecord).
    vm_compute. reflexivity.
  - discriminate.
Defined.

(** C7: every Record, that is every [CapturedText] the Generator creates
    (the only records [convertToCsvRow] is called with), is written as a
    row that an RFC 4180 reader reads back field for field.  The text of
    every such record holds commas, double quotes and line feeds, so it is
    written between quotes with its quotes doubled; the row is read back as
    the record's fifteen serialized fields, text included.  The draws are
    those of a real run: the identifiers and the number literals drawn hold
    no carriage return. *)
Theorem generated_record_round_trips
    (draws : RecordDraws) (record : CapturedText.t) :
  generateCapturedText draws = Some record ->
  printable draws = true ->
  includes COMMA (CapturedText.text record) = true
  /\ includes CsvUtils.DQUOTE (CapturedText.text record) = true
  /\ includes CsvUtils.LF (CapturedText.text record) = true
  /\ escapeCsvValue (VString (CapturedText.text record))
     = String CsvUtils.DQUOTE
         (doubleQuotes (CapturedText.text record)
          ++ String CsvUtils.DQUOTE EmptyString)
  /\ length (serializedFields record) = 15%nat
  /\ nth_error (serializedFields record) 3
     = Some (CapturedText.text record)
  /\ parseRecord (convertToCsvRow record) = Some (serializedFields record).
Proof.
  intros Hrecord Hdraws.
  destruct (generated_fields_hold_no_carriage_return draws record Hrecord
              Hdraws) as [_ Hfields].
  assert (Hdelimiters :
            includes COMMA (CapturedText.text record) = true
            /\ includes CsvUtils.DQUOTE (CapturedText.text record) = true
            /\ includes CsvUtils.LF (CapturedText.text record) = true).
  { unfold generateCapturedText, generateLargeJsonText in Hrecord.
    destruct (fill _ _ _ _ _) as [text|] eqn:Hfill; [|discriminate].
    injection Hrecord as <-. cbn [CapturedText.text].
    refine (fill_delimiters _ _ _ _ _ _ _ eq_refl Hfill).
    cbn [baseData length]. lia. }
  destruct Hdelimiters as (Hcomma & Hquote & Hfeed).
  repeat split; try assumption.
  - unfold escapeCsvValue. cbn [toString]. now rewrite Hcomma.
  - now apply CsvFacts.round_trip_without_carriage_return.
Qed.

Lemma generated_record_round_trips_witness :
  exists record,
    generateCapturedText Scenarios.sampleRecordDraws = Some record
    /\ includes COMMA (CapturedText.text record) = true
    /\ includes CsvUtils.DQUOTE (CapturedText.text record) = true
    /\ includes CsvUtils.LF (CapturedText.text record) = true
    /\ length (serializedFields record) = 15%nat
    /\ parseRecord (convertToCsvRow record) = Some (serializedFields record).
Proof.
  assert (Hsome : option_map (fun _ => tt)
                    (generateCapturedText Scenarios.sampleRecordDraws)
                  = Some tt)
    by (vm_compute; reflexivity).
  destruct (generateCapturedText Scenarios.sampleRecordDraws)
    as [record|] eqn:Hrecord.
  - exists record. split; [reflexivity|].
    destruct (generated_record_round_trips Scenarios.sampleRecordDraws
                record Hrecord)
      as (Hcomma & Hquote & Hfeed & _ & Hlength & _ & Hread).
    + vm_compute. reflexivity.
    + repeat split; assumption.
  - discriminate.
Defined.

End GeneratedRecordFacts.

(** ** The insert worker *)

Module InsertWorkerFacts.
Import Js BenchmarkWorker InsertWorker.

(** *** The statistics *)

Lemma insertSorted_In (x y : float) (sorted : list float) :
  In x (insertSorted y sorted) <-> x = y \/ In x sorted.
Proof.
  induction sorted as [|z sorted IH]; cbn [insertSorted].
  - cbn. intuition.
  - destruct (PrimFloat.ltb (PrimFloat.sub z y) PrimFloat.zero); cbn [In].
    + rewrite IH. intuition.
    + intuition.
Qed.

Lemma sortAscending_In (x : float) (xs : list float) :
  In x (sortAscending xs) <-> In x xs.
Proof.
  induction xs as [|y xs IH]; [reflexivity|].
  cbn [sortAscending fold_right]. fold (sortAscending xs).
  rewrite insertSorted_In, IH. cbn. intuition.
Qed.

Lemma insertSorted_length (y : float) (sorted : list float) :
  length (insertSorted y sorted) = S (length sorted).
Proof.
  induction sorted as [|z sorted IH]; [reflexivity|].
  cbn [insertSorted].
  destruct (PrimFloat.ltb (PrimFloat.sub z y) PrimFloat.zero);
    cbn [length]; now rewrite ?IH.
Qed.

Lemma sortAscending_length (xs : list float) :
  length (sortAscending xs) = length xs.
Proof.
  induction xs as [|y xs IH]; [reflexivity|].
  cbn [sortAscending fold_right]. fold (sortAscending xs).
  now rewrite insertSorted_length, IH.
Qed.

Lemma at_index_In (xs : list float) (k : option Z) (x : float) :
  at_index xs k = Some x -> In x xs.
Proof.
  unfold at_index. destruct k as [z|]; [|discriminate].
  destruct (z <? 0); [discriminate|]. apply nth_error_In.
Qed.

(** X22: sorting loses and invents nothing: every latency figure of a
    worker's result that is defined, the three percentiles, the minimum and
    the maximum, is the latency of one of its measurements. *)
Theorem reported_latencies_are_measured
    (workerId connectionId recordsInserted : Z)
    (totalDataSizeMB startTime endTime : float)
    (measurements : list LatencyMeasurement) (errors : list string)
    (x : float) :
  let result :=
    calculateStatistics workerId connectionId recordsInserted
      totalDataSizeMB startTime endTime measurements errors in
  In (Some x)
     [p50LatencyMs result; p95LatencyMs result; p99LatencyMs result;
      minLatencyMs result; maxLatencyMs result] ->
  exists m, In m measurements /\ latency m = x.
Proof.
  intros result Hin.
  assert (Hx : In x (sortAscending (map latency measurements))).
  { unfold result, calculateStatistics in Hin.
    cbn [p50LatencyMs p95LatencyMs p99LatencyMs minLatencyMs maxLatencyMs
         In] in Hin.
    destruct Hin as [H|[H|[H|[H|[H|[]]]]]].
    - now apply at_index_In in H.
    - now apply at_index_In in H.
    - now apply at_index_In in H.
    - now apply nth_error_In in H.
    - now apply at_index_In in H. }
  apply sortAscending_In, in_map_iff in Hx as (m & Hm & Hin').
  now exists m.
Qed.

Lemma reported_latencies_are_measured_witness :
  p50LatencyMs Scenarios.twoInsertsWorker = Some 300%float
  /\ exists m, In m Scenarios.twoInserts /\ latency m = 300%float.
Proof.
  split; [reflexivity|].
  apply (reported_latencies_are_measured 0 0 200 15%float 0%float
           60000%float Scenarios.twoInserts [] 300%float).
  left. reflexivity.
Defined.

(** X23: a worker without a measurement reports no latency: the three
    percentiles, the minimum and the maximum are read past the end of an
    empty array, and the average is 0/0. *)
Theorem no_measurement_gives_undefined_latencies
    (workerId connectionId recordsInserted : Z)
    (totalDataSizeMB startTime endTime : float) (errors : list string) :
  let result :=
    calculateStatistics workerId connectionId recordsInserted
      totalDataSizeMB startTime endTime [] errors in
  p50LatencyMs result = None /\ p95LatencyMs result = None
  /\ p99LatencyMs result = None /\ minLatencyMs result = None
  /\ maxLatencyMs result = None
  /\ PrimFloat.is_nan (avgLatencyMs result) = true
  /\ successCount result = 0 /\ errorCount result = 0.
Proof. cbv zeta. repeat split; vm_compute; reflexivity. Qed.

(** *** The two loops *)

Lemma insertBatch_consistent (env : Environment)
    (config : BenchmarkConfig.t) (s : State) :
  consistent config s ->
  consistent config (insertBatch env config s)
  /\ exists m, measurements (insertBatch env config s) = measurements s ++ [m].
Proof.
  intros (Hlen & Hrec & Herr). unfold insertBatch.
  destruct (insert env (inserts s)) as [message|];
    (split; [|eexists; reflexivity]);
    unfold consistent;
    cbn [measurements inserts recordsInserted errors];
    rewrite !filter_app, !length_app; cbn [filter success negb length];
    repeat split; lia.
Qed.

Lemma phase_consistent (fuel : nat) (env : Environment)
    (config : BenchmarkConfig.t) (phaseStart : float) (seconds : Z) :
  forall s s',
    phase fuel env config phaseStart seconds s = Some s' ->
    consistent config s ->
    consistent config s'
    /\ exists later, measurements s' = measurements s ++ later.
Proof.
  induction fuel as [|fuel IH]; intros s s' Hphase Hs; [discriminate|].
  cbn [phase] in Hphase.
  destruct (PrimFloat.ltb _ _).
  - match type of Hphase with
    | phase _ _ _ _ _ (insertBatch _ _ ?s1) = _ =>
        destruct (insertBatch_consistent env config s1 Hs) as (H1 & m & Hm)
    end.
    destruct (IH _ _ Hphase H1) as (H' & later & Hlater).
    split; [exact H'|]. exists (m :: later).
    rewrite Hlater, Hm. cbn [measurements]. now rewrite <- app_assoc.
  - injection Hphase as <-. split; [exact Hs|].
    exists []. cbn [measurements]. now rewrite app_nil_r.
Qed.

(** X24: the warm-up is part of what a worker reports: the measurements of
    the warm-up loop are the first measurements the statistics are computed
    from, so that [successCount] and [errorCount] count the inserts of both
    loops and [recordsInserted] includes the records of the warm-up. *)
Theorem warmup_inserts_are_reported
    (fuel : nat) (env : Environment) (config : BenchmarkConfig.t)
    (workerId connectionId : Z) (result : WorkerResult) :
  runBenchmark fuel env config workerId connectionId = Some result ->
  exists (afterWarmup : State) (later : list LatencyMeasurement),
    warmup fuel env config = Some afterWarmup
    /\ successCount result
       = Z.of_nat (length (filter success (measurements afterWarmup)))
         + Z.of_nat (length (filter success later))
    /\ successCount result + errorCount result
       = Z.of_nat (inserts afterWarmup) + Z.of_nat (length later)
    /\ InsertWorker.recordsInserted afterWarmup
       <= BenchmarkWorker.recordsInserted result.
Proof.
  unfold runBenchmark, loops. intros Hrun.
  destruct (warmup fuel env config) as [sw|] eqn:Hwarm; [|discriminate].
  destruct (phase fuel env config _ _ _) as [sf|] eqn:Htest; [|discriminate].
  injection Hrun as <-.
  assert (Hinit : consistent config
                    (mkState 2 0 [] [] 0 PrimFloat.zero)).
  { unfold consistent. cbn. repeat split; lia. }
  destruct (phase_consistent _ _ _ _ _ _ _ Hwarm Hinit)
    as ((Hlen & Hrec & Herr) & _).
  destruct (phase_consistent _ _ _ _ _ _ _ Htest) as
    ((Hlen' & Hrec' & Herr') & later & Hlater).
  { unfold consistent. cbn [measurements inserts recordsInserted errors].
    now repeat split. }
  cbn [measurements] in Hlater.
  exists sw, later. split; [reflexivity|].
  unfold calculateStatistics.
  cbn [successCount errorCount BenchmarkWorker.recordsInserted].
  rewrite Hlater, !filter_app, !length_app.
  pose proof (TwoStageFacts.filter_partition_length success
                (measurements sw)) as Hsw.
  pose proof (TwoStageFacts.filter_partition_length success later) as Hl.
  split; [lia|]. split; [lia|].
  rewrite Hrec', Hrec, Hlater, filter_app, length_app. nia.
Qed.

Lemma warmup_inserts_are_reported_witness :
  exists result afterWarmup,
    runBenchmark 10 InsertWorkerScenarios.environment
                 InsertWorkerScenarios.config 0 0
    = Some result
    /\ warmup 10 InsertWorkerScenarios.environment
              InsertWorkerScenarios.config
       = Some afterWarmup
    /\ inserts afterWarmup = 1%nat
    /\ successCount result + errorCount result = 3
    /\ BenchmarkWorker.recordsInserted result = 200.
Proof.
  destruct (runBenchmark 10 InsertWorkerScenarios.environment
              InsertWorkerScenarios.config 0 0) as [result|] eqn:Hrun;
    [|discriminate].
  destruct (warmup_inserts_are_reported 10 InsertWorkerScenarios.environment
              InsertWorkerScenarios.config 0 0 result Hrun)
    as (sw & later & Hwarm & _).
  exists result, sw. split; [reflexivity|]. split; [exact Hwarm|].
  assert (Hsw : option_map inserts
                  (warmup 10 InsertWorkerScenarios.environment
                     InsertWorkerScenarios.config) = Some 1%nat)
    by reflexivity.
  rewrite Hwarm in Hsw. injection Hsw as Hsw. split; [exact Hsw|].
  assert (Hr : option_map
                 (fun r => (successCount r + errorCount r,
                            BenchmarkWorker.recordsInserted r))
                 (runBenchmark 10 InsertWorkerScenarios.environment
                    InsertWorkerScenarios.config 0 0)
               = Some (3, 200))
    by reflexivity.
  rewrite Hrun in Hr. injection Hr as H1 H2. now split.
Defined.

(** X25: a worker counts the records of the batches whose insert succeeded
    and keeps the messages of the first ten that failed: for a batch size
    that is not negative, [recordsInserted] is [batchSize] times
    [successCount], and [errors] holds ten messages or, when fewer inserts
    failed, one per failed insert. *)
Theorem records_are_counted_per_successful_batch
    (fuel : nat) (env : Environment) (config : BenchmarkConfig.t)
    (workerId connectionId : Z) (result : WorkerResult) :
  runBenchmark fuel env config workerId connectionId = Some result ->
  0 <= BenchmarkConfig.batchSize config ->
  BenchmarkWorker.recordsInserted result
  = BenchmarkConfig.batchSize config * successCount result
  /\ Z.of_nat (length (BenchmarkWorker.errors result))
     = Z.min 10 (errorCount result).
Proof.
  unfold runBenchmark, loops. intros Hrun Hsize.
  destruct (warmup fuel env config) as [sw|] eqn:Hwarm; [|discriminate].
  destruct (phase fuel env config _ _ _) as [sf|] eqn:Htest; [|discriminate].
  injection Hrun as <-.
  assert (Hinit : consistent config
                    (mkState 2 0 [] [] 0 PrimFloat.zero)).
  { unfold consistent. cbn. repeat split; lia. }
  destruct (phase_consistent _ _ _ _ _ _ _ Hwarm Hinit) as (Hsw & _).
  destruct (phase_consistent _ _ _ _ _ _ _ Htest) as
    ((Hlen' & Hrec' & Herr') & _).
  { destruct Hsw as (? & ? & ?). unfold consistent.
    cbn [measurements inserts recordsInserted errors]. now repeat split. }
  unfold calculateStatistics.
  cbn [successCount errorCount BenchmarkWorker.recordsInserted
       BenchmarkWorker.errors].
  split.
  - rewrite Hrec', Z2Nat.id by exact Hsize. reflexivity.
  - rewrite length_firstn, Herr'. lia.
Qed.

Lemma records_are_counted_per_successful_batch_witness :
  exists result,
    runBenchmark 10 InsertWorkerScenarios.environment
                 InsertWorkerScenarios.config 0 0
    = Some result
    /\ BenchmarkWorker.recordsInserted result = 100 * successCount result
    /\ BenchmarkWorker.errors result = ["deadlock detected"].
Proof.
  destruct (runBenchmark 10 InsertWorkerScenarios.environment
              InsertWorkerScenarios.config 0 0) as [result|] eqn:Hrun;
    [|discriminate].
  destruct (records_are_counted_per_successful_batch 10
              InsertWorkerScenarios.environment InsertWorkerScenarios.config
              0 0 result Hrun)
    as (Hrecords & _); [discriminate|].
  exists result. split; [reflexivity|]. split; [exact Hrecords|].
  assert (Hr : option_map BenchmarkWorker.errors
                 (runBenchmark 10 InsertWorkerScenarios.environment
                    InsertWorkerScenarios.config 0 0)
               = Some ["deadlock detected"])
    by reflexivity.
  rewrite Hrun in Hr. now injection Hr.
Defined.

End InsertWorkerFacts.

(** ** The streaming benchmark *)

Module StreamingFacts.
Import Js Streaming.

Lemma insertBatches_accounts (env : Environment)
    (workerId totalRecords batchSize : Z) :
  1 <= batchSize ->
  forall (fuel : nat) (i : Z) (s : State),
    (Z.to_nat (totalRecords - i) <= fuel)%nat ->
    exists s',
      insertBatches fuel env workerId totalRecords batchSize i s = Some s'
      /\ inserted s' + failed s'
         = inserted s + failed s + Z.max 0 (totalRecords - i)
      /\ inserted s <= inserted s' /\ failed s <= failed s'
      /\ (length (measured s) <= length (measured s'))%nat.
Proof.
  intros Hsize. induction fuel as [|fuel IH]; intros i s Hfuel.
  - cbn [insertBatches].
    destruct (Z.ltb_spec i totalRecords); [lia|].
    exists s. split; [reflexivity|]. lia.
  - cbn [insertBatches].
    destruct (Z.ltb_spec i totalRecords) as [Hlt|Hge].
    2:{ exists s. split; [reflexivity|]. lia. }
    match goal with
    | |- context [insertBatches fuel _ _ _ _ _ ?s1] =>
        destruct (IH (i + batchSize) s1 ltac:(lia))
          as (s' & Hrun & Hsum & Hins & Hfail & Hlen)
    end.
    exists s'. split; [exact Hrun|].
    destruct (insert env workerId i);
      cbn [inserted failed measured] in *;
      rewrite ?length_app in Hlen; cbn [length] in Hlen; lia.
Qed.

(** One latency at most is measured per batch. *)
Lemma insertBatches_latencies (env : Environment)
    (workerId totalRecords batchSize : Z) :
  1 <= batchSize ->
  forall (fuel : nat) (i : Z) (s s' : State),
    insertBatches fuel env workerId totalRecords batchSize i s = Some s' ->
    Z.of_nat (length (measured s'))
    <= Z.of_nat (length (measured s))
       + (Z.max 0 (totalRecords - i) + batchSize - 1) / batchSize.
Proof.
  intros Hsize. induction fuel as [|fuel IH]; intros i s s'.
  - cbn [insertBatches].
    destruct (Z.ltb_spec i totalRecords); [discriminate|].
    intros [= <-].
    assert (0 <= (Z.max 0 (totalRecords - i) + batchSize - 1) / batchSize)
      by (apply Z.div_pos; lia).
    lia.
  - cbn [insertBatches].
    destruct (Z.ltb_spec i totalRecords) as [Hlt|Hge].
    2:{ intros [= <-].
        assert (0 <= (Z.max 0 (totalRecords - i) + batchSize - 1)
                     / batchSize)
          by (apply Z.div_pos; lia).
        lia. }
    intros Hrun. apply IH in Hrun.
    assert (Hstep : (Z.max 0 (totalRecords - (i + batchSize)) + batchSize - 1)
                    / batchSize + 1
                    <= (Z.max 0 (totalRecords - i) + batchSize - 1)
                       / batchSize).
    { destruct (Z.le_gt_cases batchSize (totalRecords - i)) as [Hfull|Hlast].
      - rewrite <- Z.div_add by lia. apply Z.div_le_mono; lia.
      - rewrite (Z.max_l 0 (totalRecords - (i + batchSize))) by lia.
        rewrite (Z.div_small (0 + batchSize - 1) batchSize) by lia.
        apply Z.div_le_lower_bound; lia. }
    destruct (insert env workerId i); cbn [measured] in Hrun;
      rewrite ?length_app in Hrun; cbn [length] in Hrun; lia.
Qed.

(** X26: a streaming worker accounts for every record once, and always
    returns: for a batch size of at least one, the loop ends after at most
    [totalRecords] batches, the records of a failed batch are counted as
    failed and the loop goes on, the two counts add up to [totalRecords],
    and at most five messages are kept. *)
Theorem streaming_worker_accounts_for_every_record
    (fuel : nat) (env : Environment) (workerId totalRecords batchSize : Z) :
  0 <= totalRecords -> 1 <= batchSize ->
  (Z.to_nat totalRecords <= fuel)%nat ->
  exists result,
    runStreamingWorker fuel env workerId totalRecords batchSize
    = Some result
    /\ successfulInserts result + failedInserts result = totalRecords
    /\ 0 <= successfulInserts result /\ 0 <= failedInserts result
    /\ (length (errors result) <= 5)%nat.
Proof.
  intros Htotal Hsize Hfuel. unfold runStreamingWorker.
  destruct (insertBatches_accounts env workerId totalRecords batchSize Hsize
              fuel 0 (mkState 1 0 0 [] []))
    as (s' & -> & Hsum & Hins & Hfail & _);
    [rewrite Z.sub_0_r; exact Hfuel|].
  cbn [inserted failed] in *. eexists. split; [reflexivity|].
  cbn [successfulInserts failedInserts errors].
  rewrite length_firstn. repeat split; lia.
Qed.

Lemma streaming_worker_accounts_for_every_record_witness :
  exists result,
    runStreamingWorker 116 StreamingScenarios.environment 1 116 50
    = Some result
    /\ successfulInserts result + failedInserts result = 116.
Proof.
  destruct (streaming_worker_accounts_for_every_record 116
              StreamingScenarios.environment 1 116 50)
    as (result & Hrun & Hsum & _); [lia | lia | reflexivity |].
  exists result. split; [exact Hrun | exact Hsum].
Defined.

Lemma sumZ_from {A : Type} (f : A -> Z) (xs : list A) :
  forall start, fold_left (fun sum r => sum + f r) xs start
                = start + sumZ f xs.
Proof.
  unfold sumZ. induction xs as [|x xs IH]; intros start; cbn [fold_left].
  - lia.
  - rewrite IH, (IH (0 + f x)). lia.
Qed.

Lemma allWorkers_accounts (fuel : nat) (env : Environment)
    (recordsPerConnection batchSize : Z) (indices : list Z) :
  0 <= recordsPerConnection -> 1 <= batchSize ->
  (Z.to_nat recordsPerConnection <= fuel)%nat ->
  exists workerResults,
    allWorkers fuel env indices recordsPerConnection batchSize
    = Some workerResults
    /\ sumZ successfulInserts workerResults
       + sumZ failedInserts workerResults
       = Z.of_nat (length indices) * recordsPerConnection
    /\ 0 <= sumZ successfulInserts workerResults
    /\ 0 <= sumZ failedInserts workerResults
    /\ Z.of_nat (length (flat_map latencies workerResults))
       <= Z.of_nat (length indices)
          * ((recordsPerConnection + batchSize - 1) / batchSize).
Proof.
  intros Hrecords Hsize Hfuel.
  induction indices as [|index rest IH].
  - exists []. cbn. repeat split; lia.
  - destruct IH as (rs & Hrest & Hsum & Hs & Hf & Hl).
    destruct (insertBatches_accounts env index recordsPerConnection
                batchSize Hsize fuel 0 (mkState 1 0 0 [] []))
      as (s' & Hrun & Hr & Hrs & Hrf & _);
      [rewrite Z.sub_0_r; exact Hfuel|].
    pose proof (insertBatches_latencies env index recordsPerConnection
                  batchSize Hsize fuel 0 _ s' Hrun) as Hbatches.
    rewrite Z.sub_0_r, Z.max_r in Hbatches by lia.
    cbn [inserted failed measured length] in Hr, Hrs, Hrf, Hbatches.
    eexists. cbn [allWorkers]. unfold runStreamingWorker.
    rewrite Hrun, Hrest. split; [reflexivity|].
    unfold sumZ at 1 2 3 4. cbn [fold_left successfulInserts failedInserts].
    rewrite !sumZ_from.
    cbn [flat_map latencies]. rewrite length_app.
    cbn [length]. repeat split; try lia.
Qed.

Lemma firstError_none (outcome : Z -> option string) (indices : list Z) :
  (forall index, outcome index = None) ->
  firstError outcome indices = None.
Proof.
  intros Hnone. unfold firstError.
  replace (flat_map _ indices) with (@nil string); [reflexivity|].
  induction indices as [|index l IH]; [reflexivity|].
  cbn [flat_map]. now rewrite Hnone, <- IH.
Qed.

(** X27: the streaming benchmark inserts, or counts as failed, the same
    number of records on every connection.  When every connection is
    created, passes its test and is destroyed without error, and the
    engine takes as many arguments in a call as there are batches in the
    run, the run returns; [successCount] and [errorCount] add up to
    [totalConnections] times the records per connection, and that total
    misses the records planned for the configured data size by less than
    [totalConnections]: the remainder of the division is never inserted.
    The byte and connection counts are below 2^53, where [Math.floor] of
    the binary64 quotients is the integer quotient. *)
Theorem streaming_counts_cover_the_connections
    (fuel : nat) (env : Environment) (config : BenchmarkConfig.t) :
  let totalConnections :=
    BenchmarkConfig.minWorkers config
    * BenchmarkConfig.connectionsPerWorker config in
  let totalRecords :=
    (BenchmarkConfig.dataSizeMB config * 1024 * 1024) / (75 * 1024) in
  let recordsPerConnection := totalRecords / totalConnections in
  let batches := (recordsPerConnection + 49) / 50 in
  0 < totalConnections < 2 ^ 53 ->
  0 <= BenchmarkConfig.dataSizeMB config ->
  BenchmarkConfig.dataSizeMB config * 1024 * 1024 < 2 ^ 53 ->
  (forall index, connect env index = None) ->
  (forall index, selectOne env index = None) ->
  (forall index, destroy env index = None) ->
  totalConnections * batches <= spreadLimit env ->
  (Z.to_nat recordsPerConnection <= fuel)%nat ->
  exists result,
    runSimpleStreamingBenchmark fuel env config
    = Some (StagedFiles.Ok result)
    /\ BenchmarkResult.successCount result
       + BenchmarkResult.errorCount result
       = totalConnections * recordsPerConnection
    /\ totalRecords - totalConnections
       < BenchmarkResult.successCount result
         + BenchmarkResult.errorCount result
       <= totalRecords
    /\ BenchmarkResult.totalRecords result
       = BenchmarkResult.successCount result
    /\ (length (BenchmarkResult.errors result) <= 10)%nat.
Proof.
  intros totalConnections totalRecords recordsPerConnection batches
    [Hconn _] Hdata _ Hconnect Hselect Hdestroy Hspread Hfuel.
  assert (Htotal : 0 <= totalRecords)
    by (apply Z.div_pos; lia).
  assert (Hper : 0 <= recordsPerConnection)
    by (apply Z.div_pos; lia).
  unfold runSimpleStreamingBenchmark, tryBlock. cbv zeta.
  fold totalConnections. fold totalRecords. fold recordsPerConnection.
  rewrite !firstError_none by assumption.
  destruct (allWorkers_accounts fuel env recordsPerConnection 50
              (range totalConnections) Hper ltac:(lia) Hfuel)
    as (workerResults & -> & Hsum & Hs & Hf & Hl).
  assert (Hlen : Z.of_nat (length (range totalConnections))
                 = totalConnections).
  { unfold range. rewrite length_map, length_seq. lia. }
  rewrite Hlen in Hsum, Hl.
  replace (recordsPerConnection + 50 - 1) with (recordsPerConnection + 49)
    in Hl by lia.
  fold batches in Hl.
  assert (Hroom : match flat_map latencies workerResults with
                  | [] => false
                  | _ :: _ =>
                      spreadLimit env
                      <? Z.of_nat (length (flat_map latencies workerResults))
                  end = false).
  { destruct (flat_map latencies workerResults) eqn:Hall; [reflexivity|].
    apply Z.ltb_ge. lia. }
  rewrite Hroom.
  eexists. split; [reflexivity|].
  cbn [BenchmarkResult.successCount BenchmarkResult.errorCount
       BenchmarkResult.totalRecords BenchmarkResult.errors].
  pose proof (Z.div_mod totalRecords totalConnections ltac:(lia)) as Hdiv.
  pose proof (Z.mod_pos_bound totalRecords totalConnections Hconn) as Hmod.
  fold recordsPerConnection in Hdiv.
  split; [exact Hsum|]. split; [lia|]. split; [reflexivity|].
  rewrite length_firstn. lia.
Qed.

Lemma streaming_counts_cover_the_connections_witness :
  exists result,
    runSimpleStreamingBenchmark 116 StreamingScenarios.environment
                                StreamingScenarios.config
    = Some (StagedFiles.Ok result)
    /\ BenchmarkResult.successCount result
       + BenchmarkResult.errorCount result
       = 2 * 116.
Proof.
  destruct (streaming_counts_cover_the_connections 116
              StreamingScenarios.environment StreamingScenarios.config)
    as (result & Hrun & Hsum & _);
    [split; reflexivity | discriminate | reflexivity | reflexivity
     | reflexivity | reflexivity | discriminate | reflexivity |].
  exists result. split; [exact Hrun | exact Hsum].
Defined.

End StreamingFacts.

(** ** The single-stage aggregation *)

Module SingleStageFacts.
Import Js BenchmarkWorker InsertWorker.

Lemma runBenchmark_records
    (fuel : nat) (env : Environment) (config : BenchmarkConfig.t)
    (workerId connectionId : Z) (result : WorkerResult) :
  runBenchmark fuel env config workerId connectionId = Some result ->
  BenchmarkWorker.recordsInserted result
  = Z.of_nat (Z.to_nat (BenchmarkConfig.batchSize config))
    * successCount result.
Proof.
  unfold runBenchmark, loops. intros Hrun.
  destruct (warmup fuel env config) as [sw|] eqn:Hwarm; [|discriminate].
  destruct (phase fuel env config _ _ _) as [sf|] eqn:Htest; [|discriminate].
  injection Hrun as <-.
  assert (Hinit : consistent config (mkState 2 0 [] [] 0 PrimFloat.zero)).
  { unfold consistent. cbn. repeat split; lia. }
  destruct (InsertWorkerFacts.phase_consistent _ _ _ _ _ _ _ Hwarm Hinit)
    as (Hsw & _).
  destruct (InsertWorkerFacts.phase_consistent _ _ _ _ _ _ _ Htest) as
    ((_ & Hrec & _) & _).
  { destruct Hsw as (? & ? & ?). unfold consistent.
    cbn [measurements inserts recordsInserted errors]. now repeat split. }
  exact Hrec.
Qed.

(** X28: the single-stage result counts records per successful insert of
    either loop: when each worker result comes from a run of the insert
    worker, with its own clock and database answers, [totalRecords] is
    [batchSize] times [successCount], warm-up inserts included, while
    [duration] is the configured test duration alone. *)
Theorem single_stage_totals_include_the_warmup
    (timestamp : string) (config : BenchmarkConfig.t) (fuel : nat)
    (runs : list (Environment * (Z * Z)))
    (workerResults : list WorkerResult) :
  0 <= BenchmarkConfig.batchSize config ->
  Forall2 (fun run result =>
             runBenchmark fuel (fst run) config (fst (snd run))
                          (snd (snd run))
             = Some result)
          runs workerResults ->
  let result := SingleStage.aggregate timestamp config workerResults in
  BenchmarkResult.totalRecords result
  = BenchmarkConfig.batchSize config * BenchmarkResult.successCount result
  /\ BenchmarkResult.duration result
     = Z2F (BenchmarkConfig.testDuration config).
Proof.
  intros Hsize Hruns result. split; [|reflexivity].
  unfold result, SingleStage.aggregate.
  cbn [BenchmarkResult.totalRecords BenchmarkResult.successCount].
  induction Hruns as [|run r runs rs Hrun _ IH].
  - cbn. lia.
  - unfold sumZ in *. cbn [fold_left].
    rewrite !(StreamingFacts.sumZ_from _ rs (0 + _)).
    unfold sumZ. rewrite IH.
    rewrite (runBenchmark_records _ _ _ _ _ _ Hrun), Z2Nat.id by exact Hsize.
    lia.
Qed.

Lemma single_stage_totals_include_the_warmup_witness :
  exists worker,
    runBenchmark 10 InsertWorkerScenarios.environment
                 InsertWorkerScenarios.config 0 0
    = Some worker
    /\ BenchmarkResult.totalRecords
         (SingleStage.aggregate "2023-11-14T22:13:20.000Z"
            InsertWorkerScenarios.config [worker])
       = 100 * BenchmarkResult.successCount
                 (SingleStage.aggregate "2023-11-14T22:13:20.000Z"
                    InsertWorkerScenarios.config [worker]).
Proof.
  destruct (runBenchmark 10 InsertWorkerScenarios.environment
              InsertWorkerScenarios.config 0 0) as [worker|] eqn:Hrun;
    [|discriminate].
  exists worker. split; [reflexivity|].
  apply (single_stage_totals_include_the_warmup
           "2023-11-14T22:13:20.000Z" InsertWorkerScenarios.config 10
           [(InsertWorkerScenarios.environment, (0, 0))] [worker]).
  - discriminate.
  - constructor; [exact Hrun | constructor].
Defined.

End SingleStageFacts.
